(** * Audit Vault chat service: a shallow embedding of [ChatService]

    The development follows [backend/src/chat/chat.service.ts]: the
    session store is a set of Prisma tables, [sendMessage] is a linear
    procedure that threads the database and the outside world through a
    sequence of awaited calls, and [sanitizeAssistantContent] is a pure
    text transform made of regular-expression substitutions.

    JavaScript strings are sequences of UTF-16 code units, so a string is
    a [list N]; regular expressions without the [u] flag work on code
    units as well. *)

From Stdlib Require Import String Ascii.
From Stdlib Require Import List NArith ZArith Bool Lia Sorted.
Import ListNotations.

Set Implicit Arguments.
Set Warnings "-register-all".

(** ** JavaScript strings *)

Module Js.

Definition char := N.
Definition jsstring := list char.

(** An ASCII literal of the source as a code-unit sequence. *)
Definition lit (s : string) : jsstring :=
  map N_of_ascii (list_ascii_of_string s).
Arguments lit s%_string.

Fixpoint eqb (a b : jsstring) : bool :=
  match a, b with
  | [], [] => true
  | x :: a', y :: b' => N.eqb x y && eqb a' b'
  | _, _ => false
  end.

(** [if (s)] on a string: only the empty string is falsy. *)
Definition truthy (s : jsstring) : bool :=
  match s with [] => false | _ :: _ => true end.

(** [a || b] on strings. *)
Definition or_else (a b : jsstring) : jsstring :=
  if truthy a then a else b.

(** [s.slice(0, n)]: the first [n] code units, wherever that cuts. *)
Definition slice0 (n : nat) (s : jsstring) : jsstring := firstn n s.

(** The two halves of a character outside the Basic Multilingual Plane:
    a code unit in D800..DBFF followed by one in DC00..DFFF. *)
Definition isHighSurrogate (c : char) : bool := N.leb 55296 c && N.leb c 56319.
Definition isLowSurrogate (c : char) : bool := N.leb 56320 c && N.leb c 57343.

(** [s.isWellFormed()]: no surrogate stands alone. *)
Fixpoint isWellFormed (s : jsstring) : bool :=
  match s with
  | [] => true
  | c :: t =>
      if isHighSurrogate c then
        match t with
        | d :: u => isLowSurrogate d && isWellFormed u
        | [] => false
        end
      else negb (isLowSurrogate c) && isWellFormed t
  end.

Definition LF : char := 10%N.
Definition star : char := 42%N.
Definition underscore : char := 95%N.
Definition hash : char := 35%N.
Definition dash : char := 45%N.

(** ECMAScript LineTerminator: LF, CR, LS, PS. *)
Definition isLineTerminator (c : char) : bool :=
  N.eqb c 10 || N.eqb c 13 || N.eqb c 8232 || N.eqb c 8233.

(** ECMAScript WhiteSpace or LineTerminator: what [\s] matches and what
    [String.prototype.trim] strips. *)
Definition isSpace (c : char) : bool :=
  N.eqb c 9 || N.eqb c 11 || N.eqb c 12 || N.eqb c 32 || N.eqb c 160
  || N.eqb c 5760 || (N.leb 8192 c && N.leb c 8202) || N.eqb c 8239
  || N.eqb c 8287 || N.eqb c 12288 || N.eqb c 65279
  || isLineTerminator c.

Fixpoint dropWhile (p : char -> bool) (s : jsstring) : jsstring :=
  match s with
  | [] => []
  | c :: t => if p c then dropWhile p t else s
  end.

(** [s.trimEnd()]: the result keeps a character when it is not white
    space or when something that is kept follows it. *)
Fixpoint trimEnd (s : jsstring) : jsstring :=
  match s with
  | [] => []
  | c :: t =>
      match trimEnd t with
      | [] => if isSpace c then [] else [c]
      | r => c :: r
      end
  end.

(** [s.trim()]. *)
Definition trim (s : jsstring) : jsstring := trimEnd (dropWhile isSpace s).

(** [s.split('\n')]: always at least one piece. *)
Fixpoint split_lines (s : jsstring) : list jsstring :=
  match s with
  | [] => [[]]
  | c :: t =>
      match split_lines t with
      | [] => [[c]]
      | l :: ls => if N.eqb c LF then [] :: l :: ls else (c :: l) :: ls
      end
  end.

(** [pieces.join(sep)]. *)
Fixpoint join (sep : jsstring) (pieces : list jsstring) : jsstring :=
  match pieces with
  | [] => []
  | [p] => p
  | p :: ps => p ++ sep ++ join sep ps
  end.

End Js.

Import Js.

(** ** Regular expressions of the source

    Every pattern of the service is a sequence of quantified character
    classes, so a pattern is a list of atoms.  Matching is the
    backtracking search of ECMAScript: a greedy quantifier tries the
    longest repetition first, a lazy one the shortest. *)

Module Regex.

Record Atom := mkAtom {
  cls : char -> bool;
  lo : nat;
  hi : option nat;
  greedy : bool
}.

Definition one (c : char) : Atom := mkAtom (N.eqb c) 1 (Some 1) true.

(** Length of the longest prefix of [s] inside the class. *)
Fixpoint run (p : char -> bool) (s : jsstring) : nat :=
  match s with
  | [] => 0
  | c :: t => if p c then S (run p t) else 0
  end.

Definition cap (a : Atom) (s : jsstring) : nat :=
  match hi a with
  | Some h => Nat.min h (run (cls a) s)
  | None => run (cls a) s
  end.

(** The repetition counts an atom may take at [s], in the order the
    matcher tries them. *)
Definition candidates (a : Atom) (s : jsstring) : list nat :=
  let ks := seq (lo a) (S (cap a s) - lo a) in
  if greedy a then rev ks else ks.

Fixpoint first_some {A B} (f : A -> option B) (l : list A) : option B :=
  match l with
  | [] => None
  | x :: l' => match f x with Some b => Some b | None => first_some f l' end
  end.

(** Match the pattern at the start of [s]: the text taken by each atom
    and the text after the match. *)
Fixpoint match_here (re : list Atom) (s : jsstring)
  : option (list jsstring * jsstring) :=
  match re with
  | [] => Some ([], s)
  | a :: re' =>
      first_some
        (fun k =>
           match match_here re' (skipn k s) with
           | Some (ps, rest) => Some (firstn k s :: ps, rest)
           | None => None
           end)
        (candidates a s)
  end.

(** [s.replace(/re/g, '$g')] where capture group [g] is the atom at
    index [group]: scan from the left, replace each match by the text of
    the group and resume after the match.  [skip] counts the characters
    of the current match that are still to be passed over.  The patterns
    of the service take at least three characters, so the case of an
    empty match only copies the character. *)
Fixpoint replace_all (re : list Atom) (group : nat) (skip : nat) (s : jsstring)
  : jsstring :=
  match s with
  | [] => []
  | c :: t =>
      match skip with
      | S k => replace_all re group k t
      | O =>
          match match_here re s with
          | Some (ps, _) =>
              match length (concat ps) with
              | O => c :: replace_all re group 0 t
              | S k => nth group ps [] ++ replace_all re group k t
              end
          | None => c :: replace_all re group 0 t
          end
      end
  end.

(** [s.replace(/^re/, '')]: without the [m] flag the anchor is the start
    of the string, so the only attempt is at index 0. *)
Definition strip_prefix (re : list Atom) (s : jsstring) : jsstring :=
  match match_here re s with
  | Some (_, rest) => rest
  | None => s
  end.

Definition dot : char -> bool := fun c => negb (isLineTerminator c).

(** [/\*\*(.+?)\*\*/g] *)
Definition bold_re : list Atom :=
  [one star; one star; mkAtom dot 1 None false; one star; one star].

(** [/\*(.+?)\*/g] *)
Definition star_re : list Atom :=
  [one star; mkAtom dot 1 None false; one star].

(** [/_(.+?)_/g] *)
Definition underscore_re : list Atom :=
  [one underscore; mkAtom dot 1 None false; one underscore].

(** [/^\s*#{1,6}\s+/] *)
Definition heading_re : list Atom :=
  [mkAtom isSpace 0 None true; mkAtom (N.eqb hash) 1 (Some 6) true;
   mkAtom isSpace 1 None true].

(** [/^\s*-\s+/] *)
Definition dash_re : list Atom :=
  [mkAtom isSpace 0 None true; one dash; mkAtom isSpace 1 None true].

End Regex.

Import Regex.

(** ** The response sanitizer *)

Definition strip_line (line : jsstring) : jsstring :=
  let current := line in
  let current := strip_prefix heading_re current in
  let current := strip_prefix dash_re current in
  current.

Definition sanitizeAssistantContent (content : jsstring) : jsstring :=
  if negb (truthy content) then content
  else
    let cleaned := replace_all bold_re 2 0 content in
    let cleaned := replace_all star_re 1 0 cleaned in
    let cleaned := replace_all underscore_re 1 0 cleaned in
    let lines := map strip_line (split_lines cleaned) in
    trim (join [LF] lines).


(** ** Data model: the Prisma tables the chat service touches *)

Record ChatSession := mkChatSession {
  s_id : jsstring;
  s_userId : jsstring;
  s_title : jsstring;
  s_createdAt : Z;
  s_updatedAt : Z
}.

Record ChatMessage := mkChatMessage {
  m_id : jsstring;
  m_sessionId : jsstring;
  m_role : jsstring;
  m_content : jsstring;
  m_createdAt : Z
}.

(** A JavaScript [Date] by its UTC fields, which is what [toISOString]
    prints. *)
Record Date := mkDate {
  year : Z;
  month : N;
  day : N;
  hours : N;
  minutes : N;
  seconds : N;
  milliseconds : N
}.

Record Fund := mkFund {
  f_name : jsstring;
  f_code : jsstring
}.

(** A row of [document] with its [fund] relation joined, as
    [include: { fund: { select: { name, code } } }] returns it. *)
Record Document := mkDocument {
  d_id : jsstring;
  d_title : jsstring;
  d_fundId : jsstring;
  d_fund : option Fund;
  d_type : jsstring;
  d_status : jsstring;
  d_periodStart : Date;
  d_periodEnd : Date;
  d_description : option jsstring
}.

Record Db := mkDb {
  chatSession : list ChatSession;
  chatMessage : list ChatMessage;
  document : list Document
}.

(** [w] decimal digits of [n], most significant first. *)
Fixpoint digits (w : nat) (n : N) : jsstring :=
  match w with
  | O => []
  | S w' => digits w' (n / 10) ++ [(48 + n mod 10)%N]
  end.

(** [Date.prototype.toISOString]: [YYYY-MM-DDTHH:mm:ss.sssZ], with a
    signed six-digit year outside 0..9999. *)
Definition toISOString (d : Date) : jsstring :=
  let y := year d in
  let yyyy :=
    if (y <? 0)%Z then lit "-" ++ digits 6 (Z.to_N (- y))
    else if (9999 <? y)%Z then lit "+" ++ digits 6 (Z.to_N y)
    else digits 4 (Z.to_N y) in
  yyyy ++ lit "-" ++ digits 2 (month d) ++ lit "-" ++ digits 2 (day d)
  ++ lit "T" ++ digits 2 (hours d) ++ lit ":" ++ digits 2 (minutes d)
  ++ lit ":" ++ digits 2 (seconds d) ++ lit "." ++ digits 3 (milliseconds d)
  ++ lit "Z".

(** ** Values that cross the HTTP boundary *)

(** A parsed response body.  The fields of an object have distinct keys;
    a number matters to the service only through being zero or not. *)
Inductive Json :=
| JNull
| JBool (b : bool)
| JNumber (n : Z)
| JString (s : jsstring)
| JArray (items : list Json)
| JObject (fields : list (jsstring * Json)).

Fixpoint assoc {A} (key : jsstring) (fields : list (jsstring * A)) : option A :=
  match fields with
  | [] => None
  | (k, v) :: rest => if Js.eqb k key then Some v else assoc key rest
  end.

(** [v.key] for one of the names the service reads ([choices], [message],
    [content]); [None] is [undefined]. *)
Definition get_named (key : jsstring) (v : Json) : option Json :=
  match v with
  | JObject fields => assoc key fields
  | _ => None
  end.

(** [v[0]]. *)
Definition get_index0 (v : Json) : option Json :=
  match v with
  | JArray items => hd_error items
  | JString (c :: _) => Some (JString [c])
  | JObject fields => assoc (lit "0") fields
  | _ => None
  end.

(** [v?.p]: [undefined] when [v] is [null] or [undefined]. *)
Definition opt_chain (get : Json -> option Json) (v : option Json) : option Json :=
  match v with
  | None | Some JNull => None
  | Some x => get x
  end.

(** [v ?? d]. *)
Definition nullish (v : option Json) (d : Json) : Json :=
  match v with
  | None | Some JNull => d
  | Some x => x
  end.

(** [!v] on a JSON value. *)
Definition falsy (v : Json) : bool :=
  match v with
  | JNull | JBool false | JNumber 0 | JString [] => true
  | _ => false
  end.

(** What the network did with the one request. *)
Inductive HttpOutcome :=
| HttpTimeout
| HttpNetworkError (detail : jsstring)
| HttpResponse (status : Z) (data : Json).

Inductive Exn :=
| UnauthorizedException (message : jsstring)
| InternalServerErrorException (message : jsstring)
| AxiosError (cause : HttpOutcome)
| TypeError (message : jsstring)
| PrismaClientValidationError
| PrismaClientError.

Record PayloadMessage := mkPayloadMessage {
  p_role : jsstring;
  p_content : jsstring
}.

Record Request := mkRequest {
  rq_url : jsstring;
  rq_model : jsstring;
  rq_messages : list PayloadMessage;
  rq_headers : list (jsstring * jsstring);
  rq_timeout : Z
}.

(** ** The world a request runs in *)

Inductive Event :=
| DbCreateSession (s : ChatSession)
| DbCreateMessage (m : ChatMessage)
| DbDeleteMessages (sessionId : jsstring)
| DbDeleteSession (sessionId : jsstring)
| HttpPost (rq : Request)
| ConsoleError (label : jsstring) (error : Exn).

Record World := mkWorld {
  db : Db;
  trace : list Event
}.

(** What the environment decides during one [sendMessage]: the ids and
    [now()] defaults of the rows Prisma creates, and the fate of the HTTP
    request. *)
Record Env := mkEnv {
  env_sessionId : jsstring;
  env_sessionAt : Z;
  env_userMessageId : jsstring;
  env_userMessageAt : Z;
  env_assistantMessageId : jsstring;
  env_assistantMessageAt : Z;
  env_http : HttpOutcome
}.

Inductive Result (A : Type) :=
| Ok (a : A)
| Throw (e : Exn).
Arguments Ok {A} a.
Arguments Throw {A} e.

(** Awaited code: state passing that may throw; the state survives a
    throw, as nothing of the service runs in a transaction. *)
Definition M (A : Type) := World -> Result A * World.

Definition ret {A} (a : A) : M A := fun w => (Ok a, w).

Definition bind {A B} (m : M A) (k : A -> M B) : M B :=
  fun w =>
    match m w with
    | (Ok a, w') => k a w'
    | (Throw e, w') => (Throw e, w')
    end.

Definition throw {A} (e : Exn) : M A := fun w => (Throw e, w).

Definition try_catch {A} (m : M A) (handler : Exn -> M A) : M A :=
  fun w =>
    match m w with
    | (Ok a, w') => (Ok a, w')
    | (Throw e, w') => handler e w'
    end.

Definition gets {A} (f : Db -> A) : M A := fun w => (Ok (f (db w)), w).

Definition emit (e : Event) : M unit :=
  fun w => (Ok tt, mkWorld (db w) (trace w ++ [e])).

Definition set_db (d : Db) : M unit :=
  fun w => (Ok tt, mkWorld d (trace w)).

Declare Scope chat_scope.
Delimit Scope chat_scope with chat.
Notation "x <- m ;; k" := (bind m (fun x => k))
  (at level 61, m at next level, right associativity) : chat_scope.
Notation "m ;;; k" := (bind m (fun _ => k))
  (at level 61, right associativity) : chat_scope.
Open Scope chat_scope.

(** ** Prisma queries *)

Fixpoint insert_by {A} (le : A -> A -> bool) (x : A) (l : list A) : list A :=
  match l with
  | [] => [x]
  | y :: l' => if le x y then x :: l else y :: insert_by le x l'
  end.

(** [orderBy]: a stable sort, rows with equal keys stay in table order. *)
Fixpoint sort_by {A} (le : A -> A -> bool) (l : list A) : list A :=
  match l with
  | [] => []
  | x :: l' => insert_by le x (sort_by le l')
  end.

Definition asc {A} (key : A -> Z) (a b : A) : bool := (key a <=? key b)%Z.
Definition desc {A} (key : A -> Z) (a b : A) : bool := (key b <=? key a)%Z.

(** The filter [where: { id, userId }] on [chatSession]. *)
Definition ownedRow (userId id : jsstring) (s : ChatSession) : bool :=
  Js.eqb (s_id s) id && Js.eqb (s_userId s) userId.

Module prisma.

(** [chatSession.findFirst({ where: { id, userId } })] *)
Definition chatSession_findFirst (id userId : jsstring) : M (option ChatSession) :=
  gets (fun d => find (ownedRow userId id) (chatSession d)).

(** [chatSession.create({ data: { userId, title } })].  The query engine
    takes text as Unicode: a title in which a surrogate stands alone is
    refused, the promise is rejected with an error of the client and no
    row is written.  [title] is the one text the service cuts itself. *)
Definition chatSession_create (id : jsstring) (now : Z) (userId title : jsstring)
  : M ChatSession :=
  if negb (isWellFormed title) then throw PrismaClientError
  else
    let row := mkChatSession id userId title now now in
    d <- gets (fun d => d) ;;
    set_db (mkDb (chatSession d ++ [row]) (chatMessage d) (document d)) ;;;
    emit (DbCreateSession row) ;;;
    ret row.

(** [chatSession.delete({ where: { id } })] *)
Definition chatSession_delete (id : jsstring) : M unit :=
  d <- gets (fun d => d) ;;
  set_db (mkDb (filter (fun s => negb (Js.eqb (s_id s) id)) (chatSession d))
               (chatMessage d) (document d)) ;;;
  emit (DbDeleteSession id).

(** [chatMessage.create({ data: { sessionId, role, content } })]; the
    column is a string column, so any other value is refused by Prisma's
    validation. *)
Definition chatMessage_create (id : jsstring) (now : Z)
    (sessionId role : jsstring) (content : Json) : M ChatMessage :=
  match content with
  | JString text =>
      let row := mkChatMessage id sessionId role text now in
      d <- gets (fun d => d) ;;
      set_db (mkDb (chatSession d) (chatMessage d ++ [row]) (document d)) ;;;
      emit (DbCreateMessage row) ;;;
      ret row
  | _ => throw PrismaClientValidationError
  end.

(** [chatMessage.findMany({ where: { sessionId }, orderBy: { createdAt:
    'asc' }, take })] *)
Definition chatMessage_findMany (sessionId : jsstring) (take : nat)
  : M (list ChatMessage) :=
  gets (fun d =>
    firstn take
      (sort_by (asc m_createdAt)
         (filter (fun m => Js.eqb (m_sessionId m) sessionId) (chatMessage d)))).

(** [chatMessage.deleteMany({ where: { sessionId } })] *)
Definition chatMessage_deleteMany (sessionId : jsstring) : M unit :=
  d <- gets (fun d => d) ;;
  set_db (mkDb (chatSession d)
               (filter (fun m => negb (Js.eqb (m_sessionId m) sessionId))
                       (chatMessage d))
               (document d)) ;;;
  emit (DbDeleteMessages sessionId).

(** [document.findMany({ where: { id: { in: ids } }, include: { fund } })] *)
Definition document_findMany (ids : list jsstring) : M (list Document) :=
  gets (fun d => filter (fun doc => existsb (Js.eqb (d_id doc)) ids) (document d)).

End prisma.

(** ** The chat service *)

Record Config := mkConfig {
  OPENROUTER_API_KEY : option jsstring;
  OPENROUTER_MODEL : option jsstring
}.

(** The repository holds two revisions of [chat.service.ts]: the first
    stores the provider's reply as it comes, the second rewrites the
    system prompt and passes the reply through the sanitizer. *)
Inductive Revision := Plain | Sanitizing.

Record ChatService := mkChatService {
  openRouterApiKey : jsstring;
  openRouterModel : jsstring;
  revision : Revision
}.

(** The constructor. *)
Definition newChatService (configService : Config) (rev : Revision) : ChatService :=
  mkChatService
    (match OPENROUTER_API_KEY configService with Some k => k | None => [] end)
    (match OPENROUTER_MODEL configService with
     | Some m => m
     | None => lit "openai/gpt-4o-mini"
     end)
    rev.

Record User := mkUser {
  u_id : jsstring;
  u_email : jsstring;
  u_role : jsstring;
  u_name : jsstring
}.

Record SendChatDto := mkSendChatDto {
  message : jsstring;
  sessionId : option jsstring;
  documentIds : option (list jsstring)
}.

Record SessionSummary := mkSessionSummary {
  ls_id : jsstring;
  ls_title : jsstring;
  ls_createdAt : Z;
  ls_updatedAt : Z;
  ls_messages : list jsstring
}.

Record SendResult := mkSendResult {
  r_sessionId : jsstring;
  r_sessionTitle : option jsstring;
  r_userMessage : ChatMessage;
  r_assistantMessage : ChatMessage
}.

Definition listSessions (userId : jsstring) : M (list SessionSummary) :=
  gets (fun d =>
    map (fun s =>
           mkSessionSummary (s_id s) (s_title s) (s_createdAt s) (s_updatedAt s)
             (map m_id
                (filter (fun m => Js.eqb (m_sessionId m) (s_id s)) (chatMessage d))))
        (sort_by (desc s_createdAt)
           (filter (fun s => Js.eqb (s_userId s) userId) (chatSession d)))).

Definition getSession (userId id : jsstring)
  : M (option (ChatSession * list ChatMessage)) :=
  session <- prisma.chatSession_findFirst id userId ;;
  match session with
  | None => ret None
  | Some s =>
      messages <- gets (fun d =>
        sort_by (asc m_createdAt)
          (filter (fun m => Js.eqb (m_sessionId m) (s_id s)) (chatMessage d))) ;;
      ret (Some (s, messages))
  end.

(** [None] is the bare [return], [Some true] is [{ success: true }]. *)
Definition deleteSession (userId id : jsstring) : M (option bool) :=
  session <- prisma.chatSession_findFirst id userId ;;
  match session with
  | None => ret None
  | Some _ =>
      prisma.chatMessage_deleteMany id ;;;
      prisma.chatSession_delete id ;;;
      ret (Some true)
  end.

Definition truthy_opt (s : option jsstring) : bool :=
  match s with Some x => truthy x | None => false end.

(** "Resolve or create chat session": the id the message goes to and the
    title reported back. *)
Definition resolveSession (env : Env) (user : User) (dto : SendChatDto)
  : M (jsstring * option jsstring) :=
  st <- (if truthy_opt (sessionId dto) then
           let sid := match sessionId dto with Some x => x | None => [] end in
           existing <- prisma.chatSession_findFirst sid (u_id user) ;;
           match existing with
           | None => ret (None, None)
           | Some e => ret (sessionId dto, Some (s_title e))
           end
         else ret (sessionId dto, None)) ;;
  let '(sessionId, sessionTitle) := st in
  if negb (truthy_opt sessionId) then
    let sessionTitle := or_else (slice0 80 (message dto)) (lit "New Chat") in
    created <- prisma.chatSession_create (env_sessionId env) (env_sessionAt env)
                 (u_id user) sessionTitle ;;
    ret (s_id created, Some sessionTitle)
  else
    ret (match sessionId with Some x => x | None => [] end, sessionTitle).

Definition fundLabel (doc : Document) : jsstring :=
  match d_fund doc with
  | Some fund => f_name fund ++ lit " (" ++ f_code fund ++ lit ")"
  | None => d_fundId doc
  end.

(** What the template literal has between the two dates, the spaces
    around it apart: the first revision has an en dash (U+2013); the file
    of the second revision has the three characters U+00E2 U+20AC U+201C
    there. *)
Definition periodDash (rev : Revision) : jsstring :=
  match rev with
  | Plain => [8211%N]
  | Sanitizing => [226%N; 8364%N; 8220%N]
  end.

(** One entry of [lines]. *)
Definition renderDocument (rev : Revision) (doc : Document) : jsstring :=
  lit "- Title: " ++ d_title doc ++ lit "
  Fund: " ++ fundLabel doc ++ lit "
  Type: " ++ d_type doc ++ lit "
  Status: " ++ d_status doc ++ lit "
  Period: " ++ toISOString (d_periodStart doc) ++ lit " " ++ periodDash rev
  ++ lit " " ++ toISOString (d_periodEnd doc) ++ lit "
  Description: "
  ++ (match d_description doc with Some t => t | None => lit "n/a" end)
  ++ [LF].

(** "Optionally load document context". *)
Definition documentsContext (rev : Revision) (dto : SendChatDto) : M jsstring :=
  match documentIds dto with
  | Some (id :: ids) =>
      docs <- prisma.document_findMany (id :: ids) ;;
      match docs with
      | [] => ret []
      | _ :: _ =>
          let lines := map (renderDocument rev) docs in
          ret (lit "The user has selected the following compliance documents to discuss:"
               ++ [LF] ++ join [LF] lines ++ [LF]
               ++ lit "Use ONLY this information plus the conversation history to answer questions, and clearly say when information is not available in these documents.")
      end
  | _ => ret []
  end.

Definition systemPrompt (rev : Revision) : jsstring :=
  match rev with
  | Plain => lit "You are an AI assistant helping with investment fund compliance documents inside an internal tool called Audit Vault.
- Be precise and conservative: never invent document contents.
- When asked about compliance, base your answers ONLY on the provided document metadata and user messages.
- If something is unclear or not in the data, explicitly say what is missing."
  | Sanitizing => lit "You are an AI assistant helping with investment fund compliance documents inside an internal tool called Audit Vault.
Write responses in clear plain text without markdown formatting (no asterisks, headings, or bullet syntax).
Be concise and structured using short paragraphs.
Be precise and conservative: never invent document contents.
When asked about compliance, base your answers ONLY on the provided document metadata and user messages.
If something is unclear or not in the data, explicitly say what is missing."
  end.

Definition forwardMessage (m : ChatMessage) : PayloadMessage :=
  mkPayloadMessage
    (if Js.eqb (m_role m) (lit "assistant") then lit "assistant" else lit "user")
    (m_content m).

Definition messagesPayload (rev : Revision) (documentsContext : jsstring)
    (recentMessages : list ChatMessage) : list PayloadMessage :=
  [mkPayloadMessage (lit "system") (systemPrompt rev)]
  ++ (if truthy documentsContext
      then [mkPayloadMessage (lit "system") documentsContext]
      else [])
  ++ map forwardMessage recentMessages.

Definition chatRequest (svc : ChatService) (messages : list PayloadMessage) : Request :=
  mkRequest (lit "https://openrouter.ai/api/v1/chat/completions")
    (openRouterModel svc) messages
    [(lit "Authorization", lit "Bearer " ++ openRouterApiKey svc);
     (lit "Content-Type", lit "application/json");
     (lit "HTTP-Referer", lit "http://localhost:3001");
     (lit "X-Title", lit "Audit Vault Chat")]
    30000.

(** [axios.post]: the request goes out; the promise is fulfilled with the
    body of a 2xx response and rejected otherwise (timeout, transport
    error, any other status). *)
Definition axios_post (env : Env) (rq : Request) : M Json :=
  emit (HttpPost rq) ;;;
  match env_http env with
  | HttpResponse status data =>
      if ((200 <=? status) && (status <? 300))%Z then ret data
      else throw (AxiosError (env_http env))
  | other => throw (AxiosError other)
  end.

(** [response.data?.choices?.[0]?.message?.content ?? '...'] *)
Definition replyContent (data : Json) : Json :=
  nullish
    (opt_chain (get_named (lit "content"))
       (opt_chain (get_named (lit "message"))
          (opt_chain get_index0
             (opt_chain (get_named (lit "choices")) (Some data)))))
    (JString (lit "Sorry, I could not generate a response.")).

(** The call [this.sanitizeAssistantContent(raw)] on whatever the
    provider sent: a falsy value is returned as it is, a string is
    cleaned, and anything else has no [replace] method. *)
Definition sanitizeReply (raw : Json) : M Json :=
  if falsy raw then ret raw
  else
    match raw with
    | JString text => ret (JString (sanitizeAssistantContent text))
    | _ => throw (TypeError (lit "content.replace is not a function"))
    end.

Definition assistantContent (rev : Revision) (raw : Json) : M Json :=
  match rev with
  | Plain => ret raw
  | Sanitizing => sanitizeReply raw
  end.

(** The [try { ... } catch (error) { ... }] block at the end of
    [sendMessage]. *)
Definition askProvider (svc : ChatService) (env : Env) (sessionId : jsstring)
    (sessionTitle : option jsstring) (userMessage : ChatMessage)
    (payload : list PayloadMessage) : M SendResult :=
  try_catch
    (data <- axios_post env (chatRequest svc payload) ;;
     content <- assistantContent (revision svc) (replyContent data) ;;
     assistantMessage <- prisma.chatMessage_create (env_assistantMessageId env)
                           (env_assistantMessageAt env) sessionId
                           (lit "assistant") content ;;
     ret (mkSendResult sessionId sessionTitle userMessage assistantMessage))
    (fun error =>
       emit (ConsoleError (lit "OpenRouter chat error") error) ;;;
       throw (InternalServerErrorException
                (lit "Failed to get a response from the AI assistant. Please try again later."))).

Definition sendMessage (svc : ChatService) (env : Env) (user : User)
    (dto : SendChatDto) : M SendResult :=
  if negb (truthy (openRouterApiKey svc)) then
    throw (UnauthorizedException
             (lit "OpenRouter API key is not configured on the server"))
  else
    session <- resolveSession env user dto ;;
    let '(sessionId, sessionTitle) := session in
    userMessage <- prisma.chatMessage_create (env_userMessageId env)
                     (env_userMessageAt env) sessionId (lit "user")
                     (JString (message dto)) ;;
    recentMessages <- prisma.chatMessage_findMany sessionId 20 ;;
    context <- documentsContext (revision svc) dto ;;
    let payload := messagesPayload (revision svc) context recentMessages in
    askProvider svc env sessionId sessionTitle userMessage payload.

(** ** Reading the outcome of a run *)

Definition outcome {A} (m : M A) (w : World) : Result A := fst (m w).
Definition final {A} (m : M A) (w : World) : World := snd (m w).

(** The requests among a list of events, in order. *)
Fixpoint requests (t : list Event) : list Request :=
  match t with
  | [] => []
  | HttpPost rq :: t' => rq :: requests t'
  | _ :: t' => requests t'
  end.

(** The events a run added to the trace. *)
Definition newEvents {A} (m : M A) (w : World) : list Event :=
  skipn (length (trace w)) (trace (final m w)).


(** The rows of one session, in table order. *)
Definition messagesOf (sid : jsstring) (d : Db) : list ChatMessage :=
  filter (fun m => Js.eqb (m_sessionId m) sid) (chatMessage d).

(** Primary key of [chatSession]. *)
Definition unique_session_ids (d : Db) : Prop := NoDup (map s_id (chatSession d)).

(** The id Prisma generates for a new session is one that no row carries
    yet. *)
Definition fresh_session_id (env : Env) (d : Db) : Prop :=
  ~ In (env_sessionId env) (map s_id (chatSession d)).

(** The session of [dto.sessionId] when the caller owns it. *)
Definition ownedSession (d : Db) (user : User) (dto : SendChatDto)
  : option ChatSession :=
  match sessionId dto with
  | Some sid =>
      if truthy sid then find (ownedRow (u_id user) sid) (chatSession d)
      else None
  | None => None
  end.

(** The row [resolveSession] creates. *)
Definition newTitle (dto : SendChatDto) : jsstring :=
  or_else (slice0 80 (message dto)) (lit "New Chat").

Definition newSession (env : Env) (user : User) (dto : SendChatDto) : ChatSession :=
  mkChatSession (env_sessionId env) (u_id user) (newTitle dto)
    (env_sessionAt env) (env_sessionAt env).

(** The request gets past "Resolve or create chat session": it names a
    session of the caller, or the title of the session to create is one
    that [chatSession.create] takes. *)
Definition sessionAccepted (d : Db) (user : User) (dto : SendChatDto) : bool :=
  match ownedSession d user dto with
  | Some _ => true
  | None => isWellFormed (newTitle dto)
  end.


(** The rows [document.findMany] returns for the ids of the request. *)
Definition matchedDocuments (dto : SendChatDto) (d : Db) : list Document :=
  match documentIds dto with
  | Some ids => filter (fun doc => existsb (Js.eqb (d_id doc)) ids) (document d)
  | None => []
  end.

Definition contextHeader : jsstring :=
  lit "The user has selected the following compliance documents to discuss:".

Definition contextFooter : jsstring :=
  lit "Use ONLY this information plus the conversation history to answer questions, and clearly say when information is not available in these documents.".

(** The text of the secondary system message for a non-empty result. *)
Definition contextBlock (rev : Revision) (docs : list Document) : jsstring :=
  contextHeader ++ [LF] ++ join [LF] (map (renderDocument rev) docs) ++ [LF]
  ++ contextFooter.

(** The history query of [sendMessage] on a database. *)
Definition recentMessagesOf (sid : jsstring) (d : Db) : list ChatMessage :=
  firstn 20 (sort_by (asc m_createdAt) (messagesOf sid d)).

(** What the [try] block has in hand when it is about to store the
    reply: the text, or the exception that reaches [catch]. *)
Definition providerReply (rev : Revision) (env : Env) : Result jsstring :=
  match env_http env with
  | HttpResponse status data =>
      if ((200 <=? status) && (status <? 300))%Z then
        match replyContent data with
        | JString text =>
            Ok (match rev with
                | Plain => text
                | Sanitizing => sanitizeAssistantContent text
                end)
        | v =>
            match rev with
            | Plain => Throw PrismaClientValidationError
            | Sanitizing =>
                if falsy v then Throw PrismaClientValidationError
                else Throw (TypeError (lit "content.replace is not a function"))
            end
        end
      else Throw (AxiosError (env_http env))
  | other => Throw (AxiosError other)
  end.

Definition userRow (env : Env) (sid : jsstring) (dto : SendChatDto) : ChatMessage :=
  mkChatMessage (env_userMessageId env) sid (lit "user") (message dto)
    (env_userMessageAt env).

Definition assistantRow (env : Env) (sid text : jsstring) : ChatMessage :=
  mkChatMessage (env_assistantMessageId env) sid (lit "assistant") text
    (env_assistantMessageAt env).

Definition addMessage (m : ChatMessage) (d : Db) : Db :=
  mkDb (chatSession d) (chatMessage d ++ [m]) (document d).

Definition addSession (s : ChatSession) (d : Db) : Db :=
  mkDb (chatSession d ++ [s]) (chatMessage d) (document d).

Definition genericFailure : Exn :=
  InternalServerErrorException
    (lit "Failed to get a response from the AI assistant. Please try again later.").

Definition missingKey : Exn :=
  UnauthorizedException (lit "OpenRouter API key is not configured on the server").

(** The session the message goes to, its reported title, and the world
    once the session is resolved. *)
Definition targetSession (env : Env) (user : User) (dto : SendChatDto) (d : Db)
  : jsstring :=
  match ownedSession d user dto with
  | Some e => s_id e
  | None => env_sessionId env
  end.

Definition targetTitle (user : User) (dto : SendChatDto) (d : Db) : option jsstring :=
  match ownedSession d user dto with
  | Some e => Some (s_title e)
  | None => Some (newTitle dto)
  end.

Definition afterResolve (env : Env) (user : User) (dto : SendChatDto) (w : World)
  : World :=
  match ownedSession (db w) user dto with
  | Some _ => w
  | None =>
      mkWorld (addSession (newSession env user dto) (db w))
              (trace w ++ [DbCreateSession (newSession env user dto)])
  end.

(** The world at the moment the HTTP request is issued. *)
Definition beforeCall (env : Env) (user : User) (dto : SendChatDto) (w : World)
  : World :=
  let w1 := afterResolve env user dto w in
  let um := userRow env (targetSession env user dto (db w)) dto in
  mkWorld (addMessage um (db w1)) (trace w1 ++ [DbCreateMessage um]).

Definition contextOf (rev : Revision) (dto : SendChatDto) (d : Db) : jsstring :=
  match matchedDocuments dto d with
  | [] => []
  | docs => contextBlock rev docs
  end.

(** The [messages] array of the request body. *)
Definition payloadOf (svc : ChatService) (env : Env) (user : User)
    (dto : SendChatDto) (w : World) : list PayloadMessage :=
  let w2 := beforeCall env user dto w in
  messagesPayload (revision svc) (contextOf (revision svc) dto (db w2))
    (recentMessagesOf (targetSession env user dto (db w)) (db w2)).

(** ** Reference notions used to state the properties *)



(** Every row with id [sid] belongs to someone else than [userId]. *)
Definition foreignId (sid userId : jsstring) (d : Db) : Prop :=
  forall x, In x (chatSession d) -> s_id x = sid -> s_userId x <> userId.




(** Reading a date back from [YYYY-MM-DDTHH:mm:ss.sssZ]: the text has
    exactly this shape, with decimal digits in the place of the
    letters. *)
Definition isDigit (c : char) : bool := N.leb 48 c && N.leb c 57.

Definition readDigits (s : jsstring) : option N :=
  if forallb isDigit s
  then Some (fold_left (fun acc c => (10 * acc + (c - 48))%N) s 0%N)
  else None.

Definition parseISO (s : jsstring) : option Date :=
  match s with
  | [y1; y2; y3; y4; h1; m1; m2; h2; d1; d2; t; hh1; hh2; c1; mi1; mi2; c2;
     s1; s2; p; f1; f2; f3; z] =>
      if N.eqb h1 45 && N.eqb h2 45 && N.eqb t 84 && N.eqb c1 58 && N.eqb c2 58
         && N.eqb p 46 && N.eqb z 90
      then
        match readDigits [y1; y2; y3; y4], readDigits [m1; m2], readDigits [d1; d2],
              readDigits [hh1; hh2], readDigits [mi1; mi2], readDigits [s1; s2],
              readDigits [f1; f2; f3] with
        | Some y, Some mo, Some d, Some h, Some mi, Some sec, Some ms =>
            Some (mkDate (Z.of_N y) mo d h mi sec ms)
        | _, _, _, _, _, _, _ => None
        end
      else None
  | _ => None
  end.

(** A date whose fields are those of a calendar date of the years 0 to
    9999. *)
Definition calendarDate (d : Date) : Prop :=
  (0 <= year d <= 9999)%Z /\ (1 <= month d <= 12)%N /\ (1 <= day d <= 31)%N /\
  (hours d <= 23)%N /\ (minutes d <= 59)%N /\ (seconds d <= 59)%N /\
  (milliseconds d <= 999)%N.

(** [x] occurs in [s] as a contiguous piece. *)
Definition occursIn (x s : jsstring) : Prop := exists a b, s = a ++ x ++ b.

(** The title as the specification words it: the first 80 characters of
    the trimmed message, or "New Chat" when nothing is left. *)
Definition specTitle (msg : jsstring) : jsstring :=
  or_else (slice0 80 (trim msg)) (lit "New Chat").

(** The window the specification words: the last [n] rows in ascending
    creation order. *)
Definition mostRecent (n : nat) (rows : list ChatMessage) : list ChatMessage :=
  let sorted := sort_by (asc m_createdAt) rows in
  skipn (length sorted - n) sorted.

(** Row [a] was created no later than row [b]. *)
Definition notAfter (a b : ChatMessage) : Prop := (m_createdAt a <= m_createdAt b)%Z.

(** Failures of the transport: no response, or a status outside 2xx. *)
Definition transportFailure (h : HttpOutcome) : bool :=
  match h with
  | HttpTimeout | HttpNetworkError _ => true
  | HttpResponse status _ => negb ((200 <=? status) && (status <? 300))%Z
  end.

(** A 2xx response whose body does not have the shape of a completion:
    [choices[0].message.content] is missing or null. *)
Definition malformedResponse (h : HttpOutcome) : bool :=
  match h with
  | HttpResponse status data =>
      ((200 <=? status) && (status <? 300))%Z &&
      match opt_chain (get_named (lit "content"))
              (opt_chain (get_named (lit "message"))
                 (opt_chain get_index0
                    (opt_chain (get_named (lit "choices")) (Some data)))) with
      | None | Some JNull => true
      | Some _ => false
      end
  | _ => false
  end.

(** An [m] occurs in [s] before any line terminator. *)
Fixpoint reaches (m : char) (s : jsstring) : bool :=
  match s with
  | [] => false
  | c :: t => N.eqb c m || (negb (isLineTerminator c) && reaches m t)
  end.

(** [s] starts with a marker [m] that is closed further on the same
    line, with at least one character in between. *)
Definition opensPair (m : char) (s : jsstring) : bool :=
  match s with
  | c :: d :: t => N.eqb c m && negb (isLineTerminator d) && reaches m t
  | _ => false
  end.

(** Somewhere in [s] two markers [m] stand on one line with at least one
    character between them: the text the emphasis patterns take. *)
Fixpoint hasPair (m : char) (s : jsstring) : bool :=
  match s with
  | [] => false
  | _ :: t => opensPair m s || hasPair m t
  end.

(** The line starts, after optional white space, with one to six [#]
    and then a white-space character. *)
Definition headingStart (line : jsstring) : bool :=
  let r := dropWhile isSpace line in
  let k := run (N.eqb hash) r in
  (1 <=? k) && (k <=? 6) &&
  match skipn k r with
  | c :: _ => isSpace c
  | [] => false
  end.

(** The line starts, after optional white space, with [-] and then a
    white-space character. *)
Definition dashStart (line : jsstring) : bool :=
  match dropWhile isSpace line with
  | c :: d :: _ => N.eqb c dash && isSpace d
  | _ => false
  end.

Definition blockStart (line : jsstring) : bool :=
  headingStart line || dashStart line.

(** Some line of [s] starts with a heading or list marker. *)
Definition hasBlockMarker (s : jsstring) : bool :=
  existsb blockStart (split_lines s).

(** What a successful match says about the text: every atom took a
    piece made of characters of its class, within its bounds, and the
    pieces followed by the rest are the input. *)
Inductive pieces : list Atom -> list jsstring -> Prop :=
| pieces_nil : pieces [] []
| pieces_cons a re p ps :
    Forall (fun c => cls a c = true) p ->
    lo a <= length p ->
    (forall h, hi a = Some h -> length p <= h) ->
    pieces re ps ->
    pieces (a :: re) (p :: ps).

(** ** Sample data *)

Module Sample.

Definition alice : User :=
  mkUser (lit "u-alice") (lit "alice@funds.com") (lit "ADMIN") (lit "Alice").

Definition bob : User :=
  mkUser (lit "u-bob") (lit "bob@funds.com") (lit "FUND_MANAGER") (lit "Bob").

Definition svc (rev : Revision) : ChatService :=
  newChatService (mkConfig (Some (lit "sk-or-test")) None) rev.

Definition okBody (text : jsstring) : Json :=
  JObject [(lit "choices",
            JArray [JObject [(lit "message",
                              JObject [(lit "role", JString (lit "assistant"));
                                       (lit "content", JString text)])]])].

Definition env (h : HttpOutcome) : Env :=
  mkEnv (lit "s-new") 100 (lit "m-user") 101 (lit "m-assistant") 102 h.

Definition aliceSession : ChatSession :=
  mkChatSession (lit "s-alice") (lit "u-alice") (lit "Q3 filings") 1 1.

Definition bobSession : ChatSession :=
  mkChatSession (lit "s-bob") (lit "u-bob") (lit "Bob's notes") 2 2.

(** [n] stored turns of a session, created at times [1..n], alternating
    between the user and the assistant. *)
Definition turns (sid : jsstring) (n : nat) : list ChatMessage :=
  map (fun i =>
         mkChatMessage (lit "m" ++ digits 2 (N.of_nat i)) sid
           (if Nat.even i then lit "assistant" else lit "user")
           (lit "turn " ++ digits 2 (N.of_nat i)) (Z.of_nat i))
      (seq 1 n).

Definition docA : Document :=
  mkDocument (lit "docA") (lit "Q3 Report") (lit "fund-1")
    (Some (mkFund (lit "Alpha Fund") (lit "ALF"))) (lit "QUARTERLY_REPORT")
    (lit "APPROVED") (mkDate 2025 7 1 0 0 0 0) (mkDate 2025 9 30 23 59 59 999)
    None.

Definition store (n : nat) : Db :=
  mkDb [aliceSession; bobSession]
       (turns (lit "s-alice") n ++ turns (lit "s-bob") 2) [docA].

Definition world (n : nat) : World := mkWorld (store n) [].

Definition emptyWorld : World := mkWorld (mkDb [] [] []) [].

End Sample.

(** * Further notions

    Definitions for the further properties of the service and for the
    chat page that calls it. *)

From Stdlib Require Import Permutation.

(** The row [listSessions] reports for a session. *)
Definition summaryOf (d : Db) (s : ChatSession) : SessionSummary :=
  mkSessionSummary (s_id s) (s_title s) (s_createdAt s) (s_updatedAt s)
    (map m_id (messagesOf (s_id s) d)).

(** The sessions of a user, in table order. *)
Definition sessionsOf (userId : jsstring) (d : Db) : list ChatSession :=
  filter (fun s => Js.eqb (s_userId s) userId) (chatSession d).

(** Summary [a] is listed before [b] only if it is not older. *)
Definition notOlder (a b : SessionSummary) : Prop := (ls_createdAt b <= ls_createdAt a)%Z.

Definition isDelete (e : Event) : bool :=
  match e with
  | DbDeleteMessages _ | DbDeleteSession _ => true
  | _ => false
  end.

(** What is stored as the assistant's reply for the text the provider
    sent. *)
Definition storedReply (rev : Revision) (raw : jsstring) : jsstring :=
  match rev with
  | Plain => raw
  | Sanitizing => sanitizeAssistantContent raw
  end.

(** [a] can be obtained from [b] by deleting characters. *)
Inductive Subseq : jsstring -> jsstring -> Prop :=
| Subseq_nil : Subseq [] []
| Subseq_keep c a b : Subseq a b -> Subseq (c :: a) (c :: b)
| Subseq_drop c a b : Subseq a b -> Subseq a (c :: b).

(** A character that is no emphasis marker and no line terminator. *)
Definition plainChar (c : char) : bool :=
  negb (N.eqb c star) && negb (N.eqb c underscore) && negb (isLineTerminator c).

(** Plain text: a non-empty single line without asterisks and
    underscores, without white space at either end, that does not start
    with a heading or list marker. *)
Definition plainText (t : jsstring) : bool :=
  truthy t && forallb plainChar t && Js.eqb (trim t) t && negb (blockStart t).

(** White space that stays on the line. *)
Definition blank (c : char) : bool := isSpace c && negb (isLineTerminator c).

(** * The chat page

    [frontend/src/app/(dashboard)/chat/page.tsx], the caller of the chat
    endpoints.  The component's state is a record; each handler is a
    function from the state it starts in, and from what the browser and
    the server answer, to the state it leaves and the effects it had.  A
    handler is followed from its first to its last statement with no
    other event in between, so the values captured by its closure are
    those of the state it starts in. *)

From Stdlib Require DecimalString.

Module ChatPage.

Record ChatMessage := mkChatMessage {
  cm_id : jsstring;
  cm_role : jsstring;
  cm_content : jsstring;
  cm_createdAt : jsstring
}.

Record State := mkState {
  currentSessionId : option jsstring;
  messages : list ChatMessage;
  input : jsstring;
  isSending : bool;
  docModalOpen : bool;
  selectedDocIds : list jsstring
}.

(** The body of [POST /chat/send]. *)
Record SendBody := mkSendBody {
  b_sessionId : option jsstring;
  b_message : jsstring;
  b_documentIds : list jsstring
}.

Inductive Effect :=
| ApiPost (url : jsstring) (body : SendBody)
| ApiGet (url : jsstring)
| ApiDelete (url : jsstring)
| RefetchSessions
| ToastError (shown : Json)
| ToastSuccess (shown : jsstring)
| StorageSet (key : jsstring) (ids : list jsstring).

(** What [api.post] gives back: the fields of [data] the handler reads,
    or the [response.data] of the error when there is a response. *)
Inductive PostAnswer :=
| PostOk (sessionId : jsstring) (assistantMessage : ChatMessage)
| PostError (responseData : option Json).

(** What [api.get] of one session gives back: [data.id] and
    [data.messages], either of which may be undefined. *)
Inductive GetAnswer :=
| GetOk (id : option jsstring) (messages : option (list ChatMessage))
| GetError.

(** What the browser supplies during [handleSend]. *)
Record Browser := mkBrowser {
  dateNow : N;
  newDate : Date;
  answer : PostAnswer
}.

(** [arr.includes(x)] on strings. *)
Definition includes (x : jsstring) (arr : list jsstring) : bool :=
  existsb (Js.eqb x) arr.

(** The number as a template literal prints it. *)
Definition decimal (n : N) : jsstring :=
  lit (DecimalString.NilZero.string_of_uint (N.to_uint n)).

Definition setSelectedDocIds (ids : list jsstring) (st : State) : State :=
  mkState (currentSessionId st) (messages st) (input st) (isSending st)
    (docModalOpen st) ids.

Definition setMessages (f : list ChatMessage -> list ChatMessage) (st : State)
  : State :=
  mkState (currentSessionId st) (f (messages st)) (input st) (isSending st)
    (docModalOpen st) (selectedDocIds st).

Definition setCurrentSessionId (id : option jsstring) (st : State) : State :=
  mkState id (messages st) (input st) (isSending st) (docModalOpen st)
    (selectedDocIds st).

Definition setInput (text : jsstring) (st : State) : State :=
  mkState (currentSessionId st) (messages st) text (isSending st)
    (docModalOpen st) (selectedDocIds st).

Definition setIsSending (b : bool) (st : State) : State :=
  mkState (currentSessionId st) (messages st) (input st) b (docModalOpen st)
    (selectedDocIds st).

Definition setDocModalOpen (b : bool) (st : State) : State :=
  mkState (currentSessionId st) (messages st) (input st) (isSending st) b
    (selectedDocIds st).

Definition toggleDocSelection (id : jsstring) (st : State) : State * list Effect :=
  let prev := selectedDocIds st in
  let exists_ := includes id prev in
  let updated :=
    if exists_ then filter (fun d => negb (Js.eqb d id)) prev else prev ++ [id] in
  (setSelectedDocIds updated st, [StorageSet (lit "chatSelectedDocs") updated]).

Definition saveDocSelection (st : State) : State * list Effect :=
  (setDocModalOpen false st,
   [StorageSet (lit "chatSelectedDocs") (selectedDocIds st);
    ToastSuccess (lit "Updated referenced documents for chat")]).

Definition removeDoc (id : jsstring) (st : State) : State * list Effect :=
  let prev := selectedDocIds st in
  let updated := filter (fun d => negb (Js.eqb d id)) prev in
  (setSelectedDocIds updated st, [StorageSet (lit "chatSelectedDocs") updated]).

(** The mapping [loadSession] applies to each message it receives. *)
Definition shown (m : ChatMessage) : ChatMessage :=
  mkChatMessage (cm_id m)
    (if Js.eqb (cm_role m) (lit "assistant") then lit "assistant" else lit "user")
    (cm_content m) (cm_createdAt m).

Definition loadSession (id : jsstring) (got : GetAnswer) (st : State)
  : State * list Effect :=
  let url := lit "/chat/sessions/" ++ id in
  match got with
  | GetOk dataId dataMessages =>
      let st := setCurrentSessionId dataId st in
      let st :=
        setMessages
          (fun _ => map shown (match dataMessages with Some ms => ms | None => [] end))
          st in
      (st, [ApiGet url])
  | GetError =>
      (st, [ApiGet url; ToastError (JString (lit "Failed to load chat session"))])
  end.

(** [deleted] tells whether [api.delete] resolved. *)
Definition deleteSession (id : jsstring) (deleted : bool) (st : State)
  : State * list Effect :=
  let url := lit "/chat/sessions/" ++ id in
  if deleted then
    let st' :=
      match currentSessionId st with
      | Some current =>
          if Js.eqb current id
          then setMessages (fun _ => []) (setCurrentSessionId None st)
          else st
      | None => st
      end in
    (st', [ApiDelete url; RefetchSessions])
  else
    (st, [ApiDelete url; ToastError (JString (lit "Failed to delete chat session"))]).

(** [err?.response?.data?.message || "Failed to send message to AI
    assistant"] *)
Definition sendErrorText (responseData : option Json) : Json :=
  match opt_chain (get_named (lit "message")) responseData with
  | Some v => if falsy v then JString (lit "Failed to send message to AI assistant") else v
  | None => JString (lit "Failed to send message to AI assistant")
  end.

Definition handleSend (browser : Browser) (st : State) : State * list Effect :=
  if negb (truthy (trim (input st))) then (st, [])
  else
    let currentSessionId0 := currentSessionId st in
    let selectedDocIds0 := selectedDocIds st in
    let st := setIsSending true st in
    let userContent := trim (input st) in
    let st := setInput [] st in
    let tempId := lit "temp-" ++ decimal (dateNow browser) in
    let st :=
      setMessages
        (fun prev =>
           prev ++ [mkChatMessage tempId (lit "user") userContent
                      (toISOString (newDate browser))])
        st in
    let post :=
      ApiPost (lit "/chat/send")
        (mkSendBody currentSessionId0 userContent selectedDocIds0) in
    match answer browser with
    | PostOk dataSessionId assistantMessage =>
        let st :=
          if negb (truthy_opt currentSessionId0)
          then setCurrentSessionId (Some dataSessionId) st
          else st in
        let st :=
          setMessages
            (fun prev =>
               prev ++ [mkChatMessage (cm_id assistantMessage) (lit "assistant")
                          (cm_content assistantMessage)
                          (cm_createdAt assistantMessage)])
            st in
        (setIsSending false st, [post; RefetchSessions])
    | PostError responseData =>
        let st :=
          setMessages (filter (fun m => negb (Js.eqb (cm_id m) tempId))) st in
        (setIsSending false st, [post; ToastError (sendErrorText responseData)])
    end.

(** A document as the page reads it. *)
Record Doc := mkDoc {
  doc_id : jsstring;
  doc_status : jsstring
}.

Record Stats := mkStats {
  totalDocs : nat;
  pending : nat;
  approved : nat;
  rejected : nat
}.

Definition countStatus (status : jsstring) (docs : list Doc) : nat :=
  length (filter (fun d => Js.eqb (doc_status d) status) docs).

(** The [stats] memo; [None] is [allDocuments] still undefined. *)
Definition stats (allDocuments : option (list Doc)) : Stats :=
  match allDocuments with
  | None => mkStats 0 0 0 0
  | Some docs =>
      mkStats (length docs) (countStatus (lit "PENDING") docs)
        (countStatus (lit "APPROVED") docs) (countStatus (lit "REJECTED") docs)
  end.

(** The [selectedDocs] memo. *)
Definition selectedDocs (allDocuments : option (list Doc))
    (selected : list jsstring) : list Doc :=
  filter (fun d => includes (doc_id d) selected)
    (match allDocuments with Some docs => docs | None => [] end).

(** The request of the service that a posted body becomes. *)
Definition dtoOf (body : SendBody) : SendChatDto :=
  mkSendChatDto (b_message body) (b_sessionId body) (Some (b_documentIds body)).

(** The bodies posted among the effects. *)
Fixpoint posted (effects : list Effect) : list SendBody :=
  match effects with
  | [] => []
  | ApiPost _ body :: rest => body :: posted rest
  | _ :: rest => posted rest
  end.

End ChatPage.
(** * Properties *)

Unset Implicit Arguments.

Arguments lit : simpl never.
Arguments systemPrompt : simpl never.
Arguments chatRequest : simpl never.
Arguments renderDocument : simpl never.
Arguments sanitizeAssistantContent : simpl never.

(** ** Strings *)

Lemma eqb_eq (a b : jsstring) : Js.eqb a b = true <-> a = b.
Proof.
  revert b; induction a as [|x a IH]; intros [|y b]; simpl; split;
    try discriminate; try reflexivity.
  - intros H. apply andb_true_iff in H as [Hx Hab].
    apply N.eqb_eq in Hx. apply IH in Hab. now subst.
  - intros H. injection H as -> ->. rewrite N.eqb_refl. simpl. now apply IH.
Qed.

Lemma eqb_refl (a : jsstring) : Js.eqb a a = true.
Proof. now apply eqb_eq. Qed.

Lemma eqb_neq (a b : jsstring) : Js.eqb a b = false <-> a <> b.
Proof.
  split.
  - intros H E. apply eqb_eq in E. congruence.
  - intros H. destruct (Js.eqb a b) eqn:E; [apply eqb_eq in E; contradiction | reflexivity].
Qed.

(** ** Lists and [orderBy] *)

Lemma in_sort_by {A} (le : A -> A -> bool) x l : In x (sort_by le l) <-> In x l.
Proof.
  assert (I : forall y l', In x (insert_by le y l') <-> x = y \/ In x l').
  { intros y l'. induction l' as [|z l' IH]; simpl.
    - intuition.
    - destruct (le y z); simpl; [intuition | rewrite IH; intuition]. }
  induction l as [|y l IH]; simpl; [tauto|].
  rewrite I, IH. intuition.
Qed.

Lemma in_firstn {A} n (l : list A) x : In x (firstn n l) -> In x l.
Proof.
  intros H. rewrite <- (firstn_skipn n l). apply in_or_app. now left.
Qed.

(** ** Session resolution *)

Lemma ownedRow_true userId id s :
  ownedRow userId id s = true <-> s_id s = id /\ s_userId s = userId.
Proof. unfold ownedRow. rewrite andb_true_iff, !eqb_eq. tauto. Qed.

Lemma find_owned_some userId id l :
  (exists s, In s l /\ s_id s = id /\ s_userId s = userId) ->
  exists e, find (ownedRow userId id) l = Some e /\ In e l /\
            s_id e = id /\ s_userId e = userId.
Proof.
  intros (s & Hin & Hid & Hu).
  destruct (find (ownedRow userId id) l) as [e|] eqn:F.
  - exists e. apply find_some in F as [Hin' H]. apply ownedRow_true in H. tauto.
  - exfalso. apply (find_none _ _ F) in Hin.
    assert (ownedRow userId id s = true) by now apply ownedRow_true.
    congruence.
Qed.

Lemma find_owned_none userId id l :
  (forall s, In s l -> s_id s = id -> s_userId s <> userId) ->
  find (ownedRow userId id) l = None.
Proof.
  intros H. destruct (find (ownedRow userId id) l) as [e|] eqn:F; [|reflexivity].
  apply find_some in F as [Hin F]. apply ownedRow_true in F as [Hid Hu].
  exfalso. exact (H e Hin Hid Hu).
Qed.

Lemma resolveSession_owned env user dto w e :
  ownedSession (db w) user dto = Some e ->
  resolveSession env user dto w = (Ok (s_id e, Some (s_title e)), w).
Proof.
  unfold ownedSession, resolveSession, bind, prisma.chatSession_findFirst, gets.
  destruct (sessionId dto) as [sid|] eqn:Hs; simpl; [|discriminate].
  destruct (truthy sid) eqn:Ht; [|discriminate].
  intros Hf. rewrite Hf. simpl. rewrite Ht. simpl.
  apply find_some in Hf as [_ Hf]. apply andb_true_iff in Hf as [Hid _].
  apply eqb_eq in Hid. now rewrite Hid.
Qed.

Lemma resolveSession_new env user dto w :
  ownedSession (db w) user dto = None ->
  isWellFormed (newTitle dto) = true ->
  resolveSession env user dto w =
    (Ok (env_sessionId env, Some (newTitle dto)),
     mkWorld (addSession (newSession env user dto) (db w))
             (trace w ++ [DbCreateSession (newSession env user dto)])).
Proof.
  unfold ownedSession, resolveSession, prisma.chatSession_create.
  fold (newTitle dto). intros Ho Hwf. rewrite Hwf. cbn [negb].
  unfold bind, prisma.chatSession_findFirst, gets, set_db, emit, ret.
  destruct (sessionId dto) as [sid|] eqn:Hs; cbn [truthy_opt].
  - destruct (truthy sid) eqn:Ht; cbn [fst snd].
    + rewrite Ho. cbn [truthy_opt negb]. reflexivity.
    + cbn [truthy_opt]. rewrite Ht. reflexivity.
  - reflexivity.
Qed.

(** A title in which a surrogate stands alone: the create is refused and
    nothing has happened. *)
Lemma resolveSession_refused env user dto w :
  ownedSession (db w) user dto = None ->
  isWellFormed (newTitle dto) = false ->
  resolveSession env user dto w = (Throw PrismaClientError, w).
Proof.
  unfold ownedSession, resolveSession, prisma.chatSession_create.
  fold (newTitle dto). intros Ho Hwf. rewrite Hwf. cbn [negb].
  unfold bind, prisma.chatSession_findFirst, gets, throw, ret.
  destruct (sessionId dto) as [sid|] eqn:Hs; cbn [truthy_opt].
  - destruct (truthy sid) eqn:Ht; cbn [fst snd].
    + rewrite Ho. cbn [truthy_opt negb]. reflexivity.
    + cbn [truthy_opt]. rewrite Ht. reflexivity.
  - reflexivity.
Qed.

(** ** The document context *)

Lemma documentsContext_run rev dto w :
  documentsContext rev dto w =
    (Ok (match matchedDocuments dto (db w) with
         | [] => []
         | docs => contextBlock rev docs
         end), w).
Proof.
  unfold documentsContext, matchedDocuments, prisma.document_findMany, bind, gets, ret.
  destruct (documentIds dto) as [[|id ids]|]; try reflexivity.
  - simpl existsb.
    replace (filter (fun _ => false) (document (db w))) with (@nil Document);
      [reflexivity|].
    induction (document (db w)); simpl; auto.
  - simpl fst. cbv beta iota.
    destruct (filter _ (document (db w))); reflexivity.
Qed.

(** ** The provider call *)

Lemma askProvider_run svc env sid title um payload w :
  askProvider svc env sid title um payload w =
    match providerReply (revision svc) env with
    | Ok text =>
        (Ok (mkSendResult sid title um (assistantRow env sid text)),
         mkWorld (addMessage (assistantRow env sid text) (db w))
                 (trace w ++ [HttpPost (chatRequest svc payload);
                              DbCreateMessage (assistantRow env sid text)]))
    | Throw e =>
        (Throw genericFailure,
         mkWorld (db w)
                 (trace w ++ [HttpPost (chatRequest svc payload);
                              ConsoleError (lit "OpenRouter chat error") e]))
    end.
Proof.
  unfold askProvider, providerReply, try_catch, bind, axios_post, emit, throw, ret,
    assistantContent, sanitizeReply, prisma.chatMessage_create, gets, set_db,
    addMessage, assistantRow, genericFailure.
  simpl.
  destruct (env_http env) as [|detail|status data]; simpl;
    rewrite <- ?app_assoc; simpl; try reflexivity.
  destruct ((200 <=? status)%Z && (status <? 300)%Z); simpl;
    rewrite <- ?app_assoc; simpl; try reflexivity.
  destruct (revision svc), (replyContent data) as [|[]|[]|[]| |]; simpl;
    rewrite <- ?app_assoc; simpl; reflexivity.
Qed.

(** ** [sendMessage] as the sequence of its stages *)

Lemma resolveSession_run env user dto w :
  sessionAccepted (db w) user dto = true ->
  resolveSession env user dto w =
    (Ok (targetSession env user dto (db w), targetTitle user dto (db w)),
     afterResolve env user dto w).
Proof.
  unfold sessionAccepted, targetSession, targetTitle, afterResolve.
  destruct (ownedSession (db w) user dto) as [e|] eqn:H; intros Ha.
  - now apply resolveSession_owned.
  - now apply resolveSession_new.
Qed.

Lemma sessionAccepted_false d user dto :
  sessionAccepted d user dto = false ->
  ownedSession d user dto = None /\ isWellFormed (newTitle dto) = false.
Proof.
  unfold sessionAccepted. destruct (ownedSession d user dto); [discriminate | auto].
Qed.

Lemma sessionAccepted_new d user dto :
  ownedSession d user dto = None -> isWellFormed (newTitle dto) = true ->
  sessionAccepted d user dto = true.
Proof. unfold sessionAccepted. now intros ->. Qed.

Lemma sessionAccepted_owned d user dto e :
  ownedSession d user dto = Some e -> sessionAccepted d user dto = true.
Proof. unfold sessionAccepted. now intros ->. Qed.

Lemma sendMessage_no_key svc env user dto w :
  truthy (openRouterApiKey svc) = false ->
  sendMessage svc env user dto w = (Throw missingKey, w).
Proof. unfold sendMessage. intros ->. reflexivity. Qed.

(** The session row is refused: [sendMessage] ends there, with the
    client's error and the world as it was. *)
Lemma sendMessage_refused svc env user dto w :
  truthy (openRouterApiKey svc) = true ->
  sessionAccepted (db w) user dto = false ->
  sendMessage svc env user dto w = (Throw PrismaClientError, w).
Proof.
  intros Hk Ha. apply sessionAccepted_false in Ha as [Ho Hwf].
  unfold sendMessage. rewrite Hk. cbn [negb].
  unfold bind at 1. cbv beta. now rewrite (resolveSession_refused env user dto w Ho Hwf).
Qed.

Lemma sendMessage_run svc env user dto w :
  truthy (openRouterApiKey svc) = true ->
  sessionAccepted (db w) user dto = true ->
  sendMessage svc env user dto w =
    askProvider svc env (targetSession env user dto (db w))
      (targetTitle user dto (db w))
      (userRow env (targetSession env user dto (db w)) dto)
      (payloadOf svc env user dto w) (beforeCall env user dto w).
Proof.
  intros Hk Ha. unfold sendMessage. rewrite Hk. cbn [negb].
  unfold bind at 1. cbv beta. rewrite (resolveSession_run env user dto w Ha).
  unfold prisma.chatMessage_create, prisma.chatMessage_findMany, bind, gets,
    set_db, emit, ret.
  cbn [db trace fst snd]. rewrite documentsContext_run. reflexivity.
Qed.

Lemma sendMessage_outcome svc env user dto w :
  truthy (openRouterApiKey svc) = true ->
  sessionAccepted (db w) user dto = true ->
  sendMessage svc env user dto w =
    let sid := targetSession env user dto (db w) in
    let w2 := beforeCall env user dto w in
    let rq := chatRequest svc (payloadOf svc env user dto w) in
    match providerReply (revision svc) env with
    | Ok text =>
        (Ok (mkSendResult sid (targetTitle user dto (db w)) (userRow env sid dto)
               (assistantRow env sid text)),
         mkWorld (addMessage (assistantRow env sid text) (db w2))
                 (trace w2 ++ [HttpPost rq; DbCreateMessage (assistantRow env sid text)]))
    | Throw e =>
        (Throw genericFailure,
         mkWorld (db w2)
                 (trace w2 ++ [HttpPost rq;
                               ConsoleError (lit "OpenRouter chat error") e]))
    end.
Proof.
  intros Hk Ha. rewrite (sendMessage_run _ _ _ _ _ Hk Ha). apply askProvider_run.
Qed.

Lemma requests_app t1 t2 : requests (t1 ++ t2) = requests t1 ++ requests t2.
Proof.
  induction t1 as [|e t1 IH]; simpl; [reflexivity|].
  destruct e; simpl; rewrite IH; reflexivity.
Qed.

Lemma trace_afterResolve env user dto w :
  exists pre, trace (afterResolve env user dto w) = trace w ++ pre /\ requests pre = [].
Proof.
  unfold afterResolve. destruct (ownedSession (db w) user dto).
  - exists []. now rewrite app_nil_r.
  - eexists. split; reflexivity.
Qed.

Lemma newKey_missing cfg rev :
  OPENROUTER_API_KEY cfg = None \/ OPENROUTER_API_KEY cfg = Some [] ->
  truthy (openRouterApiKey (newChatService cfg rev)) = false.
Proof. unfold newChatService. simpl. intros [-> | ->]; reflexivity. Qed.

(** ** Missing credential *)

(** C7. When the provider credential is absent from the configuration
    (or is the empty string), [sendMessage] throws the
    [UnauthorizedException] and leaves the world exactly as it was: the
    database is untouched and no request is on the trace. *)
Theorem missing_credential_fails_fast cfg rev env user dto w :
  OPENROUTER_API_KEY cfg = None \/ OPENROUTER_API_KEY cfg = Some [] ->
  sendMessage (newChatService cfg rev) env user dto w =
    (Throw (UnauthorizedException
              (lit "OpenRouter API key is not configured on the server")), w).
Proof.
  intros H. apply sendMessage_no_key. now apply newKey_missing.
Qed.

Lemma missing_credential_witness :
  sendMessage (newChatService (mkConfig None None) Sanitizing)
    (Sample.env HttpTimeout) Sample.alice
    (mkSendChatDto (lit "Summarize Q3") None (Some [lit "docA"]))
    (Sample.world 3) =
  (Throw (UnauthorizedException
            (lit "OpenRouter API key is not configured on the server")),
   Sample.world 3).
Proof.
  apply (missing_credential_fails_fast (mkConfig None None) Sanitizing).
  left. reflexivity.
Defined.

(** ** The request and its payload *)

Lemma requests_beforeCall env user dto w :
  requests (trace (beforeCall env user dto w)) = requests (trace w).
Proof.
  unfold beforeCall. cbn [trace].
  destruct (trace_afterResolve env user dto w) as (pre & -> & Hpre).
  rewrite !requests_app, Hpre. simpl. now rewrite !app_nil_r.
Qed.

(** One run issues exactly one request, whatever comes back. *)
Lemma requests_sendMessage svc env user dto w :
  truthy (openRouterApiKey svc) = true ->
  sessionAccepted (db w) user dto = true ->
  requests (trace (final (sendMessage svc env user dto) w)) =
    requests (trace w) ++ [chatRequest svc (payloadOf svc env user dto w)].
Proof.
  intros Hk Ha. unfold final. rewrite (sendMessage_outcome _ _ _ _ _ Hk Ha). cbv zeta.
  destruct (providerReply (revision svc) env); cbn [snd trace];
    rewrite requests_app, requests_beforeCall; reflexivity.
Qed.

Lemma forwardMessage_role m :
  (m_role m = lit "assistant" -> p_role (forwardMessage m) = lit "assistant") /\
  (m_role m <> lit "assistant" -> p_role (forwardMessage m) = lit "user").
Proof.
  unfold forwardMessage. cbn [p_role].
  destruct (Js.eqb (m_role m) (lit "assistant")) eqn:E; split; intros H;
    try reflexivity.
  - apply eqb_eq in E. contradiction.
  - apply eqb_neq in E. contradiction.
Qed.

Lemma forwardMessage_user_or_assistant m :
  p_role (forwardMessage m) = lit "user" \/ p_role (forwardMessage m) = lit "assistant".
Proof.
  unfold forwardMessage. cbn [p_role].
  destruct (Js.eqb (m_role m) (lit "assistant")); auto.
Qed.

Lemma forwardMessage_not_system m : p_role (forwardMessage m) <> lit "system".
Proof.
  destruct (forwardMessage_user_or_assistant m) as [-> | ->]; discriminate.
Qed.

Lemma chatMessage_afterResolve env user dto w :
  chatMessage (db (afterResolve env user dto w)) = chatMessage (db w).
Proof. unfold afterResolve. destruct (ownedSession (db w) user dto); reflexivity. Qed.

Lemma chatMessage_beforeCall env user dto w :
  chatMessage (db (beforeCall env user dto w)) =
    chatMessage (db w) ++ [userRow env (targetSession env user dto (db w)) dto].
Proof.
  unfold beforeCall. cbn [db addMessage chatMessage].
  now rewrite chatMessage_afterResolve.
Qed.

Lemma messagesOf_beforeCall_target env user dto w :
  let sid := targetSession env user dto (db w) in
  messagesOf sid (db (beforeCall env user dto w)) =
    messagesOf sid (db w) ++ [userRow env sid dto].
Proof.
  cbv zeta. unfold messagesOf. rewrite chatMessage_beforeCall, filter_app.
  cbn [filter userRow m_sessionId]. now rewrite eqb_refl.
Qed.

Lemma document_beforeCall env user dto w :
  document (db (beforeCall env user dto w)) = document (db w).
Proof.
  unfold beforeCall, afterResolve. cbn [db addMessage document].
  destruct (ownedSession (db w) user dto); reflexivity.
Qed.

Lemma matchedDocuments_beforeCall env user dto w :
  matchedDocuments dto (db (beforeCall env user dto w)) = matchedDocuments dto (db w).
Proof. unfold matchedDocuments. now rewrite document_beforeCall. Qed.

Lemma truthy_contextBlock rev docs : truthy (contextBlock rev docs) = true.
Proof. reflexivity. Qed.

(** The [messages] array, spelled out on the database the request
    found. *)
Lemma payloadOf_explicit svc env user dto w :
  let sid := targetSession env user dto (db w) in
  payloadOf svc env user dto w =
    (mkPayloadMessage (lit "system") (systemPrompt (revision svc))
     :: match matchedDocuments dto (db w) with
        | [] => []
        | docs => [mkPayloadMessage (lit "system") (contextBlock (revision svc) docs)]
        end)
    ++ map forwardMessage
         (firstn 20 (sort_by (asc m_createdAt)
                       (messagesOf sid (db w) ++ [userRow env sid dto]))).
Proof.
  cbv zeta. unfold payloadOf, messagesPayload, contextOf, recentMessagesOf.
  rewrite matchedDocuments_beforeCall, (messagesOf_beforeCall_target env user dto w).
  destruct (matchedDocuments dto (db w)) as [|d0 ds]; [reflexivity|].
  rewrite truthy_contextBlock. reflexivity.
Qed.

Lemma in_sorted_window (l : list ChatMessage) m :
  length l <= 20 -> In m l -> In m (firstn 20 (sort_by (asc m_createdAt) l)).
Proof.
  intros Hlen Hm. rewrite firstn_all2.
  - now apply in_sort_by.
  - assert (L : forall (l : list ChatMessage) x,
               length (insert_by (asc m_createdAt) x l) = S (length l)).
    { induction l0 as [|y l0 IH]; intros x; simpl; [reflexivity|].
      destruct (asc m_createdAt x y); simpl; [reflexivity | now rewrite IH]. }
    assert (E : length (sort_by (asc m_createdAt) l) = length l).
    { clear Hlen Hm. induction l as [|x l IH]; simpl; [reflexivity|].
      rewrite L. now f_equal. }
    lia.
Qed.

(** C10. The one request [sendMessage] issues carries, after the system
    prompt and the optional document context (the only entries with role
    "system", neither taken from a stored message), the history: the
    stored messages of the session followed by the message just stored,
    put in ascending creation order and cut after twenty.  Each of these
    rows goes out in that order with its content and with role
    "assistant" when its stored role is the string "assistant", and with
    role "user" for any other stored role.  While the session holds at
    most twenty rows, the new one included, every row is forwarded. *)
Theorem forwarded_roles svc env user dto w :
  truthy (openRouterApiKey svc) = true ->
  sessionAccepted (db w) user dto = true ->
  let sid := targetSession env user dto (db w) in
  let stored := messagesOf sid (db w) ++ [userRow env sid dto] in
  let history := firstn 20 (sort_by (asc m_createdAt) stored) in
  let lead :=
    mkPayloadMessage (lit "system") (systemPrompt (revision svc))
    :: match matchedDocuments dto (db w) with
       | [] => []
       | docs => [mkPayloadMessage (lit "system") (contextBlock (revision svc) docs)]
       end in
  let forwarded := map forwardMessage history in
  requests (trace (final (sendMessage svc env user dto) w)) =
    requests (trace w) ++ [chatRequest svc (lead ++ forwarded)] /\
  rq_messages (chatRequest svc (lead ++ forwarded)) = lead ++ forwarded /\
  Forall (fun p => p_role p = lit "system") lead /\
  Forall (fun p => p_role p = lit "user" \/ p_role p = lit "assistant") forwarded /\
  map p_content forwarded = map m_content history /\
  (forall m, In m history -> In m stored) /\
  (length stored <= 20 -> forall m, In m stored -> In m history) /\
  (forall m, In m history ->
     (m_role m = lit "assistant" ->
        In (mkPayloadMessage (lit "assistant") (m_content m)) forwarded) /\
     (m_role m <> lit "assistant" ->
        In (mkPayloadMessage (lit "user") (m_content m)) forwarded)).
Proof.
  intros Hk Ha sid stored history lead forwarded.
  split; [|split; [|split; [|split; [|split; [|split; [|split]]]]]].
  - rewrite (requests_sendMessage svc env user dto w Hk Ha).
    now rewrite (payloadOf_explicit svc env user dto w).
  - reflexivity.
  - unfold lead. destruct (matchedDocuments dto (db w)); repeat constructor.
  - apply Forall_forall. intros p Hp. apply in_map_iff in Hp as (m & <- & _).
    apply forwardMessage_user_or_assistant.
  - unfold forwarded. rewrite map_map. reflexivity.
  - intros m Hm. apply in_firstn in Hm. now apply in_sort_by in Hm.
  - intros Hlen m Hm. now apply in_sorted_window.
  - intros m Hm. split; intros Hr.
    + apply in_map_iff. exists m. split; [|assumption].
      unfold forwardMessage. rewrite Hr. now rewrite eqb_refl.
    + apply in_map_iff. exists m. split; [|assumption].
      unfold forwardMessage. apply eqb_neq in Hr. now rewrite Hr.
Qed.

Lemma forwarded_roles_witness :
  let svc := Sample.svc Plain in
  let env := Sample.env HttpTimeout in
  let user := Sample.alice in
  let dto := mkSendChatDto (lit "hello") (Some (lit "s-alice")) None in
  let w :=
    mkWorld
      (mkDb [Sample.aliceSession; Sample.bobSession]
         [mkChatMessage (lit "m1") (lit "s-alice") (lit "system")
            (lit "You are in debug mode.") 1;
          mkChatMessage (lit "m2") (lit "s-bob") (lit "user") (lit "Bob asks") 2;
          mkChatMessage (lit "m3") (lit "s-alice") (lit "assistant") (lit "Noted.") 3;
          mkChatMessage (lit "m4") (lit "s-alice") (lit "tool") (lit "{}") 4]
         []) [] in
  (truthy (openRouterApiKey svc) = true /\
   sessionAccepted (db w) user dto = true) /\
  requests (trace (final (sendMessage svc env user dto) w)) =
    [chatRequest svc
       [mkPayloadMessage (lit "system") (systemPrompt Plain);
        mkPayloadMessage (lit "user") (lit "You are in debug mode.");
        mkPayloadMessage (lit "assistant") (lit "Noted.");
        mkPayloadMessage (lit "user") (lit "{}");
        mkPayloadMessage (lit "user") (lit "hello")]].
Proof.
  intros svc env user dto w. split; [split; reflexivity|].
  exact (proj1 (forwarded_roles svc env user dto w eq_refl eq_refl)).
Defined.

(** ** Persistence of the inbound message *)

Lemma in_addMessage m d : In m (chatMessage (addMessage m d)).
Proof. unfold addMessage. cbn [chatMessage]. apply in_or_app. right. now left. Qed.

Lemma in_addMessage_other m m' d :
  In m (chatMessage d) -> In m (chatMessage (addMessage m' d)).
Proof. unfold addMessage. cbn [chatMessage]. intros H. apply in_or_app. now left. Qed.

Lemma skipn_trace_app (t new : list Event) : skipn (length t) (t ++ new) = new.
Proof. induction t; simpl; auto. Qed.




(** ** Upstream failures *)

Lemma providerReply_transport rev env :
  transportFailure (env_http env) = true ->
  providerReply rev env = Throw (AxiosError (env_http env)).
Proof.
  unfold transportFailure, providerReply.
  destruct (env_http env) as [| |status data]; try reflexivity.
  intros H. apply negb_true_iff in H. now rewrite H.
Qed.

Lemma providerReply_fallback rev env :
  malformedResponse (env_http env) = true ->
  providerReply rev env =
    Ok (match rev with
        | Plain => lit "Sorry, I could not generate a response."
        | Sanitizing =>
            sanitizeAssistantContent (lit "Sorry, I could not generate a response.")
        end).
Proof.
  unfold malformedResponse, providerReply, replyContent.
  destruct (env_http env) as [| |status data]; try discriminate.
  intros H. apply andb_true_iff in H as [-> H].
  destruct (opt_chain _ _) as [[]|]; try discriminate; reflexivity.
Qed.

Lemma sanitize_fallback :
  sanitizeAssistantContent (lit "Sorry, I could not generate a response.") =
  lit "Sorry, I could not generate a response.".
Proof. vm_compute. reflexivity. Qed.

(** C6, as the code has it.  For every call that passes the credential
    check and comes to the provider call, that is, whose session is
    resolved or created: a timeout, a transport error or a status outside
    2xx is caught: exactly one request went out (no retry), the
    underlying error is logged with [console.error], nothing is written
    after the user's message, and the caller gets the one generic
    [InternalServerErrorException], the same for every such failure.  A
    2xx response whose body has no [choices[0].message.content] is not a
    failure: the fallback sentence is stored as the assistant's reply and
    returned.  A run that [chatSession.create] stops issues no request,
    so that there is no upstream failure in it. *)
Theorem upstream_failure_handling svc env user dto w :
  truthy (openRouterApiKey svc) = true ->
  let run := sendMessage svc env user dto in
  let w2 := beforeCall env user dto w in
  let rq := chatRequest svc (payloadOf svc env user dto w) in
  (sessionAccepted (db w) user dto = true ->
     (transportFailure (env_http env) = true ->
        outcome run w = Throw genericFailure /\
        db (final run w) = db w2 /\
        trace (final run w) =
          trace w2 ++ [HttpPost rq;
                       ConsoleError (lit "OpenRouter chat error")
                                    (AxiosError (env_http env))] /\
        requests (trace (final run w)) = requests (trace w) ++ [rq]) /\
     (malformedResponse (env_http env) = true ->
        exists r,
          outcome run w = Ok r /\
          m_role (r_assistantMessage r) = lit "assistant" /\
          m_content (r_assistantMessage r) =
            lit "Sorry, I could not generate a response." /\
          In (r_assistantMessage r) (chatMessage (db (final run w))) /\
          requests (trace (final run w)) = requests (trace w) ++ [rq])) /\
  (sessionAccepted (db w) user dto = false ->
     run w = (Throw PrismaClientError, w) /\
     requests (trace (final run w)) = requests (trace w)).
Proof.
  intros Hk run w2 rq. split; [intros Ha; split; intros H|].
  - pose proof (@requests_sendMessage svc env user dto w Hk Ha) as Hrq.
    unfold run, outcome, final in *.
    rewrite (sendMessage_outcome _ _ _ _ _ Hk Ha) in *. cbv zeta in *.
    rewrite (providerReply_transport _ _ H) in *. cbn [fst snd db trace] in *.
    repeat split; try reflexivity. exact Hrq.
  - pose proof (@requests_sendMessage svc env user dto w Hk Ha) as Hrq.
    unfold run, outcome, final in *.
    rewrite (sendMessage_outcome _ _ _ _ _ Hk Ha) in *. cbv zeta in *.
    rewrite (providerReply_fallback _ _ H) in *. cbn [fst snd db trace] in *.
    eexists. split; [reflexivity|]. cbn [r_assistantMessage assistantRow m_role m_content].
    split; [reflexivity|]. split; [|split].
    + destruct (revision svc); [reflexivity | apply sanitize_fallback].
    + apply in_addMessage.
    + exact Hrq.
  - intros Ha. unfold run, final.
    rewrite (sendMessage_refused svc env user dto w Hk Ha). split; reflexivity.
Qed.

Lemma upstream_failure_handling_witness :
  let svc := Sample.svc Sanitizing in
  let env := Sample.env HttpTimeout in
  let dto := mkSendChatDto (lit "Summarize Q3") None None in
  let w := Sample.world 2 in
  let run := sendMessage svc env Sample.alice dto in
  let rq := chatRequest svc (payloadOf svc env Sample.alice dto w) in
  (truthy (openRouterApiKey svc) = true /\
   sessionAccepted (db w) Sample.alice dto = true /\
   transportFailure (env_http env) = true) /\
  outcome run w = Throw genericFailure /\
  db (final run w) = db (beforeCall env Sample.alice dto w) /\
  trace (final run w) =
    trace (beforeCall env Sample.alice dto w)
    ++ [HttpPost rq;
        ConsoleError (lit "OpenRouter chat error") (AxiosError HttpTimeout)] /\
  requests (trace (final run w)) = requests (trace w) ++ [rq].
Proof.
  intros svc env dto w run rq. split; [repeat split; reflexivity|].
  exact (proj1 (proj1 (upstream_failure_handling svc env Sample.alice dto w eq_refl)
                  eq_refl) eq_refl).
Defined.

(** C6 as stated fails: a 2xx response whose JSON body carries an error
    object and no [choices] is a malformed response, yet [sendMessage]
    returns normally with the fallback reply, stores it, and logs
    nothing. *)
Lemma malformed_response_is_not_an_error :
  let body := JObject [(lit "error",
                        JObject [(lit "message", JString (lit "No endpoints found"))])] in
  let env := Sample.env (HttpResponse 200 body) in
  let dto := mkSendChatDto (lit "Summarize Q3") None None in
  let run := sendMessage (Sample.svc Sanitizing) env Sample.alice dto in
  malformedResponse (env_http env) = true /\
  outcome run Sample.emptyWorld <> Throw genericFailure /\
  outcome run Sample.emptyWorld =
    Ok (mkSendResult (lit "s-new") (Some (lit "Summarize Q3"))
          (userRow env (lit "s-new") dto)
          (assistantRow env (lit "s-new")
             (lit "Sorry, I could not generate a response."))) /\
  (forall label e, ~ In (ConsoleError label e) (trace (final run Sample.emptyWorld))).
Proof.
  cbv zeta. split; [reflexivity|]. split; [|split].
  - vm_compute. discriminate.
  - vm_compute. reflexivity.
  - intros label e. vm_compute. intros H.
    repeat (destruct H as [H|H]; [discriminate|]). exact H.
Qed.

(** ** The session a message creates *)

Lemma chatSession_final svc env user dto w :
  truthy (openRouterApiKey svc) = true ->
  sessionAccepted (db w) user dto = true ->
  chatSession (db (final (sendMessage svc env user dto) w)) =
    chatSession (db (afterResolve env user dto w)).
Proof.
  intros Hk Ha. unfold final. rewrite (sendMessage_outcome _ _ _ _ _ Hk Ha). cbv zeta.
  destruct (providerReply (revision svc) env); reflexivity.
Qed.

(** When a request resolves to no session of the caller. *)
Lemma ownedSession_none d user dto :
  ownedSession d user dto = None <->
  sessionId dto = None \/ sessionId dto = Some [] \/
  exists sid, sessionId dto = Some sid /\
    forall s, In s (chatSession d) -> s_id s = sid -> s_userId s <> u_id user.
Proof.
  unfold ownedSession. destruct (sessionId dto) as [[|c sid]|]; cbn [truthy].
  - split; auto.
  - fold (ownedRow (u_id user) (c :: sid)). split.
    + intros F. right. right. exists (c :: sid). split; [reflexivity|].
      intros s Hin Hid Hu. apply (find_none _ _ F) in Hin.
      assert (ownedRow (u_id user) (c :: sid) s = true) by now apply ownedRow_true.
      congruence.
    + intros [H | [H | (sid' & E & H)]]; try discriminate.
      injection E as <-. now apply find_owned_none.
  - split; auto.
Qed.

(** ** Titles and surrogate pairs *)

Lemma surrogates_disjoint c : isLowSurrogate c = true -> isHighSurrogate c = false.
Proof.
  unfold isLowSurrogate, isHighSurrogate. intros H.
  apply andb_true_iff in H as [H1 _]. apply N.leb_le in H1.
  apply andb_false_iff. right. apply N.leb_gt. lia.
Qed.

(** Cutting a well-formed string after [k + 1] code units leaves a
    well-formed string unless the last unit kept is the first half of a
    pair. *)
Lemma isWellFormed_firstn_bounded n : forall s k,
  length s <= n -> isWellFormed s = true ->
  isWellFormed (firstn (S k) s) = negb (isHighSurrogate (nth k s 0%N)).
Proof.
  induction n as [|n IH]; intros s k Hlen Hwf.
  - destruct s; [|simpl in Hlen; lia]. destruct k; reflexivity.
  - destruct s as [|c t]; [destruct k; reflexivity|].
    cbn [isWellFormed] in Hwf. destruct (isHighSurrogate c) eqn:Hc.
    + destruct t as [|d u]; [discriminate|].
      apply andb_true_iff in Hwf as [Hd Hu].
      destruct k as [|[|k]].
      * cbn [firstn nth isWellFormed]. now rewrite Hc.
      * cbn [firstn nth isWellFormed]. rewrite Hc, Hd.
        now rewrite (surrogates_disjoint d Hd).
      * change (firstn (S (S (S k))) (c :: d :: u)) with (c :: d :: firstn (S k) u).
        cbn [nth isWellFormed]. rewrite Hc, Hd. cbn [andb].
        apply IH; [simpl in Hlen; lia | assumption].
    + apply andb_true_iff in Hwf as [Hl Ht].
      destruct k as [|k].
      * cbn [firstn nth isWellFormed]. now rewrite Hc, Hl.
      * change (firstn (S (S k)) (c :: t)) with (c :: firstn (S k) t).
        cbn [nth isWellFormed]. rewrite Hc, Hl. cbn [andb].
        apply IH; [simpl in Hlen; lia | assumption].
Qed.

Lemma isWellFormed_firstn s k :
  isWellFormed s = true ->
  isWellFormed (firstn (S k) s) = negb (isHighSurrogate (nth k s 0%N)).
Proof. intros H. now apply (isWellFormed_firstn_bounded (length s)). Qed.

Lemma newTitle_eq dto :
  newTitle dto =
    if truthy (message dto) then firstn 80 (message dto) else lit "New Chat".
Proof. unfold newTitle, or_else, slice0. destruct (message dto); reflexivity. Qed.




(** ** The document context *)

Lemma occursIn_join sep x l : In x l -> occursIn x (join sep l).
Proof.
  induction l as [|p l IH]; [contradiction|].
  intros [-> | H].
  - destruct l as [|q l].
    + exists [], []. simpl. now rewrite app_nil_r.
    + exists [], (sep ++ join sep (q :: l)). reflexivity.
  - destruct l as [|q l]; [contradiction|].
    destruct (IH H) as (a & b & E).
    exists (p ++ sep ++ a), b. change (join sep (p :: q :: l)) with (p ++ sep ++ join sep (q :: l)).
    rewrite E. now rewrite <- !app_assoc.
Qed.

Lemma occursIn_context x a b : occursIn x b -> forall c, occursIn x (a ++ b ++ c).
Proof.
  intros (l & r & ->) c. exists (a ++ l), (r ++ c). now rewrite <- !app_assoc.
Qed.

(** ** ISO dates *)

Lemma isDigit_digit (n : N) : isDigit (48 + n mod 10)%N = true.
Proof.
  unfold isDigit. assert (H : (n mod 10 < 10)%N) by (apply N.mod_lt; discriminate).
  revert H. generalize (n mod 10)%N. intros r H.
  apply andb_true_iff. split; apply N.leb_le; lia.
Qed.

Lemma forallb_isDigit_digits w : forall n : N, forallb isDigit (digits w n) = true.
Proof.
  induction w as [|w IH]; intros n; [reflexivity|].
  cbn [digits]. rewrite forallb_app, IH. cbn [forallb].
  now rewrite isDigit_digit.
Qed.

Lemma fold_digits w : forall n : N,
  fold_left (fun acc c => (10 * acc + (c - 48))%N) (digits w n) 0%N =
    (n mod 10 ^ N.of_nat w)%N.
Proof.
  induction w as [|w IH]; intros n.
  - cbn [digits fold_left]. change (10 ^ N.of_nat 0)%N with 1%N.
    now rewrite N.mod_1_r.
  - cbn [digits]. rewrite fold_left_app. cbn [fold_left]. rewrite IH.
    rewrite Nat2N.inj_succ, N.pow_succ_r'.
    rewrite (N.Div0.mod_mul_r n 10 (10 ^ N.of_nat w)).
    generalize ((n / 10) mod 10 ^ N.of_nat w)%N, (n mod 10)%N. intros a b. lia.
Qed.

Lemma readDigits_digits w (n : N) :
  (n < 10 ^ N.of_nat w)%N -> readDigits (digits w n) = Some n.
Proof.
  intros H. unfold readDigits. rewrite forallb_isDigit_digits, fold_digits.
  now rewrite N.mod_small.
Qed.

(** The text [toISOString] prints for a calendar date reads back as that
    date. *)
Lemma parseISO_toISOString d : calendarDate d -> parseISO (toISOString d) = Some d.
Proof.
  intros (Hy & Hmo & Hd & Hh & Hmi & Hs & Hms).
  unfold toISOString.
  replace (year d <? 0)%Z with false by (symmetry; apply Z.ltb_ge; lia).
  replace (9999 <? year d)%Z with false by (symmetry; apply Z.ltb_ge; lia).
  transitivity
    (match readDigits (digits 4 (Z.to_N (year d))), readDigits (digits 2 (month d)),
           readDigits (digits 2 (day d)), readDigits (digits 2 (hours d)),
           readDigits (digits 2 (minutes d)), readDigits (digits 2 (seconds d)),
           readDigits (digits 3 (milliseconds d)) with
     | Some y, Some mo, Some dd, Some h, Some mi, Some sec, Some ms =>
         Some (mkDate (Z.of_N y) mo dd h mi sec ms)
     | _, _, _, _, _, _, _ => None
     end).
  - reflexivity.
  - rewrite !readDigits_digits by (cbn; lia).
    rewrite Z2N.id by lia. destruct d; reflexivity.
Qed.

(** C9. The documents put before the model are the rows of [document]
    whose id is among [documentIds]; ids that match nothing contribute
    nothing.  When at least one row matches, the payload of the one
    request is the primary system prompt, then exactly one further system
    message holding the context block, then the history.  The block is
    the fixed opening sentence, the rendering of every matched row and
    the closing instruction; a row is rendered as its title, fund label,
    type, status, the two period bounds in the ISO form
    [YYYY-MM-DDTHH:mm:ss.sssZ] (a calendar date is read back from it)
    and the description or "n/a".  Between the two bounds the first
    revision has an en dash (U+2013) with a space on either side; the
    text of the second revision has the three characters U+00E2 U+20AC
    U+201C in the place of the dash.  When
    [documentIds] is absent or matches nothing, the payload is the
    primary system prompt followed by the history.  No message of the
    history has role "system". *)
Theorem document_context svc env user dto w :
  truthy (openRouterApiKey svc) = true ->
  sessionAccepted (db w) user dto = true ->
  let rev := revision svc in
  let docs := matchedDocuments dto (db w) in
  let sid := targetSession env user dto (db w) in
  let history :=
    firstn 20 (sort_by (asc m_createdAt)
                 (messagesOf sid (db w) ++ [userRow env sid dto])) in
  let primary := mkPayloadMessage (lit "system") (systemPrompt rev) in
  let payload :=
    match docs with
    | [] => primary :: map forwardMessage history
    | _ :: _ =>
        primary :: mkPayloadMessage (lit "system") (contextBlock rev docs)
        :: map forwardMessage history
    end in
  requests (trace (final (sendMessage svc env user dto) w)) =
    requests (trace w) ++ [chatRequest svc payload] /\
  rq_messages (chatRequest svc payload) = payload /\
  Forall (fun p => p_role p <> lit "system") (map forwardMessage history) /\
  (documentIds dto = None -> docs = []) /\
  (forall d, In d docs <->
     In d (document (db w)) /\
     exists ids, documentIds dto = Some ids /\ In (d_id d) ids) /\
  contextBlock rev docs =
    lit "The user has selected the following compliance documents to discuss:"
    ++ [LF] ++ join [LF] (map (renderDocument rev) docs) ++ [LF]
    ++ lit "Use ONLY this information plus the conversation history to answer questions, and clearly say when information is not available in these documents." /\
  (forall d, In d docs ->
     occursIn (renderDocument rev d) (contextBlock rev docs) /\
     renderDocument rev d =
       lit "- Title: " ++ d_title d ++ [LF]
       ++ lit "  Fund: "
       ++ (match d_fund d with
           | Some fund => f_name fund ++ lit " (" ++ f_code fund ++ lit ")"
           | None => d_fundId d
           end) ++ [LF]
       ++ lit "  Type: " ++ d_type d ++ [LF]
       ++ lit "  Status: " ++ d_status d ++ [LF]
       ++ lit "  Period: " ++ toISOString (d_periodStart d)
       ++ [32%N]
       ++ (match rev with
           | Plain => [8211%N]
           | Sanitizing => [226%N; 8364%N; 8220%N]
           end)
       ++ [32%N] ++ toISOString (d_periodEnd d) ++ [LF]
       ++ lit "  Description: "
       ++ (match d_description d with Some t => t | None => lit "n/a" end)
       ++ [LF] /\
     (calendarDate (d_periodStart d) ->
        parseISO (toISOString (d_periodStart d)) = Some (d_periodStart d)) /\
     (calendarDate (d_periodEnd d) ->
        parseISO (toISOString (d_periodEnd d)) = Some (d_periodEnd d))).
Proof.
  intros Hk Ha rev docs sid history primary payload.
  split; [|split; [|split; [|split; [|split; [|split]]]]].
  - rewrite (requests_sendMessage svc env user dto w Hk Ha).
    rewrite (payloadOf_explicit svc env user dto w).
    fold docs. fold sid. fold history. fold rev. fold primary.
    unfold payload. destruct docs as [|d0 ds]; reflexivity.
  - reflexivity.
  - apply Forall_forall. intros p Hp. apply in_map_iff in Hp as (m & <- & _).
    apply forwardMessage_not_system.
  - unfold docs, matchedDocuments. now intros ->.
  - intros d. unfold docs, matchedDocuments.
    destruct (documentIds dto) as [ids|].
    + rewrite filter_In. split.
      * intros [Hin Hex]. split; [assumption|]. exists ids. split; [reflexivity|].
        apply existsb_exists in Hex as (i & Hi & E). apply eqb_eq in E. now subst.
      * intros [Hin (ids' & E & Hi)]. injection E as <-. split; [assumption|].
        apply existsb_exists. exists (d_id d). split; [assumption | apply eqb_refl].
    + split; [contradiction | intros [_ (ids & E & _)]; discriminate].
  - reflexivity.
  - intros d Hd. split; [|split; [|split]].
    + unfold contextBlock. rewrite (app_assoc contextHeader [LF]).
      apply occursIn_context. apply occursIn_join. now apply in_map.
    + unfold renderDocument, fundLabel, periodDash, LF, lit.
      cbn -[toISOString]. destruct rev; cbn -[toISOString]; reflexivity.
    + apply parseISO_toISOString.
    + apply parseISO_toISOString.
Qed.

Lemma document_context_witness :
  let env := Sample.env (HttpResponse 200 (Sample.okBody (lit "Fine."))) in
  let user := Sample.alice in
  let dto := mkSendChatDto (lit "Summarize Q3") None
               (Some [lit "docB"; lit "docMissing"; lit "docA"]) in
  let docB :=
    mkDocument (lit "docB") (lit "Audit memo") (lit "fund-2") None
      (lit "AUDIT_REPORT") (lit "PENDING") (mkDate 2024 12 31 0 0 0 0)
      (mkDate 2025 1 5 9 3 7 42) (Some (lit "Internal memo")) in
  let w := mkWorld (mkDb [] [] [Sample.docA; docB]) [] in
  let block dash :=
    lit "The user has selected the following compliance documents to discuss:
- Title: Q3 Report
  Fund: Alpha Fund (ALF)
  Type: QUARTERLY_REPORT
  Status: APPROVED
  Period: 2025-07-01T00:00:00.000Z " ++ dash ++ lit " 2025-09-30T23:59:59.999Z
  Description: n/a

- Title: Audit memo
  Fund: fund-2
  Type: AUDIT_REPORT
  Status: PENDING
  Period: 2024-12-31T00:00:00.000Z " ++ dash ++ lit " 2025-01-05T09:03:07.042Z
  Description: Internal memo

Use ONLY this information plus the conversation history to answer questions, and clearly say when information is not available in these documents." in
  let payload rev dash :=
    [mkPayloadMessage (lit "system") (systemPrompt rev);
     mkPayloadMessage (lit "system") (block dash);
     mkPayloadMessage (lit "user") (lit "Summarize Q3")] in
  (truthy (openRouterApiKey (Sample.svc Plain)) = true /\
   sessionAccepted (db w) user dto = true /\
   requests (trace (final (sendMessage (Sample.svc Plain) env user dto) w)) =
     [chatRequest (Sample.svc Plain) (payload Plain [8211%N])]) /\
  (truthy (openRouterApiKey (Sample.svc Sanitizing)) = true /\
   sessionAccepted (db w) user dto = true /\
   requests (trace (final (sendMessage (Sample.svc Sanitizing) env user dto) w)) =
     [chatRequest (Sample.svc Sanitizing)
        (payload Sanitizing [226%N; 8364%N; 8220%N])]).
Proof.
  intros env user dto docB w block payload.
  split; (split; [reflexivity|]; split; [reflexivity|]).
  - exact (proj1 (document_context (Sample.svc Plain) env user dto w eq_refl eq_refl)).
  - exact (proj1 (document_context (Sample.svc Sanitizing) env user dto w
                    eq_refl eq_refl)).
Defined.

(** ** The history window *)

Lemma recent_window_small sid d :
  length (messagesOf sid d) <= 20 ->
  recentMessagesOf sid d = mostRecent 20 (messagesOf sid d).
Proof.
  intros H. unfold recentMessagesOf, mostRecent.
  assert (L : forall (l : list ChatMessage) x,
             length (insert_by (asc m_createdAt) x l) = S (length l)).
  { induction l as [|y l IH]; intros x; simpl; [reflexivity|].
    destruct (asc m_createdAt x y); simpl; [reflexivity | now rewrite IH]. }
  assert (E : length (sort_by (asc m_createdAt) (messagesOf sid d)) =
              length (messagesOf sid d)).
  { induction (messagesOf sid d) as [|x l IH]; simpl; [reflexivity|].
    rewrite L. f_equal. apply IH. simpl in H. lia. }
  rewrite firstn_all2 by lia.
  replace (length _ - 20) with 0 by lia. reflexivity.
Qed.

Lemma insert_by_asc_sorted x l :
  StronglySorted notAfter l ->
  StronglySorted notAfter (insert_by (asc m_createdAt) x l).
Proof.
  induction 1 as [|y l Hl IH Hy]; simpl.
  - repeat constructor.
  - unfold asc at 1. destruct (m_createdAt x <=? m_createdAt y)%Z eqn:E.
    + apply Z.leb_le in E. constructor; [now constructor|].
      constructor; [exact E|].
      eapply Forall_impl; [|exact Hy]. unfold notAfter. intros; lia.
    + apply Z.leb_gt in E. constructor; [exact IH|].
      apply Forall_forall. intros z Hz.
      assert (Hz' : z = x \/ In z l).
      { clear -Hz. induction l as [|u l IHl]; simpl in Hz.
        - destruct Hz as [<- | []]. now left.
        - destruct (asc m_createdAt x u); simpl in Hz.
          + destruct Hz as [<- | Hz]; [now left | now right].
          + destruct Hz as [<- | Hz]; [right; now left|].
            destruct (IHl Hz); [now left | right; now right]. }
      destruct Hz' as [-> | Hz'].
      * unfold notAfter. lia.
      * exact (proj1 (Forall_forall _ _) Hy z Hz').
Qed.

Lemma sort_by_asc_sorted l : StronglySorted notAfter (sort_by (asc m_createdAt) l).
Proof.
  induction l as [|x l IH]; simpl; [constructor | now apply insert_by_asc_sorted].
Qed.

Lemma StronglySorted_app_inv {A} (R : A -> A -> Prop) l1 l2 :
  StronglySorted R (l1 ++ l2) ->
  StronglySorted R l1 /\ forall a b, In a l1 -> In b l2 -> R a b.
Proof.
  induction l1 as [|x l1 IH]; simpl; intros H.
  - split; [constructor | contradiction].
  - inversion H as [|? ? Hs Hx]; subst. destruct (IH Hs) as [S1 Hab].
    split.
    + constructor; [assumption|]. apply Forall_forall. intros y Hy.
      apply (proj1 (Forall_forall _ _) Hx). apply in_or_app. now left.
    + intros a b [<- | Ha] Hb.
      * apply (proj1 (Forall_forall _ _) Hx). apply in_or_app. now right.
      * now apply Hab.
Qed.

(** What the history query returns: at most twenty rows of the session,
    in ascending creation order, and every row of the session that is
    left out was created no earlier than every row that is kept.  It is
    the window of the OLDEST rows. *)
Lemma history_is_oldest_window sid d :
  let history := recentMessagesOf sid d in
  length history <= 20 /\
  StronglySorted notAfter history /\
  (forall m, In m history -> In m (messagesOf sid d)) /\
  (forall kept left,
     In kept history -> In left (messagesOf sid d) -> ~ In left history ->
     notAfter kept left).
Proof.
  cbv zeta. unfold recentMessagesOf.
  set (l := sort_by (asc m_createdAt) (messagesOf sid d)).
  pose proof (sort_by_asc_sorted (messagesOf sid d)) as Hs. fold l in Hs.
  rewrite <- (firstn_skipn 20 l) in Hs.
  apply StronglySorted_app_inv in Hs as [S1 Hab].
  split; [|split; [assumption | split]].
  - rewrite length_firstn. lia.
  - intros m Hm. apply in_firstn in Hm. now apply in_sort_by in Hm.
  - intros kept left Hk Hl Hn. apply Hab; [assumption|].
    apply (in_sort_by (asc m_createdAt)) in Hl. fold l in Hl.
    rewrite <- (firstn_skipn 20 l) in Hl. apply in_app_or in Hl as [Hl|Hl];
      [contradiction | assumption].
Qed.

(** C1 at a session of twenty stored turns.  The caller's new message is
    stored as the twenty-first row; the history that goes out is the
    twenty OLDEST rows in ascending order (turns 1 to 20), so the message
    just received is not in the payload, whereas the most recent twenty
    rows are turns 2 to 20 followed by the new message. *)
Theorem history_window_keeps_oldest :
  let svc := Sample.svc Sanitizing in
  let env := Sample.env (HttpResponse 200 (Sample.okBody (lit "Fine."))) in
  let dto := mkSendChatDto (lit "What changed since?") (Some (lit "s-alice")) None in
  let w := Sample.world 20 in
  let um := userRow env (lit "s-alice") dto in
  let stored := messagesOf (lit "s-alice") (db (beforeCall env Sample.alice dto w)) in
  stored = Sample.turns (lit "s-alice") 20 ++ [um] /\
  requests (trace (final (sendMessage svc env Sample.alice dto) w)) =
    [chatRequest svc
       (mkPayloadMessage (lit "system") (systemPrompt Sanitizing)
        :: map forwardMessage (Sample.turns (lit "s-alice") 20))] /\
  mostRecent 20 stored = skipn 1 (Sample.turns (lit "s-alice") 20) ++ [um] /\
  recentMessagesOf (lit "s-alice") (db (beforeCall env Sample.alice dto w)) <>
    mostRecent 20 stored /\
  ~ In um (recentMessagesOf (lit "s-alice") (db (beforeCall env Sample.alice dto w))).
Proof.
  cbv zeta. split; [|split; [|split; [|split]]].
  - vm_compute. reflexivity.
  - vm_compute. reflexivity.
  - vm_compute. reflexivity.
  - vm_compute. discriminate.
  - vm_compute. intros H.
    repeat (destruct H as [H|H]; [discriminate|]). exact H.
Qed.

(** ** Deleting a session *)

Lemma deleteSession_run userId id w :
  deleteSession userId id w =
    match find (ownedRow userId id) (chatSession (db w)) with
    | None => (Ok None, w)
    | Some _ =>
        (Ok (Some true),
         mkWorld
           (mkDb (filter (fun s => negb (Js.eqb (s_id s) id)) (chatSession (db w)))
                 (filter (fun m => negb (Js.eqb (m_sessionId m) id)) (chatMessage (db w)))
                 (document (db w)))
           (trace w ++ [DbDeleteMessages id; DbDeleteSession id]))
    end.
Proof.
  unfold deleteSession, bind, prisma.chatSession_findFirst, gets.
  cbn [fst snd]. fold (ownedRow userId id).
  destruct (find (ownedRow userId id) (chatSession (db w))); [|reflexivity].
  unfold prisma.chatMessage_deleteMany, prisma.chatSession_delete, bind, gets,
    set_db, emit, ret. cbn. now rewrite <- app_assoc.
Qed.

Lemma getSession_run userId id w :
  getSession userId id w =
    (Ok (match find (ownedRow userId id) (chatSession (db w)) with
         | None => None
         | Some s => Some (s, sort_by (asc m_createdAt) (messagesOf (s_id s) (db w)))
         end), w).
Proof.
  unfold getSession, bind, prisma.chatSession_findFirst, gets, ret.
  cbn [fst snd]. fold (ownedRow userId id).
  destruct (find (ownedRow userId id) (chatSession (db w))); reflexivity.
Qed.

Lemma filter_none {A} (p : A -> bool) l :
  (forall x, In x l -> p x = false) -> filter p l = [].
Proof.
  induction l as [|x l IH]; intros H; simpl; [reflexivity|].
  rewrite (H x (or_introl eq_refl)). apply IH. intros y Hy. apply H. now right.
Qed.

(** C8. When the caller owns a session with this id, [deleteSession]
    answers [{ success: true }], no message of that session and no row
    with that id is left, a following [getSession] for the id returns
    nothing, and every other session and message is kept.  When no row
    with this id belongs to the caller (there is none, or it is someone
    else's), [deleteSession] returns without a value and the world is
    unchanged. *)
Theorem delete_session userId id w :
  let run := deleteSession userId id in
  ((exists s, In s (chatSession (db w)) /\ s_id s = id /\ s_userId s = userId) ->
     outcome run w = Ok (Some true) /\
     messagesOf id (db (final run w)) = [] /\
     (forall s, In s (chatSession (db (final run w))) -> s_id s <> id) /\
     getSession userId id (final run w) = (Ok None, final run w) /\
     (forall s, s_id s <> id ->
        (In s (chatSession (db (final run w))) <-> In s (chatSession (db w)))) /\
     (forall m, m_sessionId m <> id ->
        (In m (chatMessage (db (final run w))) <-> In m (chatMessage (db w)))))
  /\
  ((forall s, In s (chatSession (db w)) -> s_id s = id -> s_userId s <> userId) ->
     run w = (Ok None, w)).
Proof.
  intros run. unfold run, outcome, final. split; intros H.
  - rewrite deleteSession_run.
    destruct (find_owned_some userId id _ H) as (e & -> & _). cbn [fst snd db chatSession chatMessage].
    assert (Hs : forall s, In s (filter (fun s => negb (Js.eqb (s_id s) id))
                                        (chatSession (db w))) -> s_id s <> id).
    { intros s Hs. apply filter_In in Hs as [_ Hs]. apply negb_true_iff in Hs.
      now apply eqb_neq. }
    split; [reflexivity|]. split; [|split; [assumption|split; [|split]]].
    + unfold messagesOf. cbn [chatMessage]. apply filter_none.
      intros m Hm. apply filter_In in Hm as [_ Hm]. now apply negb_true_iff in Hm.
    + rewrite getSession_run. cbn [db chatSession].
      rewrite find_owned_none; [reflexivity|].
      intros s Hin Hid. exfalso. exact (Hs s Hin Hid).
    + intros s Hne. rewrite filter_In. split; [tauto|]. intros Hin. split; [assumption|].
      apply negb_true_iff. now apply eqb_neq.
    + intros m Hne. rewrite filter_In. split; [tauto|]. intros Hin. split; [assumption|].
      apply negb_true_iff. now apply eqb_neq.
  - rewrite deleteSession_run. now rewrite (find_owned_none _ _ _ H).
Qed.

Lemma delete_session_witness :
  let userId := lit "u-alice" in
  let w := Sample.world 3 in
  ((exists s, In s (chatSession (db w)) /\ s_id s = lit "s-alice" /\ s_userId s = userId)
   /\ outcome (deleteSession userId (lit "s-alice")) w = Ok (Some true)
   /\ getSession userId (lit "s-alice") (final (deleteSession userId (lit "s-alice")) w)
      = (Ok None, final (deleteSession userId (lit "s-alice")) w))
  /\
  ((forall s, In s (chatSession (db w)) -> s_id s = lit "s-bob" -> s_userId s <> userId)
   /\ deleteSession userId (lit "s-bob") w = (Ok None, w)).
Proof.
  intros userId w.
  assert (H1 : exists s, In s (chatSession (db w)) /\ s_id s = lit "s-alice"
                         /\ s_userId s = userId).
  { exists Sample.aliceSession. split; [now left | split; reflexivity]. }
  assert (H2 : forall s, In s (chatSession (db w)) -> s_id s = lit "s-bob"
                         -> s_userId s <> userId).
  { intros s [<- | [<- | []]]; [discriminate | intros _; discriminate]. }
  split.
  - split; [exact H1|].
    destruct (proj1 (delete_session userId (lit "s-alice") w) H1) as (A & _ & _ & B & _).
    split; assumption.
  - split; [exact H2|]. exact (proj2 (delete_session userId (lit "s-bob") w) H2).
Defined.

(** ** Ownership *)

Lemma NoDup_map_inj {A B} (f : A -> B) (l : list A) a b :
  NoDup (map f l) -> In a l -> In b l -> f a = f b -> a = b.
Proof.
  induction l as [|x l IH]; simpl; [contradiction|].
  intros Hnd Ha Hb E. inversion Hnd as [|? ? Hx Hl]; subst.
  destruct Ha as [-> | Ha], Hb as [-> | Hb]; try reflexivity.
  - exfalso. apply Hx. rewrite E. now apply in_map.
  - exfalso. apply Hx. rewrite <- E. now apply in_map.
  - now apply IH.
Qed.

Lemma ownedSession_some d user dto e :
  ownedSession d user dto = Some e ->
  In e (chatSession d) /\ s_userId e = u_id user /\ sessionId dto = Some (s_id e).
Proof.
  unfold ownedSession. destruct (sessionId dto) as [sid|]; [|discriminate].
  destruct (truthy sid); [|discriminate].
  intros F. apply find_some in F as [Hin F].
  apply andb_true_iff in F as [Hid Hu]. apply eqb_eq in Hid, Hu.
  subst. auto.
Qed.

Lemma foreignId_intro d userId s :
  unique_session_ids d -> In s (chatSession d) -> s_userId s <> userId ->
  foreignId (s_id s) userId d.
Proof.
  intros Hu Hin Hf x Hx Hid.
  assert (x = s) by (eapply NoDup_map_inj; eauto). now subst.
Qed.

(** A row of another user is never the one a request resolves to. *)
Lemma foreign_not_found d userId s :
  unique_session_ids d -> In s (chatSession d) -> s_userId s <> userId ->
  find (ownedRow userId (s_id s)) (chatSession d) = None.
Proof.
  intros Hu Hin Hf. apply find_owned_none.
  exact (foreignId_intro d userId s Hu Hin Hf).
Qed.



Lemma messagesOf_addMessage sid m d :
  m_sessionId m <> sid -> messagesOf sid (addMessage m d) = messagesOf sid d.
Proof.
  intros H. unfold messagesOf, addMessage. cbn [chatMessage].
  rewrite filter_app. cbn [filter].
  apply eqb_neq in H. rewrite H. apply app_nil_r.
Qed.

Lemma messagesOf_afterResolve sid env user dto w :
  messagesOf sid (db (afterResolve env user dto w)) = messagesOf sid (db w).
Proof. unfold afterResolve. destruct (ownedSession (db w) user dto); reflexivity. Qed.

Lemma messagesOf_beforeCall sid env user dto w :
  targetSession env user dto (db w) <> sid ->
  messagesOf sid (db (beforeCall env user dto w)) = messagesOf sid (db w).
Proof.
  intros H. unfold beforeCall. cbn [db].
  rewrite messagesOf_addMessage by exact H. apply messagesOf_afterResolve.
Qed.

(** The three ways a run of [sendMessage] goes. *)
Lemma sendMessage_cases svc env user dto w :
  sendMessage svc env user dto w = (Throw missingKey, w) \/
  sendMessage svc env user dto w = (Throw PrismaClientError, w) \/
  truthy (openRouterApiKey svc) = true /\ sessionAccepted (db w) user dto = true.
Proof.
  destruct (truthy (openRouterApiKey svc)) eqn:Hk.
  - destruct (sessionAccepted (db w) user dto) eqn:Ha.
    + right. right. auto.
    + right. left. now apply sendMessage_refused.
  - left. now apply sendMessage_no_key.
Qed.

Lemma db_final svc env user dto w :
  truthy (openRouterApiKey svc) = true ->
  sessionAccepted (db w) user dto = true ->
  db (final (sendMessage svc env user dto) w) =
    match providerReply (revision svc) env with
    | Ok text =>
        addMessage (assistantRow env (targetSession env user dto (db w)) text)
          (db (beforeCall env user dto w))
    | Throw _ => db (beforeCall env user dto w)
    end.
Proof.
  intros Hk Ha. unfold final. rewrite (sendMessage_outcome svc env user dto w Hk Ha).
  cbv zeta. destruct (providerReply (revision svc) env); reflexivity.
Qed.

Lemma messagesOf_final sid svc env user dto w :
  targetSession env user dto (db w) <> sid ->
  messagesOf sid (db (final (sendMessage svc env user dto) w)) = messagesOf sid (db w).
Proof.
  intros H.
  destruct (sendMessage_cases svc env user dto w) as [E | [E | [Hk Ha]]];
    try (unfold final; now rewrite E).
  rewrite (db_final svc env user dto w Hk Ha).
  destruct (providerReply (revision svc) env).
  - rewrite messagesOf_addMessage by exact H. now apply messagesOf_beforeCall.
  - now apply messagesOf_beforeCall.
Qed.

Lemma userRow_in_final svc env user dto w :
  truthy (openRouterApiKey svc) = true ->
  sessionAccepted (db w) user dto = true ->
  In (userRow env (targetSession env user dto (db w)) dto)
     (chatMessage (db (final (sendMessage svc env user dto) w))).
Proof.
  intros Hk Ha. rewrite (db_final svc env user dto w Hk Ha).
  assert (H : In (userRow env (targetSession env user dto (db w)) dto)
                 (chatMessage (db (beforeCall env user dto w)))).
  { unfold beforeCall. cbn [db]. apply in_addMessage. }
  destruct (providerReply (revision svc) env);
    [now apply in_addMessage_other | assumption].
Qed.




(** ** The world without a session of someone else *)










Section Hidden.

Variables (env : Env) (user : User) (dto : SendChatDto) (w : World) (sid : jsstring).
Hypothesis Hforeign : foreignId sid (u_id user) (db w).
Hypothesis Hfresh : env_sessionId env <> sid.









End Hidden.







(** ** The matcher *)

Lemma first_some_inv {A B} (f : A -> option B) l b :
  first_some f l = Some b -> exists x, In x l /\ f x = Some b.
Proof.
  induction l as [|x l IH]; simpl; [discriminate|].
  destruct (f x) as [b'|] eqn:E.
  - intros H. injection H as <-. exists x. auto.
  - intros H. destruct (IH H) as (y & Hy & Ey). exists y. auto.
Qed.

Lemma candidates_bounds a s k :
  In k (candidates a s) -> lo a <= k /\ k <= cap a s.
Proof.
  unfold candidates. intros H.
  assert (H' : In k (seq (lo a) (S (cap a s) - lo a))).
  { destruct (greedy a); [now apply in_rev in H | assumption]. }
  apply in_seq in H'. lia.
Qed.

Lemma cap_le_run a s : cap a s <= run (cls a) s.
Proof. unfold cap. destruct (hi a); lia. Qed.

Lemma cap_le_hi a s h : hi a = Some h -> cap a s <= h.
Proof. unfold cap. intros ->. lia. Qed.

Lemma run_firstn p s k :
  k <= run p s -> Forall (fun c => p c = true) (firstn k s) /\ length (firstn k s) = k.
Proof.
  revert k. induction s as [|c t IH]; intros k; simpl.
  - intros H. assert (k = 0) by lia. subst. simpl. auto.
  - destruct (p c) eqn:E; intros H.
    + destruct k as [|k]; simpl; [auto|].
      destruct (IH k) as [F L]; [lia|]. split; [constructor; assumption | now rewrite L].
    + assert (k = 0) by lia. subst. simpl. auto.
Qed.

Lemma match_here_sound re : forall s ps rest,
  match_here re s = Some (ps, rest) ->
  pieces re ps /\ s = concat ps ++ rest.
Proof.
  induction re as [|a re IH]; intros s ps rest; simpl.
  - intros H. injection H as <- <-. split; [constructor | reflexivity].
  - intros H. apply first_some_inv in H as (k & Hk & H).
    destruct (match_here re (skipn k s)) as [[ps' rest']|] eqn:E; [|discriminate].
    injection H as <- <-.
    apply IH in E as [Hp Hs].
    apply candidates_bounds in Hk as [Hlo Hcap].
    pose proof (cap_le_run a s) as Hrun.
    destruct (run_firstn (cls a) s k) as [F L]; [lia|].
    split.
    + constructor; try assumption; [lia|].
      intros h Hh. pose proof (cap_le_hi a s h Hh). lia.
    + simpl. rewrite <- app_assoc, <- Hs. symmetry. apply firstn_skipn.
Qed.

Lemma pieces_one c re p ps :
  pieces (one c :: re) (p :: ps) -> p = [c] /\ pieces re ps.
Proof.
  intros H. inversion H as [|? ? ? ? F Hlo Hhi Hre]; subst. split; [|assumption].
  simpl in *. specialize (Hhi 1 eq_refl).
  destruct p as [|x [|y p]]; simpl in *; try lia.
  inversion F as [|? ? E _]; subst. apply N.eqb_eq in E. now subst.
Qed.

(** ** Emphasis patterns *)

Lemma reaches_through m p r :
  Forall (fun c => dot c = true) p -> reaches m (p ++ m :: r) = true.
Proof.
  induction 1 as [|c p Hc _ IH]; simpl.
  - now rewrite N.eqb_refl.
  - unfold dot in Hc. rewrite Hc, IH. apply orb_true_r.
Qed.

Lemma pieces_dot re p ps :
  pieces (mkAtom dot 1 None false :: re) (p :: ps) ->
  exists d p', p = d :: p' /\ Forall (fun c => dot c = true) (d :: p') /\ pieces re ps.
Proof.
  intros H. inversion H as [|? ? ? ? F Hlo _ Hre]; subst. simpl in *.
  destruct p as [|d p']; simpl in *; [lia|]. eauto.
Qed.

Lemma italic_match m s ps rest :
  match_here [one m; mkAtom dot 1 None false; one m] s = Some (ps, rest) ->
  opensPair m s = true.
Proof.
  intros H. apply match_here_sound in H as [Hp ->].
  destruct ps as [|p1 ps]; [inversion Hp|].
  apply pieces_one in Hp as [-> Hp].
  destruct ps as [|p2 ps]; [inversion Hp|].
  apply pieces_dot in Hp as (d & p' & -> & F & Hp).
  destruct ps as [|p3 ps]; [inversion Hp|].
  apply pieces_one in Hp as [-> Hp]. inversion Hp; subst.
  inversion F as [|? ? Hd F']; subst.
  simpl. rewrite N.eqb_refl. unfold dot in Hd. rewrite Hd. simpl.
  rewrite <- app_assoc. simpl. now apply reaches_through.
Qed.

Lemma bold_match s ps rest :
  match_here bold_re s = Some (ps, rest) -> opensPair star s = true.
Proof.
  intros H. apply match_here_sound in H as [Hp ->]. unfold bold_re in Hp.
  destruct ps as [|p1 ps]; [inversion Hp|].
  apply pieces_one in Hp as [-> Hp].
  destruct ps as [|p2 ps]; [inversion Hp|].
  apply pieces_one in Hp as [-> Hp].
  destruct ps as [|p3 ps]; [inversion Hp|].
  apply pieces_dot in Hp as (d & p' & -> & F & Hp).
  destruct ps as [|p4 ps]; [inversion Hp|].
  apply pieces_one in Hp as [-> Hp].
  cbn [concat app]. rewrite <- app_assoc. cbn [app].
  unfold opensPair. rewrite N.eqb_refl.
  change (isLineTerminator star) with false. cbn [negb andb].
  apply (reaches_through star (d :: p') _ F).
Qed.

(** A global replace whose pattern matches nowhere returns its input. *)
Lemma replace_all_no_match re group m s :
  (forall t ps rest, match_here re t = Some (ps, rest) -> opensPair m t = true) ->
  hasPair m s = false ->
  replace_all re group 0 s = s.
Proof.
  intros Hre. induction s as [|c t IH]; [reflexivity|].
  intros H. change (hasPair m (c :: t)) with (opensPair m (c :: t) || hasPair m t) in H.
  apply orb_false_iff in H as [Ho Hp].
  cbn [replace_all].
  destruct (match_here re (c :: t)) as [[ps rest]|] eqn:E.
  - apply Hre in E. congruence.
  - now rewrite IH.
Qed.

Lemma emphasis_untouched s :
  hasPair star s = false -> hasPair underscore s = false ->
  replace_all underscore_re 1 0
    (replace_all star_re 1 0 (replace_all bold_re 2 0 s)) = s.
Proof.
  intros Hs Hu.
  rewrite (replace_all_no_match bold_re 2 star s bold_match Hs).
  rewrite (replace_all_no_match star_re 1 star s (italic_match star) Hs).
  now rewrite (replace_all_no_match underscore_re 1 underscore s
                 (italic_match underscore) Hu).
Qed.

(** ** Line patterns *)

Lemma dropWhile_app_all p a b :
  Forall (fun c => p c = true) a -> dropWhile p (a ++ b) = dropWhile p b.
Proof. induction 1 as [|c a Hc _ IH]; simpl; [reflexivity | now rewrite Hc]. Qed.

Lemma run_app_all p a b :
  Forall (fun c => p c = true) a -> run p (a ++ b) = length a + run p b.
Proof. induction 1 as [|c a Hc _ IH]; simpl; [reflexivity | now rewrite Hc, IH]. Qed.

Lemma skipn_length_app {A} (a b : list A) : skipn (length a) (a ++ b) = b.
Proof. induction a; simpl; auto. Qed.

Lemma space_not c m : isSpace m = false -> isSpace c = true -> N.eqb m c = false.
Proof.
  intros Hm Hc. apply N.eqb_neq. intros E. subst. congruence.
Qed.

Lemma pieces_spaces lo0 re p ps :
  pieces (mkAtom isSpace lo0 None true :: re) (p :: ps) ->
  Forall (fun c => isSpace c = true) p /\ lo0 <= length p /\ pieces re ps.
Proof. intros H. inversion H; subst. simpl in *. auto. Qed.

Lemma heading_match l ps rest :
  match_here heading_re l = Some (ps, rest) -> headingStart l = true.
Proof.
  intros H. apply match_here_sound in H as [Hp ->]. unfold heading_re in Hp.
  destruct ps as [|p1 ps]; [inversion Hp|].
  apply pieces_spaces in Hp as (F1 & _ & Hp).
  destruct ps as [|p2 ps]; [inversion Hp|].
  inversion Hp as [|? ? ? ? F2 Hlo2 Hhi2 Hp']; subst. clear Hp. cbn [cls lo hi] in F2, Hlo2, Hhi2.
  specialize (Hhi2 6 eq_refl).
  destruct ps as [|p3 ps]; [inversion Hp'|].
  apply pieces_spaces in Hp' as (F3 & Hlo3 & Hp'). inversion Hp'; subst.
  destruct p2 as [|h p2]; [simpl in Hlo2; lia|].
  destruct p3 as [|c p3]; [simpl in Hlo3; lia|].
  inversion F3 as [|? ? Hc _]; subst.
  assert (Hh : h = hash).
  { inversion F2 as [|? ? E _]; subst. apply N.eqb_eq in E. now subst. }
  subst h.
  unfold headingStart. cbn [concat]. rewrite !app_nil_r, <- !app_assoc.
  rewrite (dropWhile_app_all isSpace p1 _ F1).
  change ((hash :: p2) ++ (c :: p3) ++ rest) with (hash :: (p2 ++ (c :: p3) ++ rest)).
  cbn [dropWhile]. change (isSpace hash) with false. cbv iota.
  change (hash :: p2 ++ (c :: p3) ++ rest) with ((hash :: p2) ++ (c :: p3) ++ rest).
  rewrite (run_app_all (N.eqb hash) (hash :: p2) _ F2).
  cbn [app run]. rewrite (space_not c hash eq_refl Hc). rewrite Nat.add_0_r.
  change (hash :: p2 ++ c :: p3 ++ rest) with ((hash :: p2) ++ c :: p3 ++ rest).
  rewrite skipn_length_app. rewrite Hc.
  cbn [length] in *. rewrite andb_true_r. apply andb_true_iff. split.
  - reflexivity.
  - apply Nat.leb_le. lia.
Qed.

Lemma dash_match l ps rest :
  match_here dash_re l = Some (ps, rest) -> dashStart l = true.
Proof.
  intros H. apply match_here_sound in H as [Hp ->]. unfold dash_re in Hp.
  destruct ps as [|p1 ps]; [inversion Hp|].
  apply pieces_spaces in Hp as (F1 & _ & Hp).
  destruct ps as [|p2 ps]; [inversion Hp|].
  apply pieces_one in Hp as [-> Hp].
  destruct ps as [|p3 ps]; [inversion Hp|].
  apply pieces_spaces in Hp as (F3 & Hlo3 & Hp). inversion Hp; subst.
  destruct p3 as [|c p3]; [simpl in Hlo3; lia|].
  inversion F3 as [|? ? Hc _]; subst.
  unfold dashStart. cbn [concat]. rewrite !app_nil_r, <- !app_assoc.
  rewrite (dropWhile_app_all isSpace p1 _ F1).
  cbn [app dropWhile]. change (isSpace dash) with false. cbv iota.
  now rewrite N.eqb_refl, Hc.
Qed.

Lemma strip_prefix_no_match re (test : jsstring -> bool) l :
  (forall ps rest, match_here re l = Some (ps, rest) -> test l = true) ->
  test l = false -> strip_prefix re l = l.
Proof.
  intros Hre Ht. unfold strip_prefix.
  destruct (match_here re l) as [[ps rest]|]; [|reflexivity].
  specialize (Hre ps rest eq_refl). congruence.
Qed.

Lemma strip_line_plain l : blockStart l = false -> strip_line l = l.
Proof.
  unfold blockStart, strip_line. intros H. apply orb_false_iff in H as [Hh Hd].
  rewrite (strip_prefix_no_match heading_re headingStart l (heading_match l) Hh).
  apply (strip_prefix_no_match dash_re dashStart l (dash_match l) Hd).
Qed.

(** ** Lines *)

Lemma split_lines_nonempty s : split_lines s <> [].
Proof.
  destruct s as [|c t]; simpl; [discriminate|].
  destruct (split_lines t); [discriminate|].
  destruct (N.eqb c LF); discriminate.
Qed.

Lemma join_split_lines s : join [LF] (split_lines s) = s.
Proof.
  induction s as [|c t IH]; [reflexivity|].
  cbn [split_lines]. pose proof (split_lines_nonempty t) as Hne.
  destruct (split_lines t) as [|l ls]; [contradiction|].
  destruct (N.eqb c LF) eqn:E.
  - apply N.eqb_eq in E. subst c. change (join [LF] ([] :: l :: ls)) with ([] ++ [LF] ++ join [LF] (l :: ls)).
    now rewrite IH.
  - rewrite <- IH. destruct ls; reflexivity.
Qed.

Lemma lines_untouched s :
  hasBlockMarker s = false -> map strip_line (split_lines s) = split_lines s.
Proof.
  unfold hasBlockMarker. intros H.
  rewrite <- (map_id (split_lines s)) at 2. apply map_ext_in.
  intros l Hl. apply strip_line_plain.
  destruct (blockStart l) eqn:E; [|reflexivity].
  assert (existsb blockStart (split_lines s) = true)
    by (apply existsb_exists; eauto).
  congruence.
Qed.

(** Without emphasis pairs and block markers the sanitizer only trims. *)
Lemma sanitize_is_trim s :
  hasPair star s = false -> hasPair underscore s = false ->
  hasBlockMarker s = false ->
  sanitizeAssistantContent s = trim s.
Proof.
  intros Hs Hu Hb. unfold sanitizeAssistantContent.
  destruct s as [|c t]; [reflexivity|]. cbn [truthy negb]. cbv zeta.
  rewrite (emphasis_untouched _ Hs Hu), (lines_untouched _ Hb).
  now rewrite join_split_lines.
Qed.

(** ** Trimming *)

Lemma dropWhile_split p s :
  exists w, s = w ++ dropWhile p s /\ Forall (fun c => p c = true) w.
Proof.
  induction s as [|c t (w & E & F)]; simpl.
  - exists []. auto.
  - destruct (p c) eqn:Hc.
    + exists (c :: w). split; [simpl; now rewrite <- E | now constructor].
    + exists []. auto.
Qed.

Lemma dropWhile_head p s :
  dropWhile p s = [] \/ exists c t, dropWhile p s = c :: t /\ p c = false.
Proof.
  induction s as [|c t IH]; simpl; [now left|].
  destruct (p c) eqn:Hc; [assumption | right; eauto].
Qed.

Lemma trimEnd_split s :
  exists r, s = trimEnd s ++ r /\ Forall (fun c => isSpace c = true) r.
Proof.
  induction s as [|c t (r & E & F)]; simpl.
  - exists []. auto.
  - destruct (trimEnd t) as [|d u] eqn:Ht.
    + simpl in E. destruct (isSpace c) eqn:Hc.
      * exists (c :: t). split; [reflexivity|]. subst t. now constructor.
      * exists r. split; [simpl; f_equal; exact E | assumption].
    + exists r. split; [simpl; f_equal; exact E | assumption].
Qed.

Lemma trimEnd_idem s : trimEnd (trimEnd s) = trimEnd s.
Proof.
  induction s as [|c t IH]; [reflexivity|]. simpl.
  destruct (trimEnd t) as [|d u] eqn:Ht.
  - destruct (isSpace c) eqn:Hc; simpl; [reflexivity | now rewrite Hc].
  - change (trimEnd (c :: d :: u)) with
      (match trimEnd (d :: u) with
       | [] => if isSpace c then [] else [c]
       | r => c :: r
       end).
    now rewrite IH.
Qed.

Lemma trimEnd_head c t : isSpace c = false -> exists u, trimEnd (c :: t) = c :: u.
Proof.
  intros Hc. simpl. destruct (trimEnd t); [rewrite Hc|]; eauto.
Qed.

Lemma trim_idem s : trim (trim s) = trim s.
Proof.
  unfold trim. destruct (dropWhile_head isSpace s) as [-> | (c & t & -> & Hc)].
  - reflexivity.
  - destruct (trimEnd_head c t Hc) as (u & E). rewrite E.
    cbn [dropWhile]. rewrite Hc. rewrite <- E. apply trimEnd_idem.
Qed.

(** [trim s] is a piece of [s] between two runs of white space. *)
Lemma trim_split s :
  exists w r, s = w ++ trim s ++ r /\ Forall (fun c => isSpace c = true) w.
Proof.
  destruct (dropWhile_split isSpace s) as (w & E & F).
  destruct (trimEnd_split (dropWhile isSpace s)) as (r & E' & _).
  exists w, r. split; [|assumption]. unfold trim. now rewrite <- E', <- E.
Qed.

Lemma trim_word s : forallb (fun c => negb (isSpace c)) s = true -> trim s = s.
Proof.
  intros H. unfold trim.
  assert (D : dropWhile isSpace s = s).
  { destruct s as [|c t]; [reflexivity|]. simpl in *.
    apply andb_true_iff in H as [Hc _]. apply negb_true_iff in Hc. now rewrite Hc. }
  rewrite D. clear D. induction s as [|c t IH]; [reflexivity|].
  simpl in *. apply andb_true_iff in H as [Hc Ht]. apply negb_true_iff in Hc.
  rewrite (IH Ht). rewrite Hc. destruct t; reflexivity.
Qed.

(** ** Markers in a piece of the text *)

Lemma reaches_app m s r : reaches m s = true -> reaches m (s ++ r) = true.
Proof.
  induction s as [|c t IH]; simpl; [discriminate|].
  destruct (N.eqb c m); [reflexivity|]. simpl.
  destruct (isLineTerminator c); simpl; [discriminate | exact IH].
Qed.

Lemma opensPair_app m s r : opensPair m s = true -> opensPair m (s ++ r) = true.
Proof.
  destruct s as [|c [|d t]]; simpl; try discriminate.
  intros H. apply andb_true_iff in H as [H1 H2]. rewrite H1. simpl.
  now apply reaches_app.
Qed.

Lemma hasPair_prefix m s r : hasPair m s = true -> hasPair m (s ++ r) = true.
Proof.
  induction s as [|c t IH]; [discriminate|].
  change (hasPair m (c :: t)) with (opensPair m (c :: t) || hasPair m t).
  change (hasPair m ((c :: t) ++ r)) with
    (opensPair m ((c :: t) ++ r) || hasPair m (t ++ r)).
  intros H. apply orb_true_iff in H as [H|H]; apply orb_true_iff.
  - left. now apply opensPair_app.
  - right. now apply IH.
Qed.

Lemma hasPair_suffix m w s : hasPair m s = true -> hasPair m (w ++ s) = true.
Proof.
  intros H. induction w as [|c w IH]; [assumption|].
  change (hasPair m ((c :: w) ++ s)) with
    (opensPair m ((c :: w) ++ s) || hasPair m (w ++ s)).
  rewrite IH. apply orb_true_r.
Qed.

Lemma hasPair_trim m s : hasPair m s = false -> hasPair m (trim s) = false.
Proof.
  intros H. destruct (hasPair m (trim s)) eqn:E; [|reflexivity].
  destruct (trim_split s) as (w & r & Hs & _).
  rewrite Hs in H. rewrite hasPair_suffix in H; [discriminate|].
  now apply hasPair_prefix.
Qed.

(** ** Block markers in a piece of the text *)

Lemma headingStart_intro w h c rest :
  Forall (fun x => isSpace x = true) w ->
  Forall (fun x => N.eqb hash x = true) h ->
  1 <= length h <= 6 ->
  isSpace c = true ->
  headingStart (w ++ h ++ c :: rest) = true.
Proof.
  intros Fw Fh Hlen Hc. unfold headingStart.
  rewrite (dropWhile_app_all isSpace w _ Fw).
  destruct h as [|x h]; [simpl in Hlen; lia|].
  assert (x = hash).
  { inversion Fh as [|? ? E _]; subst. apply N.eqb_eq in E. now subst. }
  subst x.
  change ((hash :: h) ++ c :: rest) with (hash :: (h ++ c :: rest)).
  cbn [dropWhile]. change (isSpace hash) with false. cbv iota.
  change (hash :: h ++ c :: rest) with ((hash :: h) ++ c :: rest).
  rewrite (run_app_all (N.eqb hash) (hash :: h) _ Fh).
  cbn [run]. rewrite (space_not c hash eq_refl Hc). rewrite Nat.add_0_r.
  rewrite skipn_length_app. rewrite Hc, andb_true_r.
  apply andb_true_iff. split; apply Nat.leb_le; apply Hlen.
Qed.

Lemma headingStart_elim l :
  headingStart l = true ->
  exists w h c rest,
    l = w ++ h ++ c :: rest /\
    Forall (fun x => isSpace x = true) w /\
    Forall (fun x => N.eqb hash x = true) h /\
    1 <= length h <= 6 /\ isSpace c = true.
Proof.
  unfold headingStart. intros H.
  destruct (dropWhile_split isSpace l) as (w & E & Fw).
  set (r := dropWhile isSpace l) in *.
  set (k := run (N.eqb hash) r) in *.
  apply andb_true_iff in H as [H Hc]. apply andb_true_iff in H as [H1 H6].
  apply Nat.leb_le in H1, H6.
  destruct (skipn k r) as [|c rest] eqn:Hs; [discriminate|].
  destruct (run_firstn (N.eqb hash) r k (Nat.le_refl _)) as [Fh Lh].
  exists w, (firstn k r), c, rest.
  split; [rewrite <- Hs, firstn_skipn; exact E|].
  split; [assumption|]. split; [assumption|]. rewrite Lh.
  split; [split|]; assumption.
Qed.

Lemma dashStart_intro w c rest :
  Forall (fun x => isSpace x = true) w -> isSpace c = true ->
  dashStart (w ++ dash :: c :: rest) = true.
Proof.
  intros Fw Hc. unfold dashStart. rewrite (dropWhile_app_all isSpace w _ Fw).
  cbn [dropWhile]. change (isSpace dash) with false. cbv iota.
  now rewrite N.eqb_refl, Hc.
Qed.

Lemma dashStart_elim l :
  dashStart l = true ->
  exists w c rest,
    l = w ++ dash :: c :: rest /\
    Forall (fun x => isSpace x = true) w /\ isSpace c = true.
Proof.
  unfold dashStart. intros H.
  destruct (dropWhile_split isSpace l) as (w & E & Fw).
  destruct (dropWhile isSpace l) as [|x [|c rest]]; try discriminate.
  apply andb_true_iff in H as [Hx Hc]. apply N.eqb_eq in Hx. subst x.
  exists w, c, rest. auto.
Qed.

Lemma blockStart_app l z : blockStart l = true -> blockStart (l ++ z) = true.
Proof.
  unfold blockStart. intros H. apply orb_true_iff in H as [H|H]; apply orb_true_iff.
  - left. apply headingStart_elim in H as (w & h & c & rest & -> & Fw & Fh & Hl & Hc).
    rewrite <- !app_assoc. cbn [app].
    change (w ++ h ++ c :: rest ++ z) with (w ++ h ++ c :: (rest ++ z)).
    now apply headingStart_intro.
  - right. apply dashStart_elim in H as (w & c & rest & -> & Fw & Hc).
    rewrite <- !app_assoc. cbn [app]. now apply dashStart_intro.
Qed.

Lemma blockStart_spaces w l :
  Forall (fun x => isSpace x = true) w ->
  blockStart l = true -> blockStart (w ++ l) = true.
Proof.
  unfold blockStart. intros Fw H. apply orb_true_iff in H as [H|H]; apply orb_true_iff.
  - left. apply headingStart_elim in H as (w' & h & c & rest & -> & Fw' & Fh & Hl & Hc).
    rewrite app_assoc. apply headingStart_intro; try assumption.
    apply Forall_app. auto.
  - right. apply dashStart_elim in H as (w' & c & rest & -> & Fw' & Hc).
    rewrite app_assoc. apply dashStart_intro; try assumption.
    apply Forall_app. auto.
Qed.

Lemma blockStart_has_space l :
  blockStart l = true -> exists c, In c l /\ isSpace c = true.
Proof.
  unfold blockStart. intros H. apply orb_true_iff in H as [H|H].
  - apply headingStart_elim in H as (w & h & c & rest & -> & _ & _ & _ & Hc).
    exists c. split; [|assumption]. apply in_or_app. right. apply in_or_app. right. now left.
  - apply dashStart_elim in H as (w & c & rest & -> & _ & Hc).
    exists c. split; [|assumption]. apply in_or_app. right. right. now left.
Qed.

Lemma split_lines_app p r :
  exists ls l hd tl,
    split_lines p = ls ++ [l] /\ split_lines r = hd :: tl /\
    split_lines (p ++ r) = ls ++ (l ++ hd) :: tl.
Proof.
  induction p as [|c t (ls & l & hd & tl & Ht & Hr & Htr)].
  - pose proof (split_lines_nonempty r) as Hne.
    destruct (split_lines r) as [|hd tl] eqn:Hr; [contradiction|].
    exists [], [], hd, tl. simpl. auto.
  - exists (if N.eqb c LF then [] :: ls
            else match ls with [] => [] | l0 :: ls' => (c :: l0) :: ls' end),
           (if N.eqb c LF then l else match ls with [] => c :: l | _ => l end),
           hd, tl.
    change ((c :: t) ++ r) with (c :: (t ++ r)). cbn [split_lines].
    rewrite Ht, Htr. split; [|split; [assumption|]].
    + destruct ls as [|l0 ls']; cbn [app]; destruct (N.eqb c LF); reflexivity.
    + destruct ls as [|l0 ls']; cbn [app]; destruct (N.eqb c LF); reflexivity.
Qed.

Lemma in_join sep l ls c : In l ls -> In c l -> In c (join sep ls).
Proof.
  induction ls as [|p ls IH]; [contradiction|].
  intros [-> | H] Hc.
  - destruct ls as [|q ls]; [assumption|].
    change (In c (l ++ sep ++ join sep (q :: ls))). apply in_or_app. now left.
  - destruct ls as [|q ls]; [contradiction|].
    change (In c (p ++ sep ++ join sep (q :: ls))).
    apply in_or_app. right. apply in_or_app. right. now apply IH.
Qed.

Lemma line_chars s l c : In l (split_lines s) -> In c l -> In c s.
Proof.
  intros Hl Hc. rewrite <- (join_split_lines s). now apply in_join with l.
Qed.

Lemma hasBlockMarker_prefix p r :
  hasBlockMarker p = true -> hasBlockMarker (p ++ r) = true.
Proof.
  unfold hasBlockMarker.
  destruct (split_lines_app p r) as (ls & l & hd & tl & -> & _ & ->).
  rewrite !existsb_app. cbn [existsb]. rewrite orb_false_r.
  intros H. apply orb_true_iff in H as [H|H].
  - now rewrite H.
  - rewrite (blockStart_app l hd H). simpl. apply orb_true_r.
Qed.

Lemma hasBlockMarker_suffix w s :
  Forall (fun x => isSpace x = true) w ->
  hasBlockMarker s = true -> hasBlockMarker (w ++ s) = true.
Proof.
  unfold hasBlockMarker. intros Fw.
  destruct (split_lines_app w s) as (ls & l & hd & tl & Hw & -> & ->).
  rewrite existsb_app. cbn [existsb].
  intros H. apply orb_true_iff in H as [H|H].
  - assert (Fl : Forall (fun x => isSpace x = true) l).
    { apply Forall_forall. intros c Hc.
      apply (proj1 (Forall_forall _ _) Fw).
      apply line_chars with l; [|assumption].
      rewrite Hw. apply in_or_app. right. now left. }
    rewrite (blockStart_spaces l hd Fl H). simpl. apply orb_true_r.
  - rewrite H. rewrite !orb_true_r. reflexivity.
Qed.

Lemma hasBlockMarker_trim s :
  hasBlockMarker s = false -> hasBlockMarker (trim s) = false.
Proof.
  intros H. destruct (hasBlockMarker (trim s)) eqn:E; [|reflexivity].
  destruct (trim_split s) as (w & r & Hs & Fw).
  rewrite Hs in H. rewrite hasBlockMarker_suffix in H; [discriminate | assumption |].
  now apply hasBlockMarker_prefix.
Qed.

Lemma hasBlockMarker_word s :
  forallb (fun c => negb (isSpace c)) s = true -> hasBlockMarker s = false.
Proof.
  intros H. destruct (hasBlockMarker s) eqn:E; [|reflexivity].
  unfold hasBlockMarker in E. apply existsb_exists in E as (l & Hl & Hb).
  apply blockStart_has_space in Hb as (c & Hc & Hsp).
  pose proof (line_chars s l c Hl Hc) as Hin.
  rewrite forallb_forall in H. apply H in Hin. rewrite Hsp in Hin. discriminate.
Qed.

(** ** The sanitizer *)

Lemma reaches_elim m t :
  reaches m t = true ->
  exists p c, t = p ++ m :: c /\ Forall (fun x => isLineTerminator x = false) p.
Proof.
  induction t as [|y t IH]; [discriminate|]. simpl.
  destruct (N.eqb y m) eqn:Ey.
  - intros _. apply N.eqb_eq in Ey. subst y. exists [], t. auto.
  - simpl. intros Hr. apply andb_true_iff in Hr as [Hy Hr].
    apply negb_true_iff in Hy.
    destruct (IH Hr) as (p & c & -> & F).
    exists (y :: p), c. split; [reflexivity | now constructor].
Qed.

(** What [hasPair] decides. *)
Lemma hasPair_spec m s :
  hasPair m s = true <->
  exists a b c,
    s = a ++ m :: b ++ m :: c /\ b <> [] /\
    Forall (fun x => isLineTerminator x = false) b.
Proof.
  split.
  - induction s as [|x t IH]; [discriminate|].
    change (hasPair m (x :: t)) with (opensPair m (x :: t) || hasPair m t).
    intros H. apply orb_true_iff in H as [H|H].
    + destruct t as [|d t]; [discriminate|]. simpl in H.
      apply andb_true_iff in H as [H Hr]. apply andb_true_iff in H as [Hx Hd].
      apply N.eqb_eq in Hx. subst x. apply negb_true_iff in Hd.
      destruct (reaches_elim m t Hr) as (p & c & -> & F).
      exists [], (d :: p), c. split; [reflexivity|].
      split; [discriminate | now constructor].
    + destruct (IH H) as (a & b & c & -> & Hb & F).
      exists (x :: a), b, c. auto.
  - intros (a & b & c & -> & Hb & F). apply hasPair_suffix.
    destruct b as [|d p]; [contradiction|]. inversion F as [|? ? Hd Fp]; subst.
    change (hasPair m (m :: (d :: p) ++ m :: c)) with
      (opensPair m (m :: d :: p ++ m :: c) || hasPair m ((d :: p) ++ m :: c)).
    apply orb_true_iff. left. simpl. rewrite N.eqb_refl, Hd. simpl.
    apply reaches_through. apply Forall_forall. intros y Hy.
    unfold dot. rewrite (proj1 (Forall_forall _ _) Fp y Hy). reflexivity.
Qed.

(** ** Deleting only *)

Lemma Subseq_refl s : Subseq s s.
Proof. induction s; constructor; assumption. Qed.

Lemma Subseq_empty s : Subseq [] s.
Proof. induction s; constructor; assumption. Qed.

Lemma Subseq_app a b c d : Subseq a b -> Subseq c d -> Subseq (a ++ c) (b ++ d).
Proof. induction 1; intros Hcd; simpl; try constructor; auto. Qed.

Lemma Subseq_trans a b c : Subseq a b -> Subseq b c -> Subseq a c.
Proof.
  intros Hab Hbc. revert a Hab.
  induction Hbc as [|x b c Hbc IH|x b c Hbc IH]; intros a Hab.
  - assumption.
  - inversion Hab; subst; constructor; auto.
  - constructor. auto.
Qed.

Lemma Subseq_length a b : Subseq a b -> length a <= length b.
Proof. induction 1; simpl; lia. Qed.

Lemma Subseq_In a b c : Subseq a b -> In c a -> In c b.
Proof.
  induction 1 as [|x a b Hab IH|x a b Hab IH]; simpl; intros Hc; auto.
  destruct Hc; auto.
Qed.

Lemma Subseq_suffix a b : Subseq b (a ++ b).
Proof. induction a; simpl; [apply Subseq_refl | now constructor]. Qed.

Lemma Subseq_prefix a b : Subseq a (a ++ b).
Proof. induction a; simpl; [apply Subseq_empty | now constructor]. Qed.

Lemma Subseq_middle a b c : Subseq b (a ++ b ++ c).
Proof.
  apply Subseq_trans with (b ++ c); [apply Subseq_prefix | apply Subseq_suffix].
Qed.

Lemma Subseq_piece (ps : list jsstring) n : Subseq (nth n ps []) (concat ps).
Proof.
  revert n. induction ps as [|p ps IH]; intros [|n]; simpl;
    try apply Subseq_empty.
  - apply Subseq_prefix.
  - apply Subseq_trans with (concat ps); [apply IH | apply Subseq_suffix].
Qed.

Lemma replace_all_deletes re group : forall s skip,
  Subseq (replace_all re group skip s) (skipn skip s).
Proof.
  induction s as [|c t IH]; intros skip.
  - destruct skip; constructor.
  - destruct skip as [|k]; cbn [replace_all skipn]; [|apply IH].
    destruct (match_here re (c :: t)) as [[ps rest]|] eqn:E;
      [|constructor; apply (IH 0)].
    destruct (length (concat ps)) as [|k] eqn:L; [constructor; apply (IH 0)|].
    apply match_here_sound in E as [_ E].
    assert (Hr : skipn k t = rest).
    { change (skipn k t) with (skipn (S k) (c :: t)).
      rewrite E, <- L. apply skipn_length_app. }
    rewrite E. apply Subseq_app; [apply Subseq_piece|].
    rewrite <- Hr. apply IH.
Qed.

Lemma strip_prefix_deletes re s : Subseq (strip_prefix re s) s.
Proof.
  unfold strip_prefix. destruct (match_here re s) as [[ps rest]|] eqn:E.
  - apply match_here_sound in E as [_ ->]. apply Subseq_suffix.
  - apply Subseq_refl.
Qed.

Lemma strip_line_deletes l : Subseq (strip_line l) l.
Proof.
  unfold strip_line.
  eapply Subseq_trans; [apply strip_prefix_deletes | apply strip_prefix_deletes].
Qed.

Lemma join_map_deletes sep (f : jsstring -> jsstring) ls :
  (forall l, Subseq (f l) l) -> Subseq (join sep (map f ls)) (join sep ls).
Proof.
  intros Hf. induction ls as [|l ls IH]; [constructor|].
  destruct ls as [|l' ls]; [apply Hf|].
  change (Subseq (f l ++ sep ++ join sep (map f (l' :: ls)))
                 (l ++ sep ++ join sep (l' :: ls))).
  apply Subseq_app; [apply Hf|]. apply Subseq_app; [apply Subseq_refl | exact IH].
Qed.

Lemma trim_deletes s : Subseq (trim s) s.
Proof.
  destruct (trim_split s) as (w & r & E & _). rewrite E at 2. apply Subseq_middle.
Qed.

(** ** What the matcher finds *)

Lemma match_one_here c re s :
  match_here (one c :: re) (c :: s) =
    match match_here re s with
    | Some (ps, rest) => Some ([c] :: ps, rest)
    | None => None
    end.
Proof.
  cbn [match_here]. unfold candidates, cap. cbn [one cls lo hi greedy run].
  rewrite N.eqb_refl. cbn. destruct (match_here re s) as [[ps rest]|]; reflexivity.
Qed.

Lemma match_one_other c d re s :
  d <> c -> match_here (one c :: re) (d :: s) = None.
Proof.
  intros H. cbn [match_here]. unfold candidates, cap. cbn [one cls lo hi greedy run].
  assert (E : N.eqb c d = false) by (apply N.eqb_neq; congruence).
  rewrite E. reflexivity.
Qed.

Lemma match_one_end c re : match_here (one c :: re) [] = None.
Proof. reflexivity. Qed.

Lemma first_some_skip {B} (f : nat -> option B) n : forall lo len,
  (forall k, lo <= k < lo + n -> f k = None) ->
  first_some f (seq lo (n + len)) = first_some f (seq (lo + n) len).
Proof.
  induction n as [|n IH]; intros lo len H.
  - now rewrite Nat.add_0_r.
  - cbn [Nat.add seq first_some]. rewrite (H lo) by lia.
    rewrite IH by (intros k Hk; apply H; lia).
    now replace (S lo + n) with (lo + S n) by lia.
Qed.

Lemma run_ge p t s :
  Forall (fun c => p c = true) t -> length t <= run p (t ++ s).
Proof. intros F. rewrite (run_app_all p t s F). lia. Qed.

(** A lazy [.+?] followed by a literal stops at the first occurrence of
    the literal. *)
Lemma lazy_until m re t s ps rest :
  t <> [] ->
  Forall (fun c => dot c = true) t ->
  Forall (fun c => c <> m) t ->
  match_here (one m :: re) s = Some (ps, rest) ->
  match_here (mkAtom dot 1 None false :: one m :: re) (t ++ s) = Some (t :: ps, rest).
Proof.
  intros Hne Fd Fm Hs.
  change (match_here (mkAtom dot 1 None false :: one m :: re) (t ++ s))
    with (first_some
            (fun k =>
               match match_here (one m :: re) (skipn k (t ++ s)) with
               | Some (ps, rest) => Some (firstn k (t ++ s) :: ps, rest)
               | None => None
               end)
            (candidates (mkAtom dot 1 None false) (t ++ s))).
  unfold candidates, cap. cbn [cls lo hi greedy].
  pose proof (run_ge dot t s Fd) as Hrun.
  assert (Hlen : 1 <= length t) by (destruct t; [contradiction | simpl; lia]).
  replace (S (run dot (t ++ s)) - 1)
    with ((length t - 1) + (S (run dot (t ++ s) - length t))) by lia.
  rewrite first_some_skip.
  - replace (1 + (length t - 1)) with (length t) by lia.
    cbn [seq first_some]. rewrite skipn_length_app, Hs.
    rewrite firstn_app, Nat.sub_diag, firstn_all. cbn [firstn].
    now rewrite app_nil_r.
  - intros k Hk.
    assert (Hsk : exists d u, skipn k (t ++ s) = d :: u /\ d <> m).
    { rewrite skipn_app. replace (k - length t) with 0 by lia. cbn [skipn].
      destruct (skipn k t) as [|d u] eqn:E.
      - apply (f_equal (@length _)) in E. rewrite length_skipn in E. simpl in E. lia.
      - exists d, (u ++ s). split; [reflexivity|].
        apply (proj1 (Forall_forall _ _) Fm).
        rewrite <- (firstn_skipn k t), E. apply in_or_app. right. now left. }
    destruct Hsk as (d & u & -> & Hd). now rewrite match_one_other.
Qed.

(** A greedy atom whose longest repetition lets the rest match takes
    that repetition. *)
Lemma greedy_first a re s ps rest :
  greedy a = true -> lo a <= cap a s ->
  match_here re (skipn (cap a s) s) = Some (ps, rest) ->
  match_here (a :: re) s = Some (firstn (cap a s) s :: ps, rest).
Proof.
  intros Hg Hlo Hm. cbn [match_here]. unfold candidates. rewrite Hg.
  replace (S (cap a s) - lo a) with (S (cap a s - lo a)) by lia.
  rewrite seq_S, rev_app_distr. cbn [rev app first_some].
  replace (lo a + (cap a s - lo a)) with (cap a s) by lia.
  now rewrite Hm.
Qed.

(** ** When a second pass changes nothing *)

Lemma Subseq_same_length a b : Subseq a b -> length a = length b -> a = b.
Proof.
  induction 1 as [|c a b Hab IH|c a b Hab IH]; intros L.
  - reflexivity.
  - f_equal. apply IH. simpl in L. lia.
  - exfalso. apply Subseq_length in Hab. simpl in L. lia.
Qed.

Lemma first_some_found {A B} (f : A -> option B) l x :
  In x l -> f x <> None -> first_some f l <> None.
Proof.
  induction l as [|y l IH]; [contradiction|].
  intros [-> | Hin] Hx; cbn [first_some].
  - destruct (f x); [discriminate | contradiction].
  - destruct (f y); [discriminate | now apply IH].
Qed.

(** The emphasis pattern for [m] matches wherever a pair opens. *)
Lemma pair_matches m s :
  opensPair m s = true ->
  match_here [one m; mkAtom dot 1 None false; one m] s <> None.
Proof.
  destruct s as [|c [|d t]]; try discriminate. cbn [opensPair].
  intros H. apply andb_true_iff in H as [H Hr]. apply andb_true_iff in H as [Hc Hd].
  apply N.eqb_eq in Hc. subst c.
  destruct (reaches_elim m t Hr) as (p & r & -> & Fp).
  rewrite match_one_here.
  assert (Fd : Forall (fun x => dot x = true) (d :: p)).
  { constructor; [exact Hd|]. eapply Forall_impl; [|exact Fp].
    intros x Hx. unfold dot. now rewrite Hx. }
  assert (M : match_here [mkAtom dot 1 None false; one m] (d :: p ++ m :: r) <> None).
  { change (match_here [mkAtom dot 1 None false; one m] (d :: p ++ m :: r))
      with (first_some
              (fun k =>
                 match match_here [one m] (skipn k (d :: p ++ m :: r)) with
                 | Some (ps, rest) => Some (firstn k (d :: p ++ m :: r) :: ps, rest)
                 | None => None
                 end)
              (candidates (mkAtom dot 1 None false) (d :: p ++ m :: r))).
    apply first_some_found with (x := S (length p)).
    - unfold candidates, cap. cbn [cls lo hi greedy]. apply in_seq.
      pose proof (run_ge dot (d :: p) (m :: r) Fd) as Hrun.
      cbn [length app] in Hrun. lia.
    - change (skipn (S (length p)) (d :: p ++ m :: r))
        with (skipn (length p) (p ++ m :: r)).
      rewrite skipn_length_app, match_one_here. cbn [match_here]. discriminate. }
  destruct (match_here [mkAtom dot 1 None false; one m] (d :: p ++ m :: r))
    as [[ps rest]|]; [discriminate | contradiction].
Qed.

(** A match of the emphasis pattern is two characters longer than its
    group. *)
Lemma pair_match_length m s ps rest :
  match_here [one m; mkAtom dot 1 None false; one m] s = Some (ps, rest) ->
  length (concat ps) = S (S (length (nth 1 ps []))).
Proof.
  intros H. apply match_here_sound in H as [Hp _].
  destruct ps as [|p1 ps]; [inversion Hp|].
  apply pieces_one in Hp as [-> Hp].
  destruct ps as [|p2 ps]; [inversion Hp|].
  apply pieces_dot in Hp as (d & p' & -> & _ & Hp).
  destruct ps as [|p3 ps]; [inversion Hp|].
  apply pieces_one in Hp as [-> Hp]. inversion Hp; subst.
  cbn [concat nth app length]. rewrite length_app. cbn [length app]. lia.
Qed.

Lemma replace_pair_shrinks m : forall s,
  hasPair m s = true ->
  length (replace_all [one m; mkAtom dot 1 None false; one m] 1 0 s) < length s.
Proof.
  induction s as [|c t IH]; [discriminate|].
  change (hasPair m (c :: t)) with (opensPair m (c :: t) || hasPair m t).
  intros H. cbn [replace_all].
  destruct (match_here [one m; mkAtom dot 1 None false; one m] (c :: t))
    as [[ps rest]|] eqn:E.
  - pose proof (pair_match_length m (c :: t) ps rest E) as L. rewrite L.
    pose proof (replace_all_deletes [one m; mkAtom dot 1 None false; one m] 1 t
                  (S (length (nth 1 ps [])))) as D.
    apply Subseq_length in D. rewrite length_skipn in D. rewrite length_app.
    apply match_here_sound in E as [_ E].
    apply (f_equal (@length _)) in E. rewrite length_app, L in E.
    cbn [length] in *. lia.
  - apply orb_true_iff in H as [H | H].
    + apply pair_matches in H. contradiction.
    + cbn [length]. apply IH in H. lia.
Qed.

Lemma replace_pair_fixed m s :
  replace_all [one m; mkAtom dot 1 None false; one m] 1 0 s = s ->
  hasPair m s = false.
Proof.
  intros E. destruct (hasPair m s) eqn:H; [|reflexivity].
  apply replace_pair_shrinks in H. rewrite E in H. lia.
Qed.

Lemma skipn_run p s : skipn (run p s) s = dropWhile p s.
Proof.
  induction s as [|c t IH]; [reflexivity|]. simpl.
  destruct (p c); [exact IH | reflexivity].
Qed.

Lemma spaces_match s :
  match s with c :: _ => isSpace c = true | [] => False end ->
  exists ps rest,
    match_here [mkAtom isSpace 1 None true] s = Some (ps, rest).
Proof.
  destruct s as [|c t]; [contradiction|]. intros Hc.
  eexists _, _. apply greedy_first; [reflexivity | | reflexivity].
  unfold cap. cbn [hi cls lo run]. rewrite Hc. lia.
Qed.

(** The heading pattern matches wherever a heading marker starts the
    line, and takes at least the [#]. *)
Lemma heading_matches l :
  headingStart l = true ->
  exists ps rest, match_here heading_re l = Some (ps, rest) /\ length rest < length l.
Proof.
  unfold headingStart. intros H.
  apply andb_true_iff in H as [H Hc]. apply andb_true_iff in H as [H1 H6].
  apply Nat.leb_le in H1, H6.
  set (r := dropWhile isSpace l) in *. set (k := run (N.eqb hash) r) in *.
  destruct (skipn k r) as [|c rest0] eqn:Hs; [discriminate|].
  destruct (spaces_match (c :: rest0) Hc) as (ps3 & rest & M3).
  assert (M2 : match_here [mkAtom (N.eqb hash) 1 (Some 6) true;
                           mkAtom isSpace 1 None true] r =
               Some (firstn k r :: ps3, rest)).
  { assert (Ek : cap (mkAtom (N.eqb hash) 1 (Some 6) true) r = k).
    { unfold cap. cbn [hi cls]. fold k. lia. }
    rewrite <- Ek. apply greedy_first; [reflexivity | rewrite Ek; cbn [lo]; lia |].
    rewrite Ek, Hs. exact M3. }
  assert (M1 : match_here heading_re l =
               Some (firstn (run isSpace l) l :: firstn k r :: ps3, rest)).
  { unfold heading_re.
    change (run isSpace l) with (cap (mkAtom isSpace 0 None true) l).
    apply greedy_first; [reflexivity | cbn [lo]; lia |].
    change (cap (mkAtom isSpace 0 None true) l) with (run isSpace l).
    rewrite skipn_run. exact M2. }
  eexists _, _. split; [exact M1|].
  apply match_here_sound in M1 as [_ E].
  apply (f_equal (@length _)) in E. cbn [concat] in E. rewrite !length_app in E.
  destruct (run_firstn (N.eqb hash) r k (Nat.le_refl _)) as [_ Lk]. lia.
Qed.

Lemma dash_matches l :
  dashStart l = true ->
  exists ps rest, match_here dash_re l = Some (ps, rest) /\ length rest < length l.
Proof.
  unfold dashStart. intros H.
  destruct (dropWhile isSpace l) as [|x [|d rest0]] eqn:Hr; try discriminate.
  apply andb_true_iff in H as [Hx Hd]. apply N.eqb_eq in Hx. subst x.
  destruct (spaces_match (d :: rest0) Hd) as (ps3 & rest & M3).
  assert (M1 : match_here dash_re l =
               Some (firstn (run isSpace l) l :: [dash] :: ps3, rest)).
  { unfold dash_re.
    change (run isSpace l) with (cap (mkAtom isSpace 0 None true) l).
    apply greedy_first; [reflexivity | cbn [lo]; lia |].
    change (cap (mkAtom isSpace 0 None true) l) with (run isSpace l).
    rewrite skipn_run, Hr, match_one_here, M3. reflexivity. }
  eexists _, _. split; [exact M1|].
  apply match_here_sound in M1 as [_ E].
  apply (f_equal (@length _)) in E. cbn [concat] in E. rewrite !length_app in E.
  cbn [length] in E. lia.
Qed.

Lemma strip_prefix_fixed re (test : jsstring -> bool) l :
  (test l = true ->
   exists ps rest, match_here re l = Some (ps, rest) /\ length rest < length l) ->
  strip_prefix re l = l -> test l = false.
Proof.
  intros Hm E. destruct (test l) eqn:T; [|reflexivity].
  destruct (Hm eq_refl) as (ps & rest & M & L).
  unfold strip_prefix in E. rewrite M in E. subst rest. lia.
Qed.

Lemma strip_line_fixed l : strip_line l = l -> blockStart l = false.
Proof.
  unfold strip_line, blockStart. intros E.
  pose proof (strip_prefix_deletes heading_re l) as D1.
  pose proof (strip_prefix_deletes dash_re (strip_prefix heading_re l)) as D2.
  assert (E1 : strip_prefix heading_re l = l).
  { apply Subseq_same_length; [assumption|].
    apply Subseq_length in D1, D2. rewrite E in D2. lia. }
  rewrite E1 in E.
  rewrite (strip_prefix_fixed heading_re headingStart l (heading_matches l) E1).
  exact (strip_prefix_fixed dash_re dashStart l (dash_matches l) E).
Qed.

Lemma join_map_fixed sep (f : jsstring -> jsstring) ls :
  (forall l, Subseq (f l) l) ->
  join sep (map f ls) = join sep ls -> forall l, In l ls -> f l = l.
Proof.
  intros Hf. induction ls as [|l0 ls IH]; [intros _ l []|].
  destruct ls as [|l1 ls].
  - cbn [map join]. intros E l [<- | []]. exact E.
  - change (join sep (map f (l0 :: l1 :: ls)))
      with (f l0 ++ sep ++ join sep (map f (l1 :: ls))).
    change (join sep (l0 :: l1 :: ls)) with (l0 ++ sep ++ join sep (l1 :: ls)).
    intros E.
    pose proof (Hf l0) as D0.
    pose proof (join_map_deletes sep f (l1 :: ls) Hf) as D1.
    assert (L : length (f l0) = length l0 /\
                length (join sep (map f (l1 :: ls))) = length (join sep (l1 :: ls))).
    { apply (f_equal (@length _)) in E. rewrite !length_app in E.
      apply Subseq_length in D0, D1. lia. }
    destruct L as [L0 L1].
    intros l [<- | Hl].
    + now apply Subseq_same_length.
    + apply IH; [|assumption]. now apply Subseq_same_length.
Qed.

(** A text the sanitizer returns as it is holds no marker. *)
Lemma sanitize_fixed y :
  sanitizeAssistantContent y = y ->
  hasPair star y = false /\ hasPair underscore y = false /\ hasBlockMarker y = false.
Proof.
  unfold sanitizeAssistantContent. destruct y as [|c t]; [auto|].
  cbn [truthy negb]. cbv zeta.
  remember (c :: t) as y eqn:Hy.
  remember (replace_all bold_re 2 0 y) as c1 eqn:Hc1.
  remember (replace_all star_re 1 0 c1) as c2 eqn:Hc2.
  remember (replace_all underscore_re 1 0 c2) as c3 eqn:Hc3.
  remember (join [LF] (map strip_line (split_lines c3))) as j eqn:Hj.
  intros E.
  pose proof (replace_all_deletes bold_re 2 y 0) as D1.
  pose proof (replace_all_deletes star_re 1 c1 0) as D2.
  pose proof (replace_all_deletes underscore_re 1 c2 0) as D3.
  pose proof (join_map_deletes [LF] strip_line (split_lines c3) strip_line_deletes) as D4.
  rewrite join_split_lines in D4.
  pose proof (trim_deletes j) as D5.
  cbn [skipn] in D1, D2, D3.
  rewrite <- Hc1 in D1. rewrite <- Hc2 in D2. rewrite <- Hc3 in D3. rewrite <- Hj in D4.
  assert (L : length c1 = length y /\ length c2 = length c1 /\
              length c3 = length c2 /\ length j = length c3).
  { pose proof (Subseq_length _ _ D1). pose proof (Subseq_length _ _ D2).
    pose proof (Subseq_length _ _ D3). pose proof (Subseq_length _ _ D4).
    pose proof (Subseq_length _ _ D5). rewrite E in *. lia. }
  destruct L as (L1 & L2 & L3 & L4).
  assert (E1 : c1 = y) by now apply Subseq_same_length.
  assert (E2 : c2 = c1) by now apply Subseq_same_length.
  assert (E3 : c3 = c2) by now apply Subseq_same_length.
  assert (E4 : j = c3) by now apply Subseq_same_length.
  assert (S2 : replace_all star_re 1 0 y = y) by congruence.
  assert (S3 : replace_all underscore_re 1 0 y = y) by congruence.
  assert (S4 : join [LF] (map strip_line (split_lines y)) = join [LF] (split_lines y)).
  { rewrite join_split_lines. congruence. }
  split; [exact (replace_pair_fixed star y S2)|].
  split; [exact (replace_pair_fixed underscore y S3)|].
  pose proof (join_map_fixed [LF] strip_line (split_lines y) strip_line_deletes S4) as F.
  unfold hasBlockMarker. destruct (existsb blockStart (split_lines y)) eqn:X;
    [|reflexivity].
  apply existsb_exists in X as (l & Hl & Hb).
  rewrite (strip_line_fixed l (F l Hl)) in Hb. discriminate.
Qed.

(** The sanitizer's result is trimmed. *)
Lemma sanitize_trimmed x :
  trim (sanitizeAssistantContent x) = sanitizeAssistantContent x.
Proof.
  unfold sanitizeAssistantContent. destruct x as [|c t]; [reflexivity|].
  cbn [truthy negb]. cbv zeta. apply trim_idem.
Qed.

(** C4, as the code has it.  The sanitizer is idempotent exactly as far
    as one pass leaves no marker behind: applying it again changes
    nothing if and only if its result has no two asterisks and no two
    underscores on one line with a character between them, and no line
    that starts with a heading or list marker.  On an input that has no
    such pair the
    emphasis patterns change nothing; if moreover no line starts with a
    heading or list marker, the sanitizer only trims; and a word, that is
    an input without white space, is returned as it is. *)
Theorem sanitize_without_markers x :
  (sanitizeAssistantContent (sanitizeAssistantContent x) =
     sanitizeAssistantContent x <->
   hasPair star (sanitizeAssistantContent x) = false /\
   hasPair underscore (sanitizeAssistantContent x) = false /\
   hasBlockMarker (sanitizeAssistantContent x) = false) /\
  (hasPair star x = false ->
   hasPair underscore x = false ->
   (hasBlockMarker x = false ->
      sanitizeAssistantContent x = trim x /\
      sanitizeAssistantContent (sanitizeAssistantContent x) =
        sanitizeAssistantContent x) /\
   (forallb (fun c => negb (isSpace c)) x = true ->
      sanitizeAssistantContent x = x)).
Proof.
  assert (Idem : hasPair star (sanitizeAssistantContent x) = false ->
                 hasPair underscore (sanitizeAssistantContent x) = false ->
                 hasBlockMarker (sanitizeAssistantContent x) = false ->
                 sanitizeAssistantContent (sanitizeAssistantContent x) =
                   sanitizeAssistantContent x).
  { intros Hs Hu Hb. rewrite (sanitize_is_trim _ Hs Hu Hb). apply sanitize_trimmed. }
  split; [split; [apply sanitize_fixed | intros (Hs & Hu & Hb); now apply Idem]|].
  intros Hs Hu. split.
  - intros Hb. pose proof (sanitize_is_trim x Hs Hu Hb) as E. split; [exact E|].
    apply Idem; rewrite E;
      [now apply hasPair_trim | now apply hasPair_trim | now apply hasBlockMarker_trim].
  - intros Hw. rewrite (sanitize_is_trim x Hs Hu (hasBlockMarker_word x Hw)).
    now apply trim_word.
Qed.

Lemma sanitize_without_markers_witness :
  let example := lit "**Hello** _world_
# Title
- item" in
  let x := lit "  Net asset value: 3*4 units (see fund_code)
  #holdings: 12  " in
  let word := lit "fund_code*" in
  (sanitizeAssistantContent example = lit "Hello world
Title
item" /\
   hasPair star (sanitizeAssistantContent example) = false /\
   hasPair underscore (sanitizeAssistantContent example) = false /\
   hasBlockMarker (sanitizeAssistantContent example) = false /\
   sanitizeAssistantContent (sanitizeAssistantContent example) =
     sanitizeAssistantContent example) /\
  (hasPair star x = false /\ hasPair underscore x = false /\
   hasBlockMarker x = false /\
   sanitizeAssistantContent x = trim x /\
   sanitizeAssistantContent (sanitizeAssistantContent x) =
     sanitizeAssistantContent x) /\
  (hasPair star word = false /\ hasPair underscore word = false /\
   forallb (fun c => negb (isSpace c)) word = true /\
   sanitizeAssistantContent word = word).
Proof.
  intros example x word.
  assert (E0 : sanitizeAssistantContent example = lit "Hello world
Title
item") by (vm_compute; reflexivity).
  assert (E1 : hasPair star (sanitizeAssistantContent example) = false)
    by (vm_compute; reflexivity).
  assert (E2 : hasPair underscore (sanitizeAssistantContent example) = false)
    by (vm_compute; reflexivity).
  assert (E3 : hasBlockMarker (sanitizeAssistantContent example) = false)
    by (vm_compute; reflexivity).
  assert (X1 : hasPair star x = false) by reflexivity.
  assert (X2 : hasPair underscore x = false) by reflexivity.
  assert (X3 : hasBlockMarker x = false) by reflexivity.
  assert (W1 : hasPair star word = false) by reflexivity.
  assert (W2 : hasPair underscore word = false) by reflexivity.
  assert (W3 : forallb (fun c => negb (isSpace c)) word = true) by reflexivity.
  split; [|split].
  - repeat (split; [assumption|]).
    exact (proj2 (proj1 (sanitize_without_markers example))
             (conj E1 (conj E2 E3))).
  - repeat (split; [assumption|]).
    exact (proj1 (proj2 (sanitize_without_markers x) X1 X2) X3).
  - repeat (split; [assumption|]).
    exact (proj2 (proj2 (sanitize_without_markers word) W1 W2) W3).
Defined.

(** C4 as stated fails.  The sanitizer removes one marker per line and
    one layer of emphasis per pass: "# # a" becomes "# a" and then "a",
    and "__a__" becomes "_a_" and then "a".  It also pairs markers across
    words: in "2*3 and 4*5" each word has a single asterisk and both are
    removed. *)
Lemma sanitizer_is_not_idempotent :
  sanitizeAssistantContent (lit "# # a") = lit "# a" /\
  sanitizeAssistantContent (sanitizeAssistantContent (lit "# # a")) = lit "a" /\
  sanitizeAssistantContent (sanitizeAssistantContent (lit "# # a")) <>
    sanitizeAssistantContent (lit "# # a") /\
  sanitizeAssistantContent (lit "__a__") = lit "_a_" /\
  sanitizeAssistantContent (sanitizeAssistantContent (lit "__a__")) = lit "a" /\
  sanitizeAssistantContent (lit "2*3 and 4*5") = lit "23 and 45".
Proof. repeat split; try (vm_compute; reflexivity). vm_compute. discriminate. Qed.

(** The example of the specification's section 8. *)
Example sanitize_example :
  sanitizeAssistantContent (lit "**Hello** _world_
# Title
- item") = lit "Hello world
Title
item".
Proof. vm_compute. reflexivity. Qed.

(** ** The primary key is an invariant *)

Lemma unique_after_send svc env user dto w :
  unique_session_ids (db w) -> fresh_session_id env (db w) ->
  unique_session_ids (db (final (sendMessage svc env user dto) w)).
Proof.
  intros Hu Hfresh. unfold unique_session_ids, fresh_session_id in *.
  destruct (sendMessage_cases svc env user dto w) as [E | [E | [Hk Ha]]];
    try (unfold final; now rewrite E).
  rewrite (chatSession_final _ _ _ _ _ Hk Ha). unfold afterResolve.
  destruct (ownedSession (db w) user dto); [assumption|].
  cbn [db addSession chatSession]. rewrite map_app. cbn [map newSession s_id].
  apply NoDup_app; [assumption | repeat constructor; intros [] |].
  intros x Hx [<- | []]. contradiction.
Qed.

Lemma NoDup_map_filter {A B} (f : A -> B) (p : A -> bool) l :
  NoDup (map f l) -> NoDup (map f (filter p l)).
Proof.
  induction l as [|x l IH]; simpl; [auto|].
  intros H. inversion H as [|? ? Hx Hl]; subst.
  destruct (p x); simpl; [|auto].
  constructor; [|auto]. intros Hin. apply Hx.
  apply in_map_iff in Hin as (y & E & Hy). apply filter_In in Hy as [Hy _].
  rewrite <- E. now apply in_map.
Qed.

Lemma unique_after_delete userId id w :
  unique_session_ids (db w) ->
  unique_session_ids (db (final (deleteSession userId id) w)).
Proof.
  intros Hu. unfold unique_session_ids, final in *. rewrite deleteSession_run.
  destruct (find (ownedRow userId id) (chatSession (db w))); [|assumption].
  cbn [snd db chatSession]. now apply NoDup_map_filter.
Qed.

(** * Further properties of the service *)

(** ** Sorting *)

Lemma insert_by_perm {A} (le : A -> A -> bool) x l :
  Permutation (insert_by le x l) (x :: l).
Proof.
  induction l as [|y l IH]; simpl; [reflexivity|].
  destruct (le x y); [reflexivity|].
  rewrite IH. apply perm_swap.
Qed.

Lemma sort_by_perm {A} (le : A -> A -> bool) l : Permutation (sort_by le l) l.
Proof.
  induction l as [|x l IH]; simpl; [reflexivity|].
  rewrite insert_by_perm. now constructor.
Qed.

Lemma insert_by_sorted {A} (le : A -> A -> bool) (R : A -> A -> Prop) x l :
  (forall a b, le a b = true -> R a b) ->
  (forall a b, le a b = false -> R b a) ->
  (forall a b c, R a b -> R b c -> R a c) ->
  StronglySorted R l -> StronglySorted R (insert_by le x l).
Proof.
  intros Ht Hf Htr. induction 1 as [|y l Hl IH Hy]; simpl.
  - repeat constructor.
  - destruct (le x y) eqn:E.
    + constructor; [now constructor|]. constructor; [now apply Ht|].
      eapply Forall_impl; [|exact Hy]. intros z Hz. eapply Htr; eauto.
    + constructor; [exact IH|].
      apply Forall_forall. intros z Hz.
      apply (Permutation_in _ (insert_by_perm le x l)) in Hz.
      destruct Hz as [<- | Hz]; [now apply Hf|].
      exact (proj1 (Forall_forall _ _) Hy z Hz).
Qed.

Lemma sort_by_desc_sorted {A} (key : A -> Z) l :
  StronglySorted (fun a b => (key b <= key a)%Z) (sort_by (desc key) l).
Proof.
  induction l as [|x l IH]; simpl; [constructor|].
  apply insert_by_sorted; try assumption; unfold desc; intros.
  - now apply Z.leb_le.
  - apply Z.leb_gt in H. lia.
  - lia.
Qed.

Lemma StronglySorted_map {A B} (f : A -> B) (R : B -> B -> Prop) l :
  StronglySorted (fun a b => R (f a) (f b)) l -> StronglySorted R (map f l).
Proof.
  induction 1 as [|x l Hl IH Hx]; simpl; constructor; [assumption|].
  apply Forall_forall. intros y Hy. apply in_map_iff in Hy as (z & <- & Hz).
  exact (proj1 (Forall_forall _ _) Hx z Hz).
Qed.

(** ** Listing and reading sessions *)

(** X1. [listSessions] changes nothing and returns one summary for each
    session of the caller and for no other row, the newest first; each
    summary carries the ids of all messages stored under the session's
    id. *)
Theorem listSessions_own_newest_first userId w :
  exists r,
    listSessions userId w = (Ok r, w) /\
    Permutation r (map (summaryOf (db w)) (sessionsOf userId (db w))) /\
    StronglySorted notOlder r /\
    length r = length (sessionsOf userId (db w)) /\
    forall e, In e r ->
      ls_messages e = map m_id (messagesOf (ls_id e) (db w)) /\
      exists s, In s (chatSession (db w)) /\ s_userId s = userId /\
                s_id s = ls_id e /\ s_title s = ls_title e.
Proof.
  eexists. split; [reflexivity|].
  fold (sessionsOf userId (db w)).
  change (fun s => mkSessionSummary (s_id s) (s_title s) (s_createdAt s)
                     (s_updatedAt s)
                     (map m_id (filter (fun m => Js.eqb (m_sessionId m) (s_id s))
                                       (chatMessage (db w)))))
    with (summaryOf (db w)).
  split; [|split; [|split]].
  - apply Permutation_map. apply sort_by_perm.
  - apply StronglySorted_map. unfold notOlder. cbn [summaryOf ls_createdAt].
    apply sort_by_desc_sorted.
  - rewrite length_map. apply Permutation_length. apply sort_by_perm.
  - intros e He. apply in_map_iff in He as (s & <- & Hs).
    apply in_sort_by in Hs. apply filter_In in Hs as [Hin Hu]. apply eqb_eq in Hu.
    split; [reflexivity|]. exists s. auto.
Qed.

(** X2. For a session the caller owns, [getSession] changes nothing and
    returns that row with every message stored under its id, none left
    out, in ascending creation order; unlike the history of
    [sendMessage] there is no window. *)
Theorem getSession_full_history userId id w s :
  unique_session_ids (db w) ->
  In s (chatSession (db w)) -> s_id s = id -> s_userId s = userId ->
  exists ms,
    getSession userId id w = (Ok (Some (s, ms)), w) /\
    Permutation ms (messagesOf id (db w)) /\
    StronglySorted notAfter ms.
Proof.
  intros Hu Hin Hid Hown. rewrite getSession_run.
  destruct (find_owned_some userId id (chatSession (db w))) as (e & -> & He & Hid' & _).
  { exists s. auto. }
  assert (e = s) by (eapply NoDup_map_inj; eauto; congruence). subst e.
  rewrite Hid. eexists. split; [reflexivity|]. split.
  - apply sort_by_perm.
  - apply sort_by_asc_sorted.
Qed.

Lemma getSession_full_history_witness :
  let w := Sample.world 3 in
  (unique_session_ids (db w) /\
   In Sample.aliceSession (chatSession (db w)) /\
   s_id Sample.aliceSession = lit "s-alice" /\
   s_userId Sample.aliceSession = lit "u-alice") /\
  exists ms,
    getSession (lit "u-alice") (lit "s-alice") w =
      (Ok (Some (Sample.aliceSession, ms)), w) /\
    Permutation ms (messagesOf (lit "s-alice") (db w)) /\
    StronglySorted notAfter ms.
Proof.
  intros w.
  assert (H1 : unique_session_ids (db w)).
  { unfold unique_session_ids. cbn. repeat constructor; cbn; intuition discriminate. }
  assert (H2 : In Sample.aliceSession (chatSession (db w))) by now left.
  split; [auto|].
  exact (getSession_full_history (lit "u-alice") (lit "s-alice") w
           Sample.aliceSession H1 H2 eq_refl eq_refl).
Defined.

(** ** What a run of [sendMessage] writes *)

Lemma providerReply_string rev env status data raw :
  env_http env = HttpResponse status data ->
  (200 <= status < 300)%Z ->
  replyContent data = JString raw ->
  providerReply rev env = Ok (storedReply rev raw).
Proof.
  intros Hh Hs Hc. unfold providerReply. rewrite Hh.
  replace ((200 <=? status)%Z && (status <? 300)%Z) with true.
  - rewrite Hc. reflexivity.
  - symmetry. apply andb_true_iff. split; [apply Z.leb_le | apply Z.ltb_lt]; lia.
Qed.

(** X3. When the credential is configured, the session is resolved or
    created, and the provider answers 2xx with a string at
    [choices[0].message.content], [sendMessage] returns normally; the message table grows by exactly two rows, the user's
    message stored verbatim with role "user" and then the reply with role
    "assistant", both under the session id that is returned; the reply is
    stored as received by the first revision and sanitized by the
    second; the one request is issued between the two writes. *)
Theorem sendMessage_success svc env user dto w status data raw :
  truthy (openRouterApiKey svc) = true ->
  sessionAccepted (db w) user dto = true ->
  env_http env = HttpResponse status data ->
  (200 <= status < 300)%Z ->
  replyContent data = JString raw ->
  exists r rq,
    outcome (sendMessage svc env user dto) w = Ok r /\
    let w' := final (sendMessage svc env user dto) w in
    chatMessage (db w') =
      chatMessage (db w) ++ [r_userMessage r; r_assistantMessage r] /\
    m_sessionId (r_userMessage r) = r_sessionId r /\
    m_role (r_userMessage r) = lit "user" /\
    m_content (r_userMessage r) = message dto /\
    m_sessionId (r_assistantMessage r) = r_sessionId r /\
    m_role (r_assistantMessage r) = lit "assistant" /\
    m_content (r_assistantMessage r) = storedReply (revision svc) raw /\
    trace w' =
      trace (afterResolve env user dto w)
      ++ [DbCreateMessage (r_userMessage r); HttpPost rq;
          DbCreateMessage (r_assistantMessage r)].
Proof.
  intros Hk Ha Hh Hs Hc. unfold outcome, final.
  rewrite (sendMessage_outcome svc env user dto w Hk Ha). cbv zeta.
  rewrite (providerReply_string (revision svc) env status data raw Hh Hs Hc).
  eexists. eexists. split; [reflexivity|]. cbn [fst snd db trace].
  cbn [r_userMessage r_assistantMessage r_sessionId userRow assistantRow
       m_sessionId m_role m_content addMessage chatMessage].
  rewrite chatMessage_beforeCall. rewrite <- app_assoc.
  repeat split. unfold beforeCall. cbn [trace]. now rewrite <- app_assoc.
Qed.

Lemma sendMessage_success_witness :
  let svc := Sample.svc Sanitizing in
  let env := Sample.env (HttpResponse 200 (Sample.okBody (lit "**Fine.**"))) in
  let user := Sample.alice in
  let dto := mkSendChatDto (lit "Summarize Q3") (Some (lit "s-alice")) None in
  let w := Sample.world 2 in
  (truthy (openRouterApiKey svc) = true /\
   sessionAccepted (db w) user dto = true /\
   env_http env = HttpResponse 200 (Sample.okBody (lit "**Fine.**")) /\
   (200 <= 200 < 300)%Z /\
   replyContent (Sample.okBody (lit "**Fine.**")) = JString (lit "**Fine.**")) /\
  exists r rq,
    outcome (sendMessage svc env user dto) w = Ok r /\
    let w' := final (sendMessage svc env user dto) w in
    chatMessage (db w') =
      chatMessage (db w) ++ [r_userMessage r; r_assistantMessage r] /\
    m_sessionId (r_userMessage r) = r_sessionId r /\
    m_role (r_userMessage r) = lit "user" /\
    m_content (r_userMessage r) = message dto /\
    m_sessionId (r_assistantMessage r) = r_sessionId r /\
    m_role (r_assistantMessage r) = lit "assistant" /\
    m_content (r_assistantMessage r) = storedReply (revision svc) (lit "**Fine.**") /\
    trace w' =
      trace (afterResolve env user dto w)
      ++ [DbCreateMessage (r_userMessage r); HttpPost rq;
          DbCreateMessage (r_assistantMessage r)].
Proof.
  intros svc env user dto w.
  assert (H3 : (200 <= 200 < 300)%Z) by lia.
  split; [repeat split; try reflexivity; lia|].
  exact (sendMessage_success svc env user dto w 200
           (Sample.okBody (lit "**Fine.**")) (lit "**Fine.**")
           eq_refl eq_refl eq_refl H3 eq_refl).
Defined.

Lemma ownedSession_found d user dto sid s :
  unique_session_ids d ->
  sessionId dto = Some sid -> sid <> [] ->
  In s (chatSession d) -> s_id s = sid -> s_userId s = u_id user ->
  ownedSession d user dto = Some s.
Proof.
  intros Hu Hs Hne Hin Hid Hown. unfold ownedSession. rewrite Hs.
  destruct sid as [|c sid]; [contradiction|]. cbn [truthy].
  destruct (find_owned_some (u_id user) (c :: sid) (chatSession d)) as (e & -> & He & Hid' & _).
  { exists s. auto. }
  f_equal. eapply NoDup_map_inj; eauto. congruence.
Qed.

(** X4. When the request names a session of the caller, no session row
    is created: the session table is unchanged, the user's message is
    stored under the named id, the title reported back is the stored
    title of that session (the message does not rename it), and no
    [chatSession.create] is on the trace; this holds whether the provider
    call succeeds or fails. *)
Theorem sendMessage_existing_session svc env user dto w sid s :
  truthy (openRouterApiKey svc) = true ->
  unique_session_ids (db w) ->
  sessionId dto = Some sid -> sid <> [] ->
  In s (chatSession (db w)) -> s_id s = sid -> s_userId s = u_id user ->
  let run := sendMessage svc env user dto in
  chatSession (db (final run w)) = chatSession (db w) /\
  In (userRow env sid dto) (chatMessage (db (final run w))) /\
  (forall r, outcome run w = Ok r ->
     r_sessionId r = sid /\ r_sessionTitle r = Some (s_title s)) /\
  (forall row, ~ In (DbCreateSession row) (newEvents run w)).
Proof.
  intros Hk Hu Hs Hne Hin Hid Hown run.
  pose proof (ownedSession_found (db w) user dto sid s Hu Hs Hne Hin Hid Hown) as Ho.
  pose proof (sessionAccepted_owned (db w) user dto s Ho) as Ha.
  assert (Ht : targetSession env user dto (db w) = sid).
  { unfold targetSession. now rewrite Ho. }
  split; [|split; [|split]].
  - unfold run. rewrite (chatSession_final svc env user dto w Hk Ha).
    unfold afterResolve. now rewrite Ho.
  - rewrite <- Ht. now apply userRow_in_final.
  - intros r. unfold run, outcome.
    rewrite (sendMessage_outcome svc env user dto w Hk Ha). cbv zeta.
    destruct (providerReply (revision svc) env); cbn [fst]; [|discriminate].
    intros E. injection E as <-. cbn [r_sessionId r_sessionTitle].
    split; [assumption|]. unfold targetTitle. now rewrite Ho.
  - intros row. unfold newEvents, run, final.
    rewrite (sendMessage_outcome svc env user dto w Hk Ha). cbv zeta.
    unfold beforeCall, afterResolve. rewrite Ho.
    destruct (providerReply (revision svc) env); cbn [snd trace];
      rewrite <- app_assoc, skipn_trace_app; cbn;
      intros H; repeat (destruct H as [H|H]; [discriminate|]); exact H.
Qed.

Lemma sendMessage_existing_session_witness :
  let svc := Sample.svc Plain in
  let env := Sample.env HttpTimeout in
  let user := Sample.alice in
  let dto := mkSendChatDto (lit "And Q4?") (Some (lit "s-alice")) None in
  let w := Sample.world 2 in
  let s := Sample.aliceSession in
  (truthy (openRouterApiKey svc) = true /\ unique_session_ids (db w) /\
   sessionId dto = Some (lit "s-alice") /\ lit "s-alice" <> [] /\
   In s (chatSession (db w)) /\ s_id s = lit "s-alice" /\ s_userId s = u_id user) /\
  let run := sendMessage svc env user dto in
  chatSession (db (final run w)) = chatSession (db w) /\
  In (userRow env (lit "s-alice") dto) (chatMessage (db (final run w))) /\
  (forall r, outcome run w = Ok r ->
     r_sessionId r = lit "s-alice" /\ r_sessionTitle r = Some (s_title s)) /\
  (forall row, ~ In (DbCreateSession row) (newEvents run w)).
Proof.
  intros svc env user dto w s.
  assert (H1 : unique_session_ids (db w)).
  { unfold unique_session_ids. cbn. repeat constructor; cbn; intuition discriminate. }
  assert (H2 : lit "s-alice" <> []) by discriminate.
  assert (H3 : In s (chatSession (db w))) by now left.
  split; [repeat split; auto|].
  exact (sendMessage_existing_session svc env user dto w (lit "s-alice") s
           eq_refl H1 eq_refl H2 H3 eq_refl eq_refl).
Defined.

(** X5. [sendMessage] only appends.  Whatever the configuration, the
    request and the provider's answer, every row that was in
    [chatSession] and [chatMessage] is still there, in the same place;
    at most one session and at most two messages are added, all under
    the one target session id; [document] is untouched; and nothing is
    deleted. *)
Theorem sendMessage_appends_only svc env user dto w :
  let run := sendMessage svc env user dto in
  let w' := final run w in
  exists sessions messages,
    chatSession (db w') = chatSession (db w) ++ sessions /\
    chatMessage (db w') = chatMessage (db w) ++ messages /\
    document (db w') = document (db w) /\
    length sessions <= 1 /\ length messages <= 2 /\
    Forall (fun s => s_userId s = u_id user) sessions /\
    Forall (fun m => m_sessionId m = targetSession env user dto (db w)) messages /\
    trace w' = trace w ++ newEvents run w /\
    forallb (fun e => negb (isDelete e)) (newEvents run w) = true.
Proof.
  intros run w'. unfold w', newEvents, run, final.
  assert (Hstop : forall e, sendMessage svc env user dto w = (Throw e, w) ->
            exists sessions messages,
              chatSession (db (snd (sendMessage svc env user dto w))) =
                chatSession (db w) ++ sessions /\
              chatMessage (db (snd (sendMessage svc env user dto w))) =
                chatMessage (db w) ++ messages /\
              document (db (snd (sendMessage svc env user dto w))) = document (db w) /\
              length sessions <= 1 /\ length messages <= 2 /\
              Forall (fun s => s_userId s = u_id user) sessions /\
              Forall (fun m => m_sessionId m = targetSession env user dto (db w))
                     messages /\
              trace (snd (sendMessage svc env user dto w)) =
                trace w ++ skipn (length (trace w))
                                 (trace (snd (sendMessage svc env user dto w))) /\
              forallb (fun e => negb (isDelete e))
                (skipn (length (trace w))
                       (trace (snd (sendMessage svc env user dto w)))) = true).
  { intros e E. rewrite E. cbn [snd].
    exists [], []. rewrite !app_nil_r, skipn_all.
    repeat split; auto. now rewrite app_nil_r. }
  destruct (sendMessage_cases svc env user dto w) as [E | [E | [Hk Ha]]];
    [exact (Hstop _ E) | exact (Hstop _ E) | clear Hstop].
  - rewrite (sendMessage_outcome svc env user dto w Hk Ha). cbv zeta.
    exists (match ownedSession (db w) user dto with
            | Some _ => []
            | None => [newSession env user dto]
            end).
    assert (Hs : chatSession (db (beforeCall env user dto w)) =
                 chatSession (db w) ++
                 match ownedSession (db w) user dto with
                 | Some _ => []
                 | None => [newSession env user dto]
                 end).
    { unfold beforeCall, afterResolve. cbn [db addMessage chatSession].
      destruct (ownedSession (db w) user dto); [now rewrite app_nil_r | reflexivity]. }
    assert (Hd : document (db (beforeCall env user dto w)) = document (db w))
      by apply document_beforeCall.
    assert (Ht : exists pre,
               trace (beforeCall env user dto w) = trace w ++ pre /\
               forallb (fun e => negb (isDelete e)) pre = true).
    { unfold beforeCall, afterResolve. cbn [trace].
      destruct (ownedSession (db w) user dto); cbn [trace];
        rewrite <- ?app_assoc; eexists; split; reflexivity. }
    destruct Ht as (pre & Ht & Hpre).
    assert (Hl : length (match ownedSession (db w) user dto with
                         | Some _ => []
                         | None => [newSession env user dto]
                         end) <= 1).
    { destruct (ownedSession (db w) user dto); simpl; lia. }
    assert (Ho : Forall (fun s => s_userId s = u_id user)
                   (match ownedSession (db w) user dto with
                    | Some _ => []
                    | None => [newSession env user dto]
                    end)).
    { destruct (ownedSession (db w) user dto); repeat constructor. }
    destruct (providerReply (revision svc) env) as [text|e]; cbn [snd db trace].
    + exists [userRow env (targetSession env user dto (db w)) dto;
              assistantRow env (targetSession env user dto (db w)) text].
      cbn [addMessage chatSession chatMessage document].
      rewrite chatMessage_beforeCall, <- app_assoc, Hs, Hd, Ht, <- app_assoc.
      rewrite skipn_trace_app, forallb_app, Hpre.
      split; [reflexivity|]. split; [reflexivity|]. split; [reflexivity|].
      split; [exact Hl|]. split; [simpl; lia|]. split; [exact Ho|].
      split; [repeat constructor|]. split; reflexivity.
    + exists [userRow env (targetSession env user dto (db w)) dto].
      rewrite chatMessage_beforeCall, Hs, Hd, Ht, <- app_assoc.
      rewrite skipn_trace_app, forallb_app, Hpre.
      split; [reflexivity|]. split; [reflexivity|]. split; [reflexivity|].
      split; [exact Hl|]. split; [simpl; lia|]. split; [exact Ho|].
      split; [repeat constructor|]. split; reflexivity.
Qed.

(** ** Deleting again *)

(** X6. Deleting is idempotent: once [deleteSession] has run for an id,
    running it again for that id returns without a value and changes
    nothing, whether or not the first run deleted anything. *)
Theorem deleteSession_twice userId id w :
  let w1 := final (deleteSession userId id) w in
  deleteSession userId id w1 = (Ok None, w1).
Proof.
  intros w1. unfold w1, final. rewrite (deleteSession_run userId id w).
  destruct (find (ownedRow userId id) (chatSession (db w))) as [e|] eqn:F;
    cbn [snd]; rewrite deleteSession_run.
  - cbn [db chatSession]. rewrite find_owned_none; [reflexivity|].
    intros s Hs Hid. apply filter_In in Hs as [_ Hs].
    apply negb_true_iff in Hs. apply eqb_neq in Hs. contradiction.
  - now rewrite F.
Qed.

(** ** Sending, then reading, listing or deleting *)

Lemma find_app_none {A} (p : A -> bool) l1 l2 :
  find p l1 = None -> find p (l1 ++ l2) = find p l2.
Proof.
  induction l1 as [|x l1 IH]; simpl; [reflexivity|].
  destruct (p x); [discriminate | exact IH].
Qed.

Lemma find_app_some {A} (p : A -> bool) l1 l2 x :
  find p l1 = Some x -> find p (l1 ++ l2) = Some x.
Proof.
  induction l1 as [|y l1 IH]; simpl; [discriminate|].
  destruct (p y); [auto | exact IH].
Qed.

Lemma filter_all {A} (p : A -> bool) l :
  (forall x, In x l -> p x = true) -> filter p l = l.
Proof.
  induction l as [|x l IH]; intros H; simpl; [reflexivity|].
  rewrite (H x (or_introl eq_refl)). f_equal. apply IH. intros y Hy. apply H. now right.
Qed.

Lemma filter_nil_inv {A} (p : A -> bool) l x :
  filter p l = [] -> In x l -> p x = false.
Proof.
  intros H Hx. destruct (p x) eqn:E; [|reflexivity].
  assert (In x (filter p l)) by (apply filter_In; auto).
  rewrite H in *. contradiction.
Qed.

Lemma ownedSession_find d user dto e :
  ownedSession d user dto = Some e ->
  find (ownedRow (u_id user) (s_id e)) (chatSession d) = Some e.
Proof.
  unfold ownedSession. destruct (sessionId dto) as [sid|]; [|discriminate].
  destruct (truthy sid); [|discriminate].
  intros F. pose proof F as F'. apply find_some in F' as [_ F'].
  apply ownedRow_true in F' as [<- _]. exact F.
Qed.

Lemma fresh_not_found env d userId :
  fresh_session_id env d ->
  find (ownedRow userId (env_sessionId env)) (chatSession d) = None.
Proof.
  intros Hf. apply find_owned_none. intros s Hin Hid _.
  apply Hf. rewrite <- Hid. now apply in_map.
Qed.

Lemma ownedRow_newSession env user dto :
  ownedRow (u_id user) (env_sessionId env) (newSession env user dto) = true.
Proof. apply ownedRow_true. split; reflexivity. Qed.

(** The row that the session of a run is, once the session is resolved. *)
Lemma target_row_found env user dto w :
  fresh_session_id env (db w) ->
  exists s,
    find (ownedRow (u_id user) (targetSession env user dto (db w)))
         (chatSession (db (afterResolve env user dto w))) = Some s /\
    s_id s = targetSession env user dto (db w) /\
    s_userId s = u_id user /\
    targetTitle user dto (db w) = Some (s_title s).
Proof.
  intros Hf. unfold targetSession, targetTitle, afterResolve.
  destruct (ownedSession (db w) user dto) as [e|] eqn:Ho.
  - exists e. pose proof (ownedSession_some (db w) user dto e Ho) as (_ & Hu & _).
    split; [exact (ownedSession_find (db w) user dto e Ho) | auto].
  - exists (newSession env user dto). cbn [db addSession chatSession].
    rewrite find_app_none by now apply fresh_not_found.
    cbn [find]. rewrite ownedRow_newSession. auto.
Qed.

(** X7. A successful [sendMessage] can be read back: with a generated
    id that no row carries yet, [getSession] for the returned session id
    returns a session of the caller whose title is the title that was
    reported, and both the user's message and the assistant's reply are
    among its messages. *)
Theorem send_then_getSession svc env user dto w r :
  truthy (openRouterApiKey svc) = true ->
  fresh_session_id env (db w) ->
  outcome (sendMessage svc env user dto) w = Ok r ->
  let w' := final (sendMessage svc env user dto) w in
  exists s ms,
    getSession (u_id user) (r_sessionId r) w' = (Ok (Some (s, ms)), w') /\
    s_id s = r_sessionId r /\ s_userId s = u_id user /\
    r_sessionTitle r = Some (s_title s) /\
    In (r_userMessage r) ms /\ In (r_assistantMessage r) ms.
Proof.
  intros Hk Hf Hr w'.
  assert (Ha : sessionAccepted (db w) user dto = true).
  { destruct (sessionAccepted (db w) user dto) eqn:Ha; [reflexivity|].
    unfold outcome in Hr. rewrite (sendMessage_refused svc env user dto w Hk Ha) in Hr.
    discriminate. }
  destruct (target_row_found env user dto w Hf) as (s & Hfind & Hid & Hu & Ht).
  rewrite <- (chatSession_final svc env user dto w Hk Ha) in Hfind. fold w' in Hfind.
  unfold w', outcome, final in *.
  rewrite (sendMessage_outcome svc env user dto w Hk Ha) in *. cbv zeta in *.
  destruct (providerReply (revision svc) env) as [text|e]; [|discriminate].
  cbn [fst snd] in *. injection Hr as <-.
  cbn [r_sessionId r_sessionTitle r_userMessage r_assistantMessage].
  rewrite getSession_run. rewrite Hfind. eexists s, _.
  split; [reflexivity|]. split; [assumption|]. split; [assumption|].
  split; [assumption|]. rewrite Hid.
  split; apply in_sort_by; apply filter_In; cbn [db addMessage chatMessage].
  - split; [|apply eqb_refl]. apply in_or_app. left.
    rewrite chatMessage_beforeCall. apply in_or_app. right. now left.
  - split; [|apply eqb_refl]. apply in_or_app. right. now left.
Qed.

Lemma send_then_getSession_witness :
  let svc := Sample.svc Sanitizing in
  let env := Sample.env (HttpResponse 200 (Sample.okBody (lit "Fine."))) in
  let user := Sample.alice in
  let dto := mkSendChatDto (lit "Summarize Q3") None None in
  let w := Sample.world 2 in
  let r := mkSendResult (lit "s-new") (Some (lit "Summarize Q3"))
             (userRow env (lit "s-new") dto)
             (assistantRow env (lit "s-new") (lit "Fine.")) in
  (truthy (openRouterApiKey svc) = true /\ fresh_session_id env (db w) /\
   outcome (sendMessage svc env user dto) w = Ok r) /\
  let w' := final (sendMessage svc env user dto) w in
  exists s ms,
    getSession (u_id user) (r_sessionId r) w' = (Ok (Some (s, ms)), w') /\
    s_id s = r_sessionId r /\ s_userId s = u_id user /\
    r_sessionTitle r = Some (s_title s) /\
    In (r_userMessage r) ms /\ In (r_assistantMessage r) ms.
Proof.
  intros svc env user dto w r.
  assert (H2 : fresh_session_id env (db w)).
  { unfold fresh_session_id. cbn. intuition discriminate. }
  assert (H3 : outcome (sendMessage svc env user dto) w = Ok r).
  { vm_compute. reflexivity. }
  split; [auto|].
  exact (send_then_getSession svc env user dto w r eq_refl H2 H3).
Defined.

Lemma db_eta d : mkDb (chatSession d) (chatMessage d) (document d) = d.
Proof. destruct d. reflexivity. Qed.

Lemma sessions_keep_others env d :
  fresh_session_id env d ->
  filter (fun s => negb (Js.eqb (s_id s) (env_sessionId env))) (chatSession d) =
    chatSession d.
Proof.
  intros Hf. apply filter_all. intros s Hs. apply negb_true_iff. apply eqb_neq.
  intros E. apply Hf. rewrite <- E. now apply in_map.
Qed.

Lemma messages_keep_others sid d :
  messagesOf sid d = [] ->
  filter (fun m => negb (Js.eqb (m_sessionId m) sid)) (chatMessage d) = chatMessage d.
Proof.
  intros H. apply filter_all. intros m Hm. apply negb_true_iff.
  exact (filter_nil_inv _ _ m H Hm).
Qed.

Lemma filter_app_drop {A} (p : A -> bool) l extra :
  filter p l = l -> (forall x, In x extra -> p x = false) ->
  filter p (l ++ extra) = l.
Proof.
  intros Hl He. rewrite filter_app, Hl, (filter_none p extra He). apply app_nil_r.
Qed.

(** X8. Deleting undoes a first message.  When a run of [sendMessage]
    created its session (a title that is well formed, a fresh id, no
    message stored under that id before), [deleteSession] by the same caller for that id succeeds and
    brings the database back to exactly what it was before the message
    was sent, whether the provider call had succeeded or failed. *)
Theorem delete_undoes_first_send svc env user dto w :
  truthy (openRouterApiKey svc) = true ->
  ownedSession (db w) user dto = None ->
  isWellFormed (newTitle dto) = true ->
  fresh_session_id env (db w) ->
  messagesOf (env_sessionId env) (db w) = [] ->
  let w1 := final (sendMessage svc env user dto) w in
  outcome (deleteSession (u_id user) (env_sessionId env)) w1 = Ok (Some true) /\
  db (final (deleteSession (u_id user) (env_sessionId env)) w1) = db w.
Proof.
  intros Hk Ho Hwf Hf Hm w1.
  pose proof (sessionAccepted_new (db w) user dto Ho Hwf) as Ha.
  assert (Ht : targetSession env user dto (db w) = env_sessionId env).
  { unfold targetSession. now rewrite Ho. }
  assert (Hb : db (beforeCall env user dto w) =
               mkDb (chatSession (db w) ++ [newSession env user dto])
                    (chatMessage (db w) ++ [userRow env (env_sessionId env) dto])
                    (document (db w))).
  { unfold beforeCall, afterResolve. rewrite Ho, Ht. reflexivity. }
  assert (Hdb : exists extra,
             db w1 = mkDb (chatSession (db w) ++ [newSession env user dto])
                          (chatMessage (db w) ++ extra) (document (db w)) /\
             forall m, In m extra -> m_sessionId m = env_sessionId env).
  { unfold w1. rewrite (db_final svc env user dto w Hk Ha), Hb, Ht.
    destruct (providerReply (revision svc) env) as [text|e].
    - exists [userRow env (env_sessionId env) dto;
              assistantRow env (env_sessionId env) text].
      unfold addMessage. cbn [chatSession chatMessage document].
      rewrite <- app_assoc. split; [reflexivity|].
      intros m [<- | [<- | []]]; reflexivity.
    - exists [userRow env (env_sessionId env) dto]. split; [reflexivity|].
      intros m [<- | []]. reflexivity. }
  destruct Hdb as (extra & Hdb & Hextra).
  unfold outcome, final. rewrite deleteSession_run, Hdb. cbn [chatSession chatMessage document].
  rewrite find_app_none by now apply fresh_not_found.
  cbn [find]. rewrite ownedRow_newSession. cbn [fst snd db].
  split; [reflexivity|].
  rewrite (filter_app_drop _ (chatSession (db w)) [newSession env user dto]).
  - rewrite (filter_app_drop _ (chatMessage (db w)) extra).
    + apply db_eta.
    + now apply messages_keep_others.
    + intros m Hmx. apply negb_false_iff. apply eqb_eq. now apply Hextra.
  - now apply sessions_keep_others.
  - intros s [<- | []]. apply negb_false_iff. apply eqb_refl.
Qed.

Lemma delete_undoes_first_send_witness :
  let svc := Sample.svc Sanitizing in
  let env := Sample.env HttpTimeout in
  let user := Sample.alice in
  let dto := mkSendChatDto (lit "Summarize Q3") None None in
  let w := Sample.world 2 in
  (truthy (openRouterApiKey svc) = true /\
   ownedSession (db w) user dto = None /\
   isWellFormed (newTitle dto) = true /\
   fresh_session_id env (db w) /\
   messagesOf (env_sessionId env) (db w) = []) /\
  let w1 := final (sendMessage svc env user dto) w in
  outcome (deleteSession (u_id user) (env_sessionId env)) w1 = Ok (Some true) /\
  db (final (deleteSession (u_id user) (env_sessionId env)) w1) = db w.
Proof.
  intros svc env user dto w.
  assert (H3 : fresh_session_id env (db w)).
  { unfold fresh_session_id. cbn. intuition discriminate. }
  assert (H4 : messagesOf (env_sessionId env) (db w) = []) by reflexivity.
  split; [auto|].
  exact (delete_undoes_first_send svc env user dto w eq_refl eq_refl eq_refl H3 H4).
Defined.

Lemma listSessions_run userId w :
  listSessions userId w =
    (Ok (map (summaryOf (db w))
           (sort_by (desc s_createdAt) (sessionsOf userId (db w)))), w).
Proof. reflexivity. Qed.

(** X9. A failed first message leaves its session behind.  When the
    request resolves to no session of the caller, the title of the new
    session is well formed and the transport fails,
    the caller gets the generic error and no session id, yet the session
    that was created stays: [listSessions] then lists it for the caller,
    titled after the message and holding exactly the one user message. *)
Theorem failed_send_leaves_session svc env user dto w :
  truthy (openRouterApiKey svc) = true ->
  ownedSession (db w) user dto = None ->
  isWellFormed (newTitle dto) = true ->
  messagesOf (env_sessionId env) (db w) = [] ->
  transportFailure (env_http env) = true ->
  let run := sendMessage svc env user dto in
  outcome run w = Throw genericFailure /\
  exists listed,
    listSessions (u_id user) (final run w) = (Ok listed, final run w) /\
    In (mkSessionSummary (env_sessionId env) (newTitle dto) (env_sessionAt env)
          (env_sessionAt env) [env_userMessageId env]) listed.
Proof.
  intros Hk Ho Hwf Hm Hfail run.
  pose proof (sessionAccepted_new (db w) user dto Ho Hwf) as Ha.
  assert (Ht : targetSession env user dto (db w) = env_sessionId env).
  { unfold targetSession. now rewrite Ho. }
  pose proof (providerReply_transport (revision svc) env Hfail) as Hp.
  split.
  - unfold run, outcome. rewrite (sendMessage_outcome svc env user dto w Hk Ha).
    cbv zeta. now rewrite Hp.
  - rewrite listSessions_run. eexists. split; [reflexivity|].
    assert (Hdb : db (final run w) =
                  mkDb (chatSession (db w) ++ [newSession env user dto])
                       (chatMessage (db w) ++ [userRow env (env_sessionId env) dto])
                       (document (db w))).
    { unfold run. rewrite (db_final svc env user dto w Hk Ha), Hp.
      unfold beforeCall, afterResolve. rewrite Ho, Ht. reflexivity. }
    apply in_map_iff. exists (newSession env user dto). split.
    + unfold summaryOf, messagesOf. rewrite Hdb. cbn [chatMessage newSession s_id
        s_title s_createdAt s_updatedAt].
      rewrite filter_app. fold (messagesOf (env_sessionId env) (db w)). rewrite Hm.
      cbn [filter userRow m_sessionId app]. rewrite eqb_refl. reflexivity.
    + apply in_sort_by. unfold sessionsOf. apply filter_In. rewrite Hdb.
      cbn [chatSession]. split; [apply in_or_app; right; now left|].
      apply eqb_refl.
Qed.

Lemma failed_send_leaves_session_witness :
  let svc := Sample.svc Sanitizing in
  let env := Sample.env (HttpResponse 429 (JString (lit "rate limited"))) in
  let user := Sample.alice in
  let dto := mkSendChatDto (lit "Summarize Q3") None None in
  let w := Sample.world 2 in
  (truthy (openRouterApiKey svc) = true /\
   ownedSession (db w) user dto = None /\
   isWellFormed (newTitle dto) = true /\
   messagesOf (env_sessionId env) (db w) = [] /\
   transportFailure (env_http env) = true) /\
  let run := sendMessage svc env user dto in
  outcome run w = Throw genericFailure /\
  exists listed,
    listSessions (u_id user) (final run w) = (Ok listed, final run w) /\
    In (mkSessionSummary (env_sessionId env) (newTitle dto) (env_sessionAt env)
          (env_sessionAt env) [env_userMessageId env]) listed.
Proof.
  intros svc env user dto w.
  assert (H3 : messagesOf (env_sessionId env) (db w) = []) by reflexivity.
  split; [auto|].
  exact (failed_send_leaves_session svc env user dto w eq_refl eq_refl eq_refl H3
           eq_refl).
Defined.

(** ** Where the new message stands in the history *)




Lemma forward_userRow env sid dto :
  forwardMessage (userRow env sid dto) = mkPayloadMessage (lit "user") (message dto).
Proof. reflexivity. Qed.






(** ** The request *)

(** X12. With a non-empty key in the configuration, a run whose session
    is resolved or created issues exactly one request: a POST to the OpenRouter completions URL with a 30 second
    timeout, the configured key as bearer token, and the configured
    model; the model falls back to "openai/gpt-4o-mini" only when the
    setting is absent: a setting that is present is sent as it is, even
    when it is the empty string. *)
Theorem request_shape cfg rev env user dto w key :
  OPENROUTER_API_KEY cfg = Some key -> key <> [] ->
  sessionAccepted (db w) user dto = true ->
  exists rq,
    requests (trace (final (sendMessage (newChatService cfg rev) env user dto) w)) =
      requests (trace w) ++ [rq] /\
    rq_url rq = lit "https://openrouter.ai/api/v1/chat/completions" /\
    rq_timeout rq = 30000%Z /\
    assoc (lit "Authorization") (rq_headers rq) = Some (lit "Bearer " ++ key) /\
    assoc (lit "Content-Type") (rq_headers rq) = Some (lit "application/json") /\
    rq_model rq = (match OPENROUTER_MODEL cfg with
                   | Some m => m
                   | None => lit "openai/gpt-4o-mini"
                   end) /\
    (OPENROUTER_MODEL cfg = Some [] -> rq_model rq = []).
Proof.
  intros Hkey Hne Ha.
  assert (Hk : truthy (openRouterApiKey (newChatService cfg rev)) = true).
  { unfold newChatService. cbn [openRouterApiKey]. rewrite Hkey.
    destruct key; [contradiction | reflexivity]. }
  eexists. split; [apply (requests_sendMessage _ env user dto w Hk Ha)|].
  unfold chatRequest, newChatService.
  cbn [rq_url rq_timeout rq_headers rq_model openRouterApiKey openRouterModel].
  rewrite Hkey. repeat split. now intros ->.
Qed.

Lemma request_shape_witness :
  let cfg := mkConfig (Some (lit "sk-or-test")) (Some []) in
  let env := Sample.env HttpTimeout in
  let user := Sample.alice in
  let dto := mkSendChatDto (lit "Summarize Q3") None None in
  let w := Sample.world 2 in
  (OPENROUTER_API_KEY cfg = Some (lit "sk-or-test") /\ lit "sk-or-test" <> [] /\
   sessionAccepted (db w) user dto = true) /\
  exists rq,
    requests (trace (final (sendMessage (newChatService cfg Plain) env user dto) w)) =
      requests (trace w) ++ [rq] /\
    rq_url rq = lit "https://openrouter.ai/api/v1/chat/completions" /\
    rq_timeout rq = 30000%Z /\
    assoc (lit "Authorization") (rq_headers rq) =
      Some (lit "Bearer " ++ lit "sk-or-test") /\
    assoc (lit "Content-Type") (rq_headers rq) = Some (lit "application/json") /\
    rq_model rq = (match OPENROUTER_MODEL cfg with
                   | Some m => m
                   | None => lit "openai/gpt-4o-mini"
                   end) /\
    (OPENROUTER_MODEL cfg = Some [] -> rq_model rq = []).
Proof.
  intros cfg env user dto w.
  assert (H2 : lit "sk-or-test" <> []) by discriminate.
  split; [auto|].
  exact (request_shape cfg Plain env user dto w (lit "sk-or-test") eq_refl H2 eq_refl).
Defined.

(** ** A reply that is not text *)

(** X13. In the sanitizing revision, once the session is resolved or
    created, a 2xx response whose
    [choices[0].message.content] is a truthy value other than a string
    (an array of parts, an object, a number, [true]) makes the sanitizer
    call fail inside the [try] block: the error is logged, the caller
    gets the generic error, the user's message stays stored and no
    assistant message is written. *)
Theorem non_text_reply_is_caught svc env user dto w status data :
  truthy (openRouterApiKey svc) = true ->
  sessionAccepted (db w) user dto = true ->
  revision svc = Sanitizing ->
  env_http env = HttpResponse status data ->
  (200 <= status < 300)%Z ->
  (forall s, replyContent data <> JString s) ->
  falsy (replyContent data) = false ->
  let run := sendMessage svc env user dto in
  outcome run w = Throw genericFailure /\
  db (final run w) = db (beforeCall env user dto w) /\
  chatMessage (db (final run w)) =
    chatMessage (db w) ++ [userRow env (targetSession env user dto (db w)) dto] /\
  exists rq reason,
    trace (final run w) =
      trace (beforeCall env user dto w)
      ++ [HttpPost rq;
          ConsoleError (lit "OpenRouter chat error") (TypeError reason)].
Proof.
  intros Hk Ha Hrev Hh Hs Hns Hf run.
  assert (Hp : providerReply (revision svc) env =
               Throw (TypeError (lit "content.replace is not a function"))).
  { unfold providerReply. rewrite Hh, Hrev.
    replace ((200 <=? status)%Z && (status <? 300)%Z) with true
      by (symmetry; apply andb_true_iff; split;
          [apply Z.leb_le | apply Z.ltb_lt]; lia).
    destruct (replyContent data) as [|b|n|s|items|fields] eqn:E;
      try discriminate Hf; try rewrite Hf; try reflexivity.
    exfalso. exact (Hns s eq_refl). }
  unfold run, outcome, final.
  rewrite (sendMessage_outcome svc env user dto w Hk Ha). cbv zeta. rewrite Hp.
  cbn [fst snd db trace]. split; [reflexivity|]. split; [reflexivity|].
  split; [apply chatMessage_beforeCall|]. eexists _, _. reflexivity.
Qed.

Lemma non_text_reply_is_caught_witness :
  let svc := Sample.svc Sanitizing in
  let parts := JArray [JObject [(lit "type", JString (lit "text"));
                                (lit "text", JString (lit "Fine."))]] in
  let data := JObject [(lit "choices",
                JArray [JObject [(lit "message",
                          JObject [(lit "content", parts)])]])] in
  let env := Sample.env (HttpResponse 200 data) in
  let user := Sample.alice in
  let dto := mkSendChatDto (lit "Summarize Q3") None None in
  let w := Sample.world 2 in
  (truthy (openRouterApiKey svc) = true /\
   sessionAccepted (db w) user dto = true /\ revision svc = Sanitizing /\
   env_http env = HttpResponse 200 data /\ (200 <= 200 < 300)%Z /\
   (forall s, replyContent data <> JString s) /\
   falsy (replyContent data) = false) /\
  let run := sendMessage svc env user dto in
  outcome run w = Throw genericFailure /\
  db (final run w) = db (beforeCall env user dto w) /\
  chatMessage (db (final run w)) =
    chatMessage (db w) ++ [userRow env (targetSession env user dto (db w)) dto] /\
  exists rq reason,
    trace (final run w) =
      trace (beforeCall env user dto w)
      ++ [HttpPost rq;
          ConsoleError (lit "OpenRouter chat error") (TypeError reason)].
Proof.
  intros svc parts data env user dto w.
  assert (H4 : (200 <= 200 < 300)%Z) by lia.
  assert (H5 : forall s, replyContent data <> JString s).
  { intros s. vm_compute. discriminate. }
  split; [repeat split; auto; lia|].
  exact (non_text_reply_is_caught svc env user dto w 200 data
           eq_refl eq_refl eq_refl eq_refl H4 H5 eq_refl).
Defined.

(** * Further properties of the sanitizer *)

(** ** The sanitizer only deletes *)

(** X14. The sanitizer only deletes characters: its result can be
    obtained from its input by striking characters out, in the same
    order; so it is never longer than the input and contains no
    character the input does not contain. *)
Theorem sanitize_only_deletes x :
  Subseq (sanitizeAssistantContent x) x /\
  length (sanitizeAssistantContent x) <= length x /\
  forall c, In c (sanitizeAssistantContent x) -> In c x.
Proof.
  assert (H : Subseq (sanitizeAssistantContent x) x).
  { unfold sanitizeAssistantContent. destruct (truthy x); cbn [negb];
      [|apply Subseq_refl]. cbv zeta.
    eapply Subseq_trans; [apply trim_deletes|].
    eapply Subseq_trans; [apply join_map_deletes, strip_line_deletes|].
    rewrite join_split_lines.
    eapply Subseq_trans; [apply (replace_all_deletes underscore_re 1 _ 0)|].
    eapply Subseq_trans; [apply (replace_all_deletes star_re 1 _ 0)|].
    apply (replace_all_deletes bold_re 2 _ 0). }
  split; [exact H|]. split; [now apply Subseq_length|].
  intros c. now apply Subseq_In.
Qed.

(** ** The result is trimmed *)

Lemma last_default {A} (l : list A) a b : l <> [] -> last l a = last l b.
Proof.
  induction l as [|x l IH]; [contradiction|]. intros _.
  destruct l as [|y l]; [reflexivity|]. apply IH. discriminate.
Qed.

Lemma trimEnd_last s c r :
  trimEnd s = c :: r -> isSpace (last (c :: r) c) = false.
Proof.
  revert c r. induction s as [|x t IH]; intros c r; simpl; [discriminate|].
  destruct (trimEnd t) as [|d u] eqn:Ht.
  - destruct (isSpace x) eqn:Hx; [discriminate|].
    intros E. injection E as <- <-. exact Hx.
  - intros E. injection E as <- <-.
    specialize (IH d u eq_refl).
    change (last (x :: d :: u) x) with (last (d :: u) x).
    rewrite (last_default (d :: u) x d) by discriminate.
    exact IH.
Qed.

Lemma trim_first s c r : trim s = c :: r -> isSpace c = false.
Proof.
  unfold trim. destruct (dropWhile_head isSpace s) as [-> | (d & t & -> & Hd)].
  - discriminate.
  - destruct (trimEnd_head d t Hd) as (u & ->). intros E. now injection E as <- _.
Qed.

(** X15. The result of the sanitizer is trimmed: it is empty, or its
    first and its last character are not white space; trimming it
    again changes nothing. *)
Theorem sanitize_result_is_trimmed x :
  trim (sanitizeAssistantContent x) = sanitizeAssistantContent x /\
  forall c r, sanitizeAssistantContent x = c :: r ->
    isSpace c = false /\ isSpace (last (c :: r) c) = false.
Proof.
  unfold sanitizeAssistantContent. destruct x as [|a x]; cbn [truthy negb].
  - split; [reflexivity | discriminate].
  - cbv zeta. split; [apply trim_idem|]. intros c r E. split.
    + exact (trim_first _ c r E).
    + unfold trim in E. exact (trimEnd_last _ c r E).
Qed.

(** ** What the matcher finds *)

Lemma replace_all_past re group s : replace_all re group (length s) s = [].
Proof. induction s as [|c t IH]; [reflexivity | exact IH]. Qed.

(** A match that covers the whole text is replaced by its group. *)
Lemma replace_all_whole re group c t ps :
  match_here re (c :: t) = Some (ps, []) ->
  replace_all re group 0 (c :: t) = nth group ps [].
Proof.
  intros Hm.
  cbn [replace_all]. rewrite Hm.
  apply match_here_sound in Hm as [_ E]. rewrite app_nil_r in E.
  rewrite <- E. cbn [length]. now rewrite replace_all_past, app_nil_r.
Qed.

(** A global replace whose pattern matches at no position returns its
    input. *)
Lemma replace_all_nowhere re group s :
  (forall a b, s = a ++ b -> match_here re b = None) ->
  replace_all re group 0 s = s.
Proof.
  induction s as [|c t IH]; intros H; [reflexivity|].
  cbn [replace_all]. rewrite (H [] (c :: t) eq_refl). f_equal.
  apply IH. intros a b E. apply (H (c :: a) b). now rewrite E.
Qed.

Lemma no_marker_no_pair m s : Forall (fun c => c <> m) s -> hasPair m s = false.
Proof.
  induction 1 as [|c t Hc _ IH]; [reflexivity|].
  change (hasPair m (c :: t)) with (opensPair m (c :: t) || hasPair m t).
  rewrite IH, orb_false_r. unfold opensPair. destruct t; [reflexivity|].
  apply N.eqb_neq in Hc. now rewrite Hc.
Qed.

Lemma split_lines_single s :
  Forall (fun c => c <> LF) s -> split_lines s = [s].
Proof.
  induction 1 as [|c t Hc _ IH]; [reflexivity|].
  cbn [split_lines]. rewrite IH. apply N.eqb_neq in Hc. now rewrite Hc.
Qed.

(** ** Markers around plain text *)

Lemma plainChar_facts c :
  plainChar c = true ->
  c <> star /\ c <> underscore /\ dot c = true /\ c <> LF.
Proof.
  unfold plainChar, dot. intros H.
  apply andb_true_iff in H as [H Hl]. apply andb_true_iff in H as [Hs Hu].
  apply negb_true_iff in Hs, Hu. apply N.eqb_neq in Hs, Hu.
  repeat split; try assumption.
  intros ->. discriminate.
Qed.

Lemma plainText_facts t :
  plainText t = true ->
  t <> [] /\
  Forall (fun c => c <> star) t /\ Forall (fun c => c <> underscore) t /\
  Forall (fun c => dot c = true) t /\ Forall (fun c => c <> LF) t /\
  trim t = t /\ blockStart t = false.
Proof.
  unfold plainText. intros H.
  apply andb_true_iff in H as [H Hb]. apply andb_true_iff in H as [H Ht].
  apply andb_true_iff in H as [Hne Hc].
  apply negb_true_iff in Hb. apply eqb_eq in Ht.
  rewrite forallb_forall in Hc.
  split; [destruct t; [discriminate Hne | discriminate]|].
  repeat split; try assumption; apply Forall_forall; intros c Hin;
    apply (plainChar_facts c (Hc c Hin)).
Qed.

(** On plain text the later stages of the sanitizer change nothing. *)
Lemma plain_lines_and_trim t :
  plainText t = true ->
  trim (join [LF] (map strip_line (split_lines t))) = t.
Proof.
  intros H. destruct (plainText_facts t H) as (_ & _ & _ & _ & Hlf & Ht & Hb).
  rewrite (split_lines_single t Hlf). cbn [map join].
  now rewrite (strip_line_plain t Hb).
Qed.

Lemma plain_emphasis t :
  plainText t = true ->
  replace_all star_re 1 0 t = t /\ replace_all underscore_re 1 0 t = t.
Proof.
  intros H. destruct (plainText_facts t H) as (_ & Hs & Hu & _).
  split.
  - exact (replace_all_no_match star_re 1 star t (italic_match star)
             (no_marker_no_pair star t Hs)).
  - exact (replace_all_no_match underscore_re 1 underscore t (italic_match underscore)
             (no_marker_no_pair underscore t Hu)).
Qed.

Lemma italic_whole m t :
  t <> [] -> Forall (fun c => dot c = true) t -> Forall (fun c => c <> m) t ->
  match_here [one m; mkAtom dot 1 None false; one m] (m :: t ++ [m]) =
    Some ([[m]; t; [m]], []).
Proof.
  intros Hne Fd Fm. rewrite match_one_here.
  rewrite (lazy_until m [] t [m] [[m]] [] Hne Fd Fm); [reflexivity|].
  now rewrite match_one_here.
Qed.

Lemma bold_whole t :
  t <> [] -> Forall (fun c => dot c = true) t -> Forall (fun c => c <> star) t ->
  match_here bold_re (star :: star :: t ++ [star; star]) =
    Some ([[star]; [star]; t; [star]; [star]], []).
Proof.
  intros Hne Fd Fm. unfold bold_re. rewrite !match_one_here.
  rewrite (lazy_until star [one star] t [star; star] [[star]; [star]] [] Hne Fd Fm);
    [reflexivity|].
  now rewrite !match_one_here.
Qed.

(** The bold pattern needs two asterisks in a row. *)
Lemma bold_needs_two s ps rest :
  match_here bold_re s = Some (ps, rest) -> exists u, s = star :: star :: u.
Proof.
  intros H. apply match_here_sound in H as [Hp ->]. unfold bold_re in Hp.
  destruct ps as [|p1 ps]; [inversion Hp|].
  apply pieces_one in Hp as [-> Hp].
  destruct ps as [|p2 ps]; [inversion Hp|].
  apply pieces_one in Hp as [-> Hp].
  eexists. reflexivity.
Qed.

Lemma no_double_inside (m : char) (t a u : jsstring) :
  Forall (fun c => c <> m) t -> t ++ [m] <> a ++ m :: m :: u.
Proof.
  intros F. revert a. induction F as [|c t Hc _ IH]; intros a E.
  - destruct a as [|x [|y a]]; discriminate.
  - destruct a as [|x a]; simpl in E; injection E as E1 E2.
    + congruence.
    + exact (IH a E2).
Qed.

Lemma bold_not_in_italic t :
  t <> [] -> Forall (fun c => c <> star) t ->
  replace_all bold_re 2 0 (star :: t ++ [star]) = star :: t ++ [star].
Proof.
  intros Hne F. apply replace_all_nowhere. intros a b E.
  destruct (match_here bold_re b) as [[ps rest]|] eqn:M; [|reflexivity].
  exfalso. apply bold_needs_two in M as (u & ->).
  destruct a as [|x a]; simpl in E.
  - injection E as E2.
    destruct t as [|c t]; [contradiction|]. simpl in E2. injection E2 as E2 _.
    inversion F; subst. congruence.
  - injection E as _ E2. exact (no_double_inside star t a u F E2).
Qed.

Lemma sanitize_unfold x :
  x <> [] ->
  sanitizeAssistantContent x =
    trim (join [LF]
            (map strip_line
               (split_lines
                  (replace_all underscore_re 1 0
                     (replace_all star_re 1 0 (replace_all bold_re 2 0 x)))))).
Proof. destruct x; [contradiction | reflexivity]. Qed.

(** X16. Emphasis markers around plain text are removed: for a non-empty
    single line [t] without asterisks and underscores, without white
    space at its ends and not starting with a heading or list marker,
    the sanitizer turns each of [**t**], [*t*] and [_t_] into [t]. *)
Theorem emphasis_is_stripped t :
  plainText t = true ->
  sanitizeAssistantContent (star :: star :: t ++ [star; star]) = t /\
  sanitizeAssistantContent (star :: t ++ [star]) = t /\
  sanitizeAssistantContent (underscore :: t ++ [underscore]) = t.
Proof.
  intros H.
  destruct (plainText_facts t H) as (Hne & Hs & Hu & Hd & _).
  destruct (plain_emphasis t H) as [Es Eu].
  pose proof (plain_lines_and_trim t H) as El.
  split; [|split]; rewrite sanitize_unfold by discriminate.
  - rewrite (replace_all_whole bold_re 2 _ _ _ (bold_whole t Hne Hd Hs)).
    cbn [nth]. now rewrite Es, Eu.
  - rewrite (bold_not_in_italic t Hne Hs).
    rewrite (replace_all_whole star_re 1 _ _ _ (italic_whole star t Hne Hd Hs)).
    cbn [nth]. now rewrite Eu.
  - assert (Fs : Forall (fun c => c <> star) (underscore :: t ++ [underscore])).
    { constructor; [discriminate|]. apply Forall_app. split; [assumption|].
      constructor; [discriminate | constructor]. }
    rewrite (replace_all_no_match bold_re 2 star _ bold_match
               (no_marker_no_pair star _ Fs)).
    rewrite (replace_all_no_match star_re 1 star _ (italic_match star)
               (no_marker_no_pair star _ Fs)).
    rewrite (replace_all_whole underscore_re 1 _ _ _
               (italic_whole underscore t Hne Hd Hu)).
    exact El.
Qed.

Lemma emphasis_is_stripped_witness :
  let t := lit "Net asset value is 3% above target." in
  plainText t = true /\
  sanitizeAssistantContent (star :: star :: t ++ [star; star]) = t /\
  sanitizeAssistantContent (star :: t ++ [star]) = t /\
  sanitizeAssistantContent (underscore :: t ++ [underscore]) = t.
Proof.
  intros t. split; [reflexivity|]. exact (emphasis_is_stripped t eq_refl).
Defined.

(** ** Heading and list markers before plain text *)

Lemma plain_head t :
  plainText t = true -> exists c r, t = c :: r /\ isSpace c = false.
Proof.
  intros H. destruct (plainText_facts t H) as (Hne & _ & _ & _ & _ & Ht & _).
  destruct t as [|c r]; [contradiction|]. exists c, r. split; [reflexivity|].
  exact (trim_first (c :: r) c r Ht).
Qed.

Lemma plain_trimEnd t : plainText t = true -> trimEnd t = t.
Proof.
  intros H. destruct (plainText_facts t H) as (_ & _ & _ & _ & _ & Ht & _).
  destruct (plain_head t H) as (c & r & -> & Hc).
  unfold trim in Ht. cbn [dropWhile] in Ht. now rewrite Hc in Ht.
Qed.

Lemma trimEnd_app x t : trimEnd t = t -> t <> [] -> trimEnd (x ++ t) = x ++ t.
Proof.
  intros Ht Hne. induction x as [|c x IH]; [exact Ht|].
  cbn [app trimEnd]. rewrite IH.
  destruct (x ++ t) eqn:E; [|reflexivity].
  apply app_eq_nil in E as [_ E]. contradiction.
Qed.

Lemma trim_keeps c x t :
  isSpace c = false -> plainText t = true -> trim (c :: x ++ t) = c :: x ++ t.
Proof.
  intros Hc H. unfold trim. cbn [dropWhile]. rewrite Hc.
  destruct (plainText_facts t H) as (Hne & _).
  exact (trimEnd_app (c :: x) t (plain_trimEnd t H) Hne).
Qed.

Lemma blank_facts sp :
  forallb blank sp = true ->
  Forall (fun c => isSpace c = true) sp /\ Forall (fun c => c <> LF) sp /\
  Forall (fun c => c <> star) sp /\ Forall (fun c => c <> underscore) sp.
Proof.
  intros H. rewrite forallb_forall in H.
  repeat split; apply Forall_forall; intros c Hc; specialize (H c Hc);
    unfold blank in H; apply andb_true_iff in H as [Hs Hl];
    try assumption; apply negb_true_iff in Hl; intros ->; discriminate.
Qed.

Lemma run_stop p c s : p c = false -> run p (c :: s) = 0.
Proof. intros H. simpl. now rewrite H. Qed.

Lemma spaces_then_plain sp t :
  sp <> [] -> forallb blank sp = true -> plainText t = true ->
  match_here [mkAtom isSpace 1 None true] (sp ++ t) = Some ([sp], t).
Proof.
  intros Hne Hb H. destruct (blank_facts sp Hb) as (Fs & _).
  destruct (plain_head t H) as (c & r & -> & Hc).
  assert (Hcap : cap (mkAtom isSpace 1 None true) (sp ++ c :: r) = length sp).
  { unfold cap. cbn [hi cls]. rewrite (run_app_all isSpace sp _ Fs), (run_stop _ _ _ Hc). lia. }
  rewrite (greedy_first (mkAtom isSpace 1 None true) [] (sp ++ c :: r) [] (c :: r)).
  - rewrite Hcap. rewrite firstn_app, Nat.sub_diag, firstn_all. cbn [firstn].
    now rewrite app_nil_r.
  - reflexivity.
  - rewrite Hcap. cbn [lo]. destruct sp; [contradiction | simpl; lia].
  - rewrite Hcap, skipn_length_app. reflexivity.
Qed.

Lemma no_leading_space a s ps rest c :
  isSpace c = false ->
  match_here s (c :: a) = Some (ps, rest) ->
  match_here (mkAtom isSpace 0 None true :: s) (c :: a) = Some ([] :: ps, rest).
Proof.
  intros Hc Hm.
  assert (Hcap : cap (mkAtom isSpace 0 None true) (c :: a) = 0).
  { unfold cap. cbn [hi cls]. now apply run_stop. }
  rewrite (greedy_first (mkAtom isSpace 0 None true) s (c :: a) ps rest).
  - now rewrite Hcap.
  - reflexivity.
  - rewrite Hcap. cbn [lo]. lia.
  - now rewrite Hcap.
Qed.

Lemma Forall_repeat {A} (P : A -> Prop) x k : P x -> Forall P (repeat x k).
Proof. intros H. induction k; simpl; constructor; assumption. Qed.

Lemma heading_whole k sp t :
  1 <= k <= 6 -> sp <> [] -> forallb blank sp = true -> plainText t = true ->
  strip_prefix heading_re (repeat hash k ++ sp ++ t) = t.
Proof.
  intros Hk Hne Hb H. destruct (blank_facts sp Hb) as (Fs & _).
  destruct sp as [|b sp]; [contradiction|]. inversion Fs as [|? ? Hsb _]; subst.
  destruct k as [|k]; [lia|].
  set (a2 := mkAtom (N.eqb hash) 1 (Some 6) true).
  assert (Fh : Forall (fun c => N.eqb hash c = true) (repeat hash (S k))).
  { apply Forall_repeat. apply N.eqb_refl. }
  assert (Hcap : cap a2 (repeat hash (S k) ++ (b :: sp) ++ t) = S k).
  { unfold cap, a2. cbn [hi cls]. rewrite (run_app_all _ _ _ Fh).
    rewrite repeat_length. cbn [app]. rewrite (run_stop _ b _ (space_not b hash eq_refl Hsb)). lia. }
  assert (M2 : match_here [a2; mkAtom isSpace 1 None true]
                 (repeat hash (S k) ++ (b :: sp) ++ t) =
               Some ([repeat hash (S k); b :: sp], t)).
  { rewrite (greedy_first a2 [mkAtom isSpace 1 None true] _ [b :: sp] t).
    - rewrite Hcap. rewrite <- (repeat_length hash (S k)) at 1.
      rewrite firstn_app, Nat.sub_diag, firstn_all. cbn [firstn].
      now rewrite app_nil_r.
    - reflexivity.
    - rewrite Hcap. cbn [lo a2]. lia.
    - rewrite Hcap. rewrite <- (repeat_length hash (S k)) at 1.
      rewrite skipn_length_app. apply spaces_then_plain; [discriminate | assumption | assumption]. }
  unfold strip_prefix, heading_re. fold a2.
  change (repeat hash (S k) ++ (b :: sp) ++ t)
    with (hash :: repeat hash k ++ (b :: sp) ++ t) in *.
  now rewrite (no_leading_space _ _ _ _ hash eq_refl M2).
Qed.

Lemma dash_whole sp t :
  sp <> [] -> forallb blank sp = true -> plainText t = true ->
  strip_prefix dash_re (dash :: sp ++ t) = t.
Proof.
  intros Hne Hb H. unfold strip_prefix, dash_re.
  rewrite (no_leading_space (sp ++ t) [one dash; mkAtom isSpace 1 None true]
             [[dash]; sp] t dash eq_refl); [reflexivity|].
  rewrite match_one_here. now rewrite (spaces_then_plain sp t Hne Hb H).
Qed.

Lemma long_heading_kept k sp t :
  7 <= k -> sp <> [] -> forallb blank sp = true ->
  blockStart (repeat hash k ++ sp ++ t) = false.
Proof.
  intros Hk Hne Hb. destruct (blank_facts sp Hb) as (Fs & _).
  destruct sp as [|b sp]; [contradiction|]. inversion Fs as [|? ? Hsb _]; subst.
  destruct k as [|k]; [lia|].
  assert (Fh : Forall (fun c => N.eqb hash c = true) (repeat hash (S k))).
  { apply Forall_repeat. apply N.eqb_refl. }
  unfold blockStart, headingStart, dashStart.
  change (repeat hash (S k) ++ (b :: sp) ++ t)
    with (hash :: repeat hash k ++ (b :: sp) ++ t).
  cbn [dropWhile]. change (isSpace hash) with false. cbv iota.
  change (hash :: repeat hash k ++ (b :: sp) ++ t)
    with (repeat hash (S k) ++ (b :: sp) ++ t).
  rewrite (run_app_all _ _ _ Fh), repeat_length. cbn [app].
  rewrite (run_stop _ b _ (space_not b hash eq_refl Hsb)), Nat.add_0_r.
  replace (S k <=? 6) with false by (symmetry; apply Nat.leb_gt; lia).
  rewrite andb_false_r. cbn [orb].
  change (repeat hash (S k) ++ b :: sp ++ t)
    with (hash :: repeat hash k ++ b :: sp ++ t).
  destruct (repeat hash k ++ b :: sp ++ t); reflexivity.
Qed.

Lemma dash_is_no_heading sp t : headingStart (dash :: sp ++ t) = false.
Proof. reflexivity. Qed.

Lemma marked_line_stages m x t :
  plainText t = true ->
  m <> star -> m <> underscore -> m <> LF ->
  Forall (fun c => c <> star) x -> Forall (fun c => c <> underscore) x ->
  Forall (fun c => c <> LF) x ->
  sanitizeAssistantContent (m :: x ++ t) = trim (strip_line (m :: x ++ t)).
Proof.
  intros H Hs Hu Hl Fs Fu Fl.
  destruct (plainText_facts t H) as (_ & Ts & Tu & _ & Tl & _).
  rewrite sanitize_unfold by discriminate.
  rewrite emphasis_untouched.
  - rewrite split_lines_single; [reflexivity|].
    constructor; [assumption|]. apply Forall_app. auto.
  - apply no_marker_no_pair. constructor; [assumption|]. apply Forall_app. auto.
  - apply no_marker_no_pair. constructor; [assumption|]. apply Forall_app. auto.
Qed.

(** X17. Heading and list markers before plain text are removed, within
    the pattern's bounds: one to six [#] followed by white space and
    plain text give the plain text, and so does [-] followed by white
    space; seven or more [#] are no heading marker and the line is
    returned as it is. *)
Theorem block_markers_are_stripped t sp k :
  plainText t = true -> sp <> [] -> forallb blank sp = true ->
  (1 <= k <= 6 -> sanitizeAssistantContent (repeat hash k ++ sp ++ t) = t) /\
  (7 <= k -> sanitizeAssistantContent (repeat hash k ++ sp ++ t) =
             repeat hash k ++ sp ++ t) /\
  sanitizeAssistantContent (dash :: sp ++ t) = t.
Proof.
  intros H Hne Hb.
  destruct (blank_facts sp Hb) as (_ & Bl & Bs & Bu).
  destruct (plainText_facts t H) as (_ & _ & _ & _ & _ & Ht & Hbs).
  assert (Hd : dashStart t = false).
  { unfold blockStart in Hbs. now apply orb_false_iff in Hbs as [_ ?]. }
  assert (Stage : forall k, 1 <= k ->
            sanitizeAssistantContent (repeat hash k ++ sp ++ t) =
              trim (strip_line (repeat hash k ++ sp ++ t))).
  { intros [|n] Hn; [lia|]. cbn [repeat app].
    rewrite app_assoc.
    rewrite (marked_line_stages hash (repeat hash n ++ sp) t H);
      try discriminate; try reflexivity;
      apply Forall_app; split; try assumption;
      apply Forall_repeat; discriminate. }
  split; [|split].
  - intros Hk. rewrite Stage by lia. unfold strip_line.
    rewrite (heading_whole k sp t Hk Hne Hb H).
    rewrite (strip_prefix_no_match dash_re dashStart t (dash_match t) Hd).
    exact Ht.
  - intros Hk. rewrite Stage by lia.
    rewrite (strip_line_plain _ (long_heading_kept k sp t Hk Hne Hb)).
    destruct k as [|n]; [lia|]. cbn [repeat app]. rewrite app_assoc.
    now apply trim_keeps.
  - rewrite (marked_line_stages dash sp t H); try discriminate; try assumption.
    unfold strip_line.
    rewrite (strip_prefix_no_match heading_re headingStart _
               (heading_match _) (dash_is_no_heading sp t)).
    rewrite (dash_whole sp t Hne Hb H). exact Ht.
Qed.

Lemma block_markers_are_stripped_witness :
  let t := lit "Q3 2025 filing status" in
  let sp := lit "  " in
  (plainText t = true /\ sp <> [] /\ forallb blank sp = true) /\
  (1 <= 3 <= 6 -> sanitizeAssistantContent (repeat hash 3 ++ sp ++ t) = t) /\
  (7 <= 3 -> sanitizeAssistantContent (repeat hash 3 ++ sp ++ t) =
             repeat hash 3 ++ sp ++ t) /\
  sanitizeAssistantContent (dash :: sp ++ t) = t.
Proof.
  intros t sp.
  assert (H2 : sp <> []) by discriminate.
  split; [auto|].
  exact (block_markers_are_stripped t sp 3 eq_refl H2 eq_refl).
Defined.

(** * Properties of the chat page *)

(** ** Sending from the page *)

Lemma truthy_false_nil s : truthy s = false <-> s = [].
Proof. destruct s; simpl; split; congruence. Qed.

(** X18. [handleSend] does nothing for an input that is empty or only
    white space: the state is kept and no request is made.  For any
    other input it posts exactly one body, which carries the trimmed
    text (never empty, never with white space at its ends), the session
    id the page holds and the selected document ids. *)
Theorem handleSend_posts_trimmed browser st :
  (trim (ChatPage.input st) = [] -> ChatPage.handleSend browser st = (st, [])) /\
  (trim (ChatPage.input st) <> [] ->
     let body := ChatPage.mkSendBody (ChatPage.currentSessionId st)
                   (trim (ChatPage.input st)) (ChatPage.selectedDocIds st) in
     ChatPage.posted (snd (ChatPage.handleSend browser st)) = [body] /\
     ChatPage.b_message body <> [] /\
     trim (ChatPage.b_message body) = ChatPage.b_message body).
Proof.
  unfold ChatPage.handleSend. split; intros H.
  - rewrite H. reflexivity.
  - assert (Ht : truthy (trim (ChatPage.input st)) = true).
    { destruct (trim (ChatPage.input st)); [contradiction | reflexivity]. }
    rewrite Ht. cbn [negb]. cbv zeta. cbn [ChatPage.b_message].
    split; [|split; [assumption | apply trim_idem]].
    destruct (ChatPage.answer browser); reflexivity.
Qed.

Lemma handleSend_posts_trimmed_witness :
  let browser := ChatPage.mkBrowser 1700000000123 (mkDate 2023 11 14 22 13 20 123)
                   (ChatPage.PostError None) in
  let blank := ChatPage.mkState None [] (lit "   ") false false [] in
  let st := ChatPage.mkState None [] (lit "  Summarize Q3 ") false false [lit "docA"] in
  (trim (ChatPage.input blank) = [] /\
   ChatPage.handleSend browser blank = (blank, [])) /\
  (trim (ChatPage.input st) <> [] /\
   let body := ChatPage.mkSendBody (ChatPage.currentSessionId st)
                 (trim (ChatPage.input st)) (ChatPage.selectedDocIds st) in
   ChatPage.posted (snd (ChatPage.handleSend browser st)) = [body] /\
   ChatPage.b_message body <> [] /\
   trim (ChatPage.b_message body) = ChatPage.b_message body).
Proof.
  intros browser blank st.
  assert (H1 : trim (ChatPage.input blank) = []) by reflexivity.
  assert (H2 : trim (ChatPage.input st) <> []) by (vm_compute; discriminate).
  split.
  - split; [exact H1|]. exact (proj1 (handleSend_posts_trimmed browser blank) H1).
  - split; [exact H2|]. exact (proj2 (handleSend_posts_trimmed browser st) H2).
Defined.

Lemma specTitle_of_trimmed s : specTitle (trim s) = specTitle s.
Proof. unfold specTitle. now rewrite trim_idem. Qed.

(** X19. A conversation started from the page is titled from the trimmed
    text.  When the body [handleSend] posts for a non-blank input is
    handed to [sendMessage] and names no session of the caller, the title
    is the first 80 code units of the trimmed input, which is what the
    specification words.  When this title is well formed, the one session
    that is created carries it.  When the cut falls inside a surrogate
    pair (for a well-formed input: when the 80th code unit of the trimmed
    text is the first half of a pair), [chatSession.create] refuses the
    title: the run ends with that error, and nothing is stored or
    sent. *)
Theorem page_session_title svc env user w st :
  truthy (openRouterApiKey svc) = true ->
  trim (ChatPage.input st) <> [] ->
  let text := trim (ChatPage.input st) in
  let body := ChatPage.mkSendBody (ChatPage.currentSessionId st) text
                (ChatPage.selectedDocIds st) in
  let run := sendMessage svc env user (ChatPage.dtoOf body) in
  ownedSession (db w) user (ChatPage.dtoOf body) = None ->
  (isWellFormed (firstn 80 text) = true ->
     exists s,
       chatSession (db (final run w)) = chatSession (db w) ++ [s] /\
       s_userId s = u_id user /\
       s_title s = firstn 80 text /\
       s_title s = specTitle (ChatPage.input st)) /\
  (isWellFormed (firstn 80 text) = false ->
     run w = (Throw PrismaClientError, w)) /\
  (isWellFormed text = true ->
     isWellFormed (firstn 80 text) = negb (isHighSurrogate (nth 79 text 0%N))).
Proof.
  intros Hk Hne text body run Ho.
  assert (Es : specTitle (ChatPage.input st) =
               or_else (slice0 80 text) (lit "New Chat")) by reflexivity.
  fold text in Hne. subst run body. clearbody text.
  set (dto := ChatPage.dtoOf
                (ChatPage.mkSendBody (ChatPage.currentSessionId st) text
                   (ChatPage.selectedDocIds st))) in *.
  assert (Et : newTitle dto = firstn 80 text).
  { rewrite newTitle_eq. unfold dto. cbn [ChatPage.dtoOf ChatPage.b_message message].
    destruct text; [contradiction | reflexivity]. }
  split; [|split].
  - intros Hwf.
    assert (Ha : sessionAccepted (db w) user dto = true).
    { apply sessionAccepted_new; [assumption | now rewrite Et]. }
    exists (newSession env user dto).
    rewrite (chatSession_final svc env user dto w Hk Ha).
    unfold afterResolve. rewrite Ho. cbn [db addSession chatSession].
    split; [reflexivity|]. split; [reflexivity|].
    cbn [newSession s_title]. rewrite Et. split; [reflexivity|].
    rewrite Es. unfold or_else, slice0.
    destruct (firstn 80 text) eqn:E; [|reflexivity].
    destruct text; [contradiction | discriminate].
  - intros Hwf. apply (sendMessage_refused svc env user dto w Hk).
    unfold sessionAccepted. now rewrite Ho, Et.
  - intros Hwf. exact (isWellFormed_firstn text 79 Hwf).
Qed.

Lemma page_session_title_witness :
  let svc := Sample.svc Sanitizing in
  let env := Sample.env HttpTimeout in
  let user := Sample.alice in
  let w := Sample.world 2 in
  let st := ChatPage.mkState None [] (lit "  Summarize Q3 ") false false [lit "docA"] in
  let cut := ChatPage.mkState None []
               (lit " " ++ repeat 97%N 79 ++ [55357%N; 56832%N] ++ lit " ")
               false false [] in
  let dto s := ChatPage.dtoOf
                 (ChatPage.mkSendBody (ChatPage.currentSessionId s)
                    (trim (ChatPage.input s)) (ChatPage.selectedDocIds s)) in
  (truthy (openRouterApiKey svc) = true /\
   trim (ChatPage.input st) <> [] /\
   ownedSession (db w) user (dto st) = None /\
   isWellFormed (firstn 80 (trim (ChatPage.input st))) = true /\
   exists s,
     chatSession (db (final (sendMessage svc env user (dto st)) w)) =
       chatSession (db w) ++ [s] /\
     s_userId s = u_id user /\
     s_title s = lit "Summarize Q3" /\
     s_title s = specTitle (ChatPage.input st)) /\
  (trim (ChatPage.input cut) <> [] /\
   ownedSession (db w) user (dto cut) = None /\
   isWellFormed (ChatPage.input cut) = true /\
   isWellFormed (firstn 80 (trim (ChatPage.input cut))) = false /\
   sendMessage svc env user (dto cut) w = (Throw PrismaClientError, w)).
Proof.
  intros svc env user w st cut dto.
  assert (H2 : trim (ChatPage.input st) <> []) by (vm_compute; discriminate).
  assert (H3 : trim (ChatPage.input cut) <> []) by (vm_compute; discriminate).
  assert (H4 : isWellFormed (firstn 80 (trim (ChatPage.input cut))) = false)
    by (vm_compute; reflexivity).
  split.
  - split; [reflexivity|]. split; [exact H2|]. split; [reflexivity|].
    split; [reflexivity|].
    exact (proj1 (page_session_title svc env user w st eq_refl H2 eq_refl) eq_refl).
  - split; [exact H3|]. split; [reflexivity|]. split; [vm_compute; reflexivity|].
    split; [exact H4|].
    exact (proj1 (proj2 (page_session_title svc env user w cut eq_refl H3 eq_refl)) H4).
Defined.

(** X20. After a successful send the page shows the conversation so far
    followed by the user's trimmed text and the assistant's reply; the
    input is cleared and the sending flag is off.  The session id the
    server returns is adopted only when the page held none: a page that
    already holds an id keeps it whatever the server returns, and the
    next message is posted with that same id. *)
Theorem handleSend_success browser st sid reply :
  trim (ChatPage.input st) <> [] ->
  ChatPage.answer browser = ChatPage.PostOk sid reply ->
  let st' := fst (ChatPage.handleSend browser st) in
  ChatPage.messages st' =
    ChatPage.messages st
    ++ [ChatPage.mkChatMessage (lit "temp-" ++ ChatPage.decimal (ChatPage.dateNow browser))
          (lit "user") (trim (ChatPage.input st))
          (toISOString (ChatPage.newDate browser));
        ChatPage.mkChatMessage (ChatPage.cm_id reply) (lit "assistant")
          (ChatPage.cm_content reply) (ChatPage.cm_createdAt reply)] /\
  ChatPage.input st' = [] /\
  ChatPage.isSending st' = false /\
  ChatPage.selectedDocIds st' = ChatPage.selectedDocIds st /\
  ChatPage.currentSessionId st' =
    (if truthy_opt (ChatPage.currentSessionId st)
     then ChatPage.currentSessionId st else Some sid) /\
  (forall current browser' text,
     ChatPage.currentSessionId st = Some current -> current <> [] ->
     trim text <> [] ->
     exists body,
       ChatPage.posted
         (snd (ChatPage.handleSend browser' (ChatPage.setInput text st'))) = [body] /\
       ChatPage.b_sessionId body = Some current).
Proof.
  intros Hne Ha st'. unfold st', ChatPage.handleSend.
  assert (Ht : truthy (trim (ChatPage.input st)) = true).
  { destruct (trim (ChatPage.input st)); [contradiction | reflexivity]. }
  rewrite Ht, Ha. cbn [negb fst]. cbv zeta.
  split; [|split; [|split; [|split; [|split]]]].
  - destruct (truthy_opt (ChatPage.currentSessionId st)); cbn;
      now rewrite <- app_assoc.
  - destruct (truthy_opt (ChatPage.currentSessionId st)); reflexivity.
  - reflexivity.
  - destruct (truthy_opt (ChatPage.currentSessionId st)); reflexivity.
  - destruct (truthy_opt (ChatPage.currentSessionId st)); reflexivity.
  - intros current browser' text Hc Hcur Htext.
    assert (Hto : truthy_opt (ChatPage.currentSessionId st) = true).
    { rewrite Hc. destruct current; [contradiction | reflexivity]. }
    rewrite Hto. cbn [negb].
    assert (Ht' : truthy (trim text) = true).
    { destruct (trim text); [contradiction | reflexivity]. }
    unfold ChatPage.handleSend. cbn [ChatPage.input ChatPage.setInput
      ChatPage.setIsSending ChatPage.setMessages ChatPage.currentSessionId
      ChatPage.selectedDocIds]. rewrite Ht'. cbn [negb]. cbv zeta.
    eexists. split.
    + destruct (ChatPage.answer browser'); reflexivity.
    + exact Hc.
Qed.

Lemma handleSend_success_witness :
  let reply := ChatPage.mkChatMessage (lit "m-assistant") (lit "assistant")
                 (lit "Fine.") (lit "2023-11-14T22:13:21.000Z") in
  let browser := ChatPage.mkBrowser 1700000000123 (mkDate 2023 11 14 22 13 20 123)
                   (ChatPage.PostOk (lit "s-new") reply) in
  let st := ChatPage.mkState (Some (lit "s-alice")) [] (lit " And Q4? ") false false [] in
  (trim (ChatPage.input st) <> [] /\
   ChatPage.answer browser = ChatPage.PostOk (lit "s-new") reply) /\
  let st' := fst (ChatPage.handleSend browser st) in
  ChatPage.messages st' =
    ChatPage.messages st
    ++ [ChatPage.mkChatMessage (lit "temp-" ++ ChatPage.decimal (ChatPage.dateNow browser))
          (lit "user") (trim (ChatPage.input st))
          (toISOString (ChatPage.newDate browser));
        ChatPage.mkChatMessage (ChatPage.cm_id reply) (lit "assistant")
          (ChatPage.cm_content reply) (ChatPage.cm_createdAt reply)] /\
  ChatPage.input st' = [] /\
  ChatPage.isSending st' = false /\
  ChatPage.selectedDocIds st' = ChatPage.selectedDocIds st /\
  ChatPage.currentSessionId st' =
    (if truthy_opt (ChatPage.currentSessionId st)
     then ChatPage.currentSessionId st else Some (lit "s-new")) /\
  (forall current browser' text,
     ChatPage.currentSessionId st = Some current -> current <> [] ->
     trim text <> [] ->
     exists body,
       ChatPage.posted
         (snd (ChatPage.handleSend browser' (ChatPage.setInput text st'))) = [body] /\
       ChatPage.b_sessionId body = Some current).
Proof.
  intros reply browser st.
  assert (H1 : trim (ChatPage.input st) <> []) by (vm_compute; discriminate).
  split; [split; [exact H1 | reflexivity]|].
  exact (handleSend_success browser st (lit "s-new") reply H1 eq_refl).
Defined.

Lemma filter_drop_last {A} (p : A -> bool) l x :
  (forall y, In y l -> p y = true) -> p x = false -> filter p (l ++ [x]) = l.
Proof.
  intros Hl Hx. rewrite filter_app. cbn [filter]. rewrite Hx, app_nil_r.
  now apply filter_all.
Qed.

(** X21. After a failed send the optimistic message is withdrawn: when
    no message on the page carries the temporary id, the list of
    messages is what it was; the sending flag is off and the session id
    is unchanged.  The input stays cleared, so the text the user typed is
    no longer on the page; one error is shown, the [message] of the
    server's response when it has a truthy one and a fixed sentence
    otherwise. *)
Theorem handleSend_failure browser st responseData :
  trim (ChatPage.input st) <> [] ->
  ChatPage.answer browser = ChatPage.PostError responseData ->
  (forall m, In m (ChatPage.messages st) ->
     ChatPage.cm_id m <> lit "temp-" ++ ChatPage.decimal (ChatPage.dateNow browser)) ->
  let st' := fst (ChatPage.handleSend browser st) in
  let effects := snd (ChatPage.handleSend browser st) in
  ChatPage.messages st' = ChatPage.messages st /\
  ChatPage.input st' = [] /\
  ChatPage.isSending st' = false /\
  ChatPage.currentSessionId st' = ChatPage.currentSessionId st /\
  ChatPage.selectedDocIds st' = ChatPage.selectedDocIds st /\
  (exists post shown, effects = [post; ChatPage.ToastError shown] /\
     shown = ChatPage.sendErrorText responseData /\
     (responseData = None ->
      shown = JString (lit "Failed to send message to AI assistant")) /\
     (forall text other, text <> [] ->
        responseData = Some (JObject ((lit "message", JString text) :: other)) ->
        shown = JString text)).
Proof.
  intros Hne Ha Hfresh st' effects. unfold st', effects, ChatPage.handleSend.
  assert (Ht : truthy (trim (ChatPage.input st)) = true).
  { destruct (trim (ChatPage.input st)); [contradiction | reflexivity]. }
  rewrite Ht, Ha. cbn [negb fst snd]. cbv zeta.
  cbn [ChatPage.setMessages ChatPage.setIsSending ChatPage.setInput
       ChatPage.messages ChatPage.input ChatPage.isSending
       ChatPage.currentSessionId ChatPage.selectedDocIds ChatPage.docModalOpen].
  split; [|repeat split].
  - apply filter_drop_last.
    + intros m Hm. apply negb_true_iff. apply eqb_neq. now apply Hfresh.
    + cbn [ChatPage.cm_id]. now rewrite eqb_refl.
  - eexists _, _. split; [reflexivity|]. split; [reflexivity|]. split.
    + now intros ->.
    + intros text other Htext ->. unfold ChatPage.sendErrorText.
      cbn [opt_chain get_named assoc]. rewrite eqb_refl.
      destruct text; [contradiction | reflexivity].
Qed.

Lemma handleSend_failure_witness :
  let data := Some (JObject [(lit "message", JString (lit "Server busy"));
                             (lit "statusCode", JNumber 500)]) in
  let browser := ChatPage.mkBrowser 1700000000123 (mkDate 2023 11 14 22 13 20 123)
                   (ChatPage.PostError data) in
  let earlier := ChatPage.mkChatMessage (lit "m-1") (lit "user") (lit "Hello")
                   (lit "2023-11-14T22:00:00.000Z") in
  let st := ChatPage.mkState None [earlier] (lit " And Q4? ") false false [] in
  (trim (ChatPage.input st) <> [] /\
   ChatPage.answer browser = ChatPage.PostError data /\
   (forall m, In m (ChatPage.messages st) ->
      ChatPage.cm_id m <> lit "temp-" ++ ChatPage.decimal (ChatPage.dateNow browser))) /\
  let st' := fst (ChatPage.handleSend browser st) in
  let effects := snd (ChatPage.handleSend browser st) in
  ChatPage.messages st' = ChatPage.messages st /\
  ChatPage.input st' = [] /\
  ChatPage.isSending st' = false /\
  ChatPage.currentSessionId st' = ChatPage.currentSessionId st /\
  ChatPage.selectedDocIds st' = ChatPage.selectedDocIds st /\
  (exists post shown, effects = [post; ChatPage.ToastError shown] /\
     shown = ChatPage.sendErrorText data /\
     (data = None ->
      shown = JString (lit "Failed to send message to AI assistant")) /\
     (forall text other, text <> [] ->
        data = Some (JObject ((lit "message", JString text) :: other)) ->
        shown = JString text)).
Proof.
  intros data browser earlier st.
  assert (H1 : trim (ChatPage.input st) <> []) by (vm_compute; discriminate).
  assert (H3 : forall m, In m (ChatPage.messages st) ->
                 ChatPage.cm_id m <>
                 lit "temp-" ++ ChatPage.decimal (ChatPage.dateNow browser)).
  { intros m [<- | []]. vm_compute. discriminate. }
  split; [split; [exact H1 | split; [reflexivity | exact H3]]|].
  exact (handleSend_failure browser st data H1 eq_refl H3).
Defined.

(** ** The selection of documents *)

Lemma includes_In x l : ChatPage.includes x l = true <-> In x l.
Proof.
  unfold ChatPage.includes. rewrite existsb_exists. split.
  - intros (y & Hy & E). apply eqb_eq in E. now subst.
  - intros H. exists x. split; [assumption | apply eqb_refl].
Qed.

Lemma in_remove id j l :
  In j (filter (fun d => negb (Js.eqb d id)) l) <-> In j l /\ j <> id.
Proof.
  rewrite filter_In, negb_true_iff, eqb_neq. tauto.
Qed.

Lemma NoDup_filter {A} (p : A -> bool) l : NoDup l -> NoDup (filter p l).
Proof.
  induction 1 as [|x l Hx _ IH]; simpl; [constructor|].
  destruct (p x); [|assumption]. constructor; [|assumption].
  intros H. apply filter_In in H as [H _]. contradiction.
Qed.

Lemma remove_absent id l :
  ~ In id l -> filter (fun d => negb (Js.eqb d id)) l = l.
Proof.
  intros H. apply filter_all. intros x Hx. apply negb_true_iff, eqb_neq.
  intros ->. contradiction.
Qed.

(** X22. [toggleDocSelection] flips the selection of one document and of
    no other: afterwards the id is selected exactly when it was not
    before, every other id is selected exactly when it was; a selection
    without duplicates stays without duplicates; the list written to
    local storage is the new selection; and selecting a document and
    toggling it again gives back the selection one started from. *)
Theorem toggleDocSelection_flips id st :
  let st' := fst (ChatPage.toggleDocSelection id st) in
  (In id (ChatPage.selectedDocIds st') <-> ~ In id (ChatPage.selectedDocIds st)) /\
  (forall j, j <> id ->
     (In j (ChatPage.selectedDocIds st') <-> In j (ChatPage.selectedDocIds st))) /\
  (NoDup (ChatPage.selectedDocIds st) -> NoDup (ChatPage.selectedDocIds st')) /\
  snd (ChatPage.toggleDocSelection id st) =
    [ChatPage.StorageSet (lit "chatSelectedDocs") (ChatPage.selectedDocIds st')] /\
  (~ In id (ChatPage.selectedDocIds st) ->
     ChatPage.selectedDocIds (fst (ChatPage.toggleDocSelection id st')) =
       ChatPage.selectedDocIds st) /\
  ChatPage.messages st' = ChatPage.messages st /\
  ChatPage.currentSessionId st' = ChatPage.currentSessionId st.
Proof.
  cbv zeta. unfold ChatPage.toggleDocSelection. cbv zeta.
  cbn [fst snd ChatPage.setSelectedDocIds ChatPage.selectedDocIds
       ChatPage.messages ChatPage.currentSessionId].
  destruct (ChatPage.includes id (ChatPage.selectedDocIds st)) eqn:E.
  - apply includes_In in E.
    split; [|split; [|split; [|split; [|split]]]]; try reflexivity.
    + rewrite in_remove. split; [intros [_ H]; congruence | intros H; contradiction].
    + intros j Hj. rewrite in_remove. tauto.
    + apply NoDup_filter.
    + intros H. contradiction.
    + split; reflexivity.
  - assert (Hn : ~ In id (ChatPage.selectedDocIds st)).
    { intros H. apply includes_In in H. congruence. }
    split; [|split; [|split; [|split; [|split]]]]; try reflexivity.
    + split; [intros _; assumption | intros _; apply in_or_app; right; now left].
    + intros j Hj. rewrite in_app_iff. cbn [In]. split; [|tauto].
      intros [H | [H | []]]; [assumption | congruence].
    + intros Hnd. apply NoDup_app; [assumption | repeat constructor; intros [] |].
      intros x Hx [<- | []]. contradiction.
    + intros _.
      assert (Hi : ChatPage.includes id (ChatPage.selectedDocIds st ++ [id]) = true).
      { apply includes_In. apply in_or_app. right. now left. }
      rewrite Hi. rewrite filter_app. cbn [filter]. rewrite eqb_refl. cbn [negb].
      rewrite app_nil_r. now apply remove_absent.
    + split; reflexivity.
Qed.

(** X23. [removeDoc] takes one document out of the selection and leaves
    the others selected, in their order; removing a document that is not
    selected, or removing twice, changes nothing more; and on a selected
    document it does what [toggleDocSelection] does. *)
Theorem removeDoc_removes id st :
  let st' := fst (ChatPage.removeDoc id st) in
  ~ In id (ChatPage.selectedDocIds st') /\
  (forall j, j <> id ->
     (In j (ChatPage.selectedDocIds st') <-> In j (ChatPage.selectedDocIds st))) /\
  (~ In id (ChatPage.selectedDocIds st) ->
     ChatPage.selectedDocIds st' = ChatPage.selectedDocIds st) /\
  ChatPage.selectedDocIds (fst (ChatPage.removeDoc id st')) =
    ChatPage.selectedDocIds st' /\
  (In id (ChatPage.selectedDocIds st) ->
     ChatPage.removeDoc id st = ChatPage.toggleDocSelection id st).
Proof.
  cbv zeta. unfold ChatPage.removeDoc, ChatPage.toggleDocSelection. cbv zeta.
  cbn [fst ChatPage.setSelectedDocIds ChatPage.selectedDocIds].
  split; [|split; [|split; [|split]]].
  - rewrite in_remove. tauto.
  - intros j Hj. rewrite in_remove. tauto.
  - apply remove_absent.
  - apply remove_absent. rewrite in_remove. tauto.
  - intros H. apply includes_In in H. now rewrite H.
Qed.

(** ** The document counters *)

Lemma count_three docs :
  ChatPage.countStatus (lit "PENDING") docs + ChatPage.countStatus (lit "APPROVED") docs
  + ChatPage.countStatus (lit "REJECTED") docs <= length docs /\
  (ChatPage.countStatus (lit "PENDING") docs + ChatPage.countStatus (lit "APPROVED") docs
   + ChatPage.countStatus (lit "REJECTED") docs = length docs <->
   Forall (fun d => ChatPage.doc_status d = lit "PENDING" \/
                    ChatPage.doc_status d = lit "APPROVED" \/
                    ChatPage.doc_status d = lit "REJECTED") docs).
Proof.
  unfold ChatPage.countStatus. induction docs as [|d docs [IHle IHeq]].
  - split; [simpl; lia | split; [constructor | reflexivity]].
  - cbn [filter].
    destruct (Js.eqb (ChatPage.doc_status d) (lit "PENDING")) eqn:EP;
    destruct (Js.eqb (ChatPage.doc_status d) (lit "APPROVED")) eqn:EA;
    destruct (Js.eqb (ChatPage.doc_status d) (lit "REJECTED")) eqn:ER;
    try (apply eqb_eq in EP); try (apply eqb_eq in EA); try (apply eqb_eq in ER);
    try (rewrite EP in EA; discriminate EA);
    try (rewrite EP in ER; discriminate ER);
    try (rewrite EA in ER; discriminate ER);
    cbn [length]; (split; [lia|]); split.
    + intros H. constructor; [auto|]. apply IHeq. lia.
    + intros H. inversion H; subst. apply IHeq in H3. lia.
    + intros H. constructor; [auto|]. apply IHeq. lia.
    + intros H. inversion H; subst. apply IHeq in H3. lia.
    + intros H. constructor; [auto|]. apply IHeq. lia.
    + intros H. inversion H; subst. apply IHeq in H3. lia.
    + intros H. lia.
    + intros H. inversion H as [|? ? Hd _]; subst.
      apply eqb_neq in EP, EA, ER. tauto.
Qed.

(** X24. The three counters of the sidebar never add up to more than
    the total: a document counts for at most one of pending, approved
    and rejected, and for none when its status is another one; the
    counters add up to the total exactly when every document has one of
    the three statuses; while the documents are not loaded all four
    numbers are zero. *)
Theorem stats_counts allDocuments :
  let s := ChatPage.stats allDocuments in
  ChatPage.pending s + ChatPage.approved s + ChatPage.rejected s
    <= ChatPage.totalDocs s /\
  (allDocuments = None -> s = ChatPage.mkStats 0 0 0 0) /\
  (forall docs, allDocuments = Some docs ->
     ChatPage.totalDocs s = length docs /\
     (ChatPage.pending s + ChatPage.approved s + ChatPage.rejected s
        = ChatPage.totalDocs s <->
      Forall (fun d => ChatPage.doc_status d = lit "PENDING" \/
                       ChatPage.doc_status d = lit "APPROVED" \/
                       ChatPage.doc_status d = lit "REJECTED") docs)).
Proof.
  cbv zeta. destruct allDocuments as [docs|];
    cbn [ChatPage.stats ChatPage.pending ChatPage.approved ChatPage.rejected
         ChatPage.totalDocs].
  - destruct (count_three docs) as [Hle Heq].
    split; [exact Hle|]. split; [discriminate|].
    intros docs' E. injection E as <-. split; [reflexivity | exact Heq].
  - split; [lia|]. split; [reflexivity | discriminate].
Qed.

(** ** Opening and deleting a conversation *)

Lemma shown_role m :
  ChatPage.cm_role (ChatPage.shown m) = lit "user" \/
  ChatPage.cm_role (ChatPage.shown m) = lit "assistant".
Proof.
  unfold ChatPage.shown. cbn [ChatPage.cm_role].
  destruct (Js.eqb (ChatPage.cm_role m) (lit "assistant")); auto.
Qed.

(** X25. Opening a conversation replaces what the page showed by the
    messages received, each with role "user" or "assistant" and its id,
    text and time unchanged, and makes the received session id the
    page's; the next message typed is then posted with that session id,
    so the conversation is continued. *)
Theorem loadSession_then_send id sid received st browser text :
  sid <> [] -> trim text <> [] ->
  let st1 := fst (ChatPage.loadSession id (ChatPage.GetOk (Some sid) received) st) in
  ChatPage.messages st1 =
    map ChatPage.shown (match received with Some ms => ms | None => [] end) /\
  Forall (fun m => ChatPage.cm_role m = lit "user" \/
                   ChatPage.cm_role m = lit "assistant") (ChatPage.messages st1) /\
  ChatPage.currentSessionId st1 = Some sid /\
  ChatPage.posted (snd (ChatPage.handleSend browser (ChatPage.setInput text st1))) =
    [ChatPage.mkSendBody (Some sid) (trim text) (ChatPage.selectedDocIds st)].
Proof.
  intros Hsid Htext st1. unfold st1, ChatPage.loadSession. cbv zeta.
  cbn [fst ChatPage.setMessages ChatPage.setCurrentSessionId ChatPage.messages
       ChatPage.currentSessionId].
  split; [reflexivity|]. split; [|split; [reflexivity|]].
  - apply Forall_forall. intros m Hm. apply in_map_iff in Hm as (m0 & <- & _).
    apply shown_role.
  - unfold ChatPage.handleSend.
    cbn [ChatPage.input ChatPage.setInput ChatPage.setIsSending ChatPage.setMessages
         ChatPage.currentSessionId ChatPage.selectedDocIds].
    assert (Ht : truthy (trim text) = true).
    { destruct (trim text); [contradiction | reflexivity]. }
    rewrite Ht. cbn [negb]. cbv zeta.
    destruct (ChatPage.answer browser); reflexivity.
Qed.

Lemma loadSession_then_send_witness :
  let received := Some [ChatPage.mkChatMessage (lit "m-1") (lit "system")
                          (lit "Hello") (lit "2023-11-14T22:00:00.000Z")] in
  let browser := ChatPage.mkBrowser 1700000000123 (mkDate 2023 11 14 22 13 20 123)
                   (ChatPage.PostError None) in
  let st := ChatPage.mkState None [] [] false false [lit "docA"] in
  (lit "s-alice" <> [] /\ trim (lit " And Q4? ") <> []) /\
  let st1 := fst (ChatPage.loadSession (lit "s-alice")
                    (ChatPage.GetOk (Some (lit "s-alice")) received) st) in
  ChatPage.messages st1 =
    map ChatPage.shown (match received with Some ms => ms | None => [] end) /\
  Forall (fun m => ChatPage.cm_role m = lit "user" \/
                   ChatPage.cm_role m = lit "assistant") (ChatPage.messages st1) /\
  ChatPage.currentSessionId st1 = Some (lit "s-alice") /\
  ChatPage.posted (snd (ChatPage.handleSend browser
                          (ChatPage.setInput (lit " And Q4? ") st1))) =
    [ChatPage.mkSendBody (Some (lit "s-alice")) (trim (lit " And Q4? "))
       (ChatPage.selectedDocIds st)].
Proof.
  intros received browser st.
  assert (H1 : lit "s-alice" <> []) by discriminate.
  assert (H2 : trim (lit " And Q4? ") <> []) by (vm_compute; discriminate).
  split; [auto|].
  exact (loadSession_then_send (lit "s-alice") (lit "s-alice") received st browser
           (lit " And Q4? ") H1 H2).
Defined.

(** X26. Deleting from the page.  When the server confirms the deletion
    of the conversation the page shows, the page forgets it: no messages,
    no session id, and the next message typed is posted without a
    session id, which starts a new conversation.  Deleting another
    conversation leaves the page as it is; when the request fails the
    page is unchanged and an error is shown. *)
Theorem page_deleteSession id st :
  (ChatPage.currentSessionId st = Some id ->
     let st' := fst (ChatPage.deleteSession id true st) in
     ChatPage.messages st' = [] /\
     ChatPage.currentSessionId st' = None /\
     forall browser text, trim text <> [] ->
       ChatPage.posted (snd (ChatPage.handleSend browser (ChatPage.setInput text st'))) =
         [ChatPage.mkSendBody None (trim text) (ChatPage.selectedDocIds st)]) /\
  (ChatPage.currentSessionId st <> Some id ->
     fst (ChatPage.deleteSession id true st) = st) /\
  ChatPage.deleteSession id false st =
    (st, [ChatPage.ApiDelete (lit "/chat/sessions/" ++ id);
          ChatPage.ToastError (JString (lit "Failed to delete chat session"))]).
Proof.
  unfold ChatPage.deleteSession. cbv zeta. split; [|split; [|reflexivity]].
  - intros ->. rewrite eqb_refl. cbn [fst ChatPage.setMessages
      ChatPage.setCurrentSessionId ChatPage.messages ChatPage.currentSessionId].
    split; [reflexivity|]. split; [reflexivity|].
    intros browser text Htext. unfold ChatPage.handleSend.
    cbn [ChatPage.input ChatPage.setInput ChatPage.setIsSending ChatPage.setMessages
         ChatPage.currentSessionId ChatPage.selectedDocIds].
    assert (Ht : truthy (trim text) = true).
    { destruct (trim text); [contradiction | reflexivity]. }
    rewrite Ht. cbn [negb]. cbv zeta.
    destruct (ChatPage.answer browser); reflexivity.
  - intros H. cbn [fst]. destruct (ChatPage.currentSessionId st) as [current|];
      [|reflexivity].
    destruct (Js.eqb current id) eqn:E; [|reflexivity].
    apply eqb_eq in E. subst. contradiction.
Qed.

Lemma page_deleteSession_witness :
  let shownMessage := ChatPage.mkChatMessage (lit "m-1") (lit "user") (lit "Hello")
                        (lit "2023-11-14T22:00:00.000Z") in
  let st := ChatPage.mkState (Some (lit "s-alice")) [shownMessage] [] false false
              [lit "docA"] in
  (ChatPage.currentSessionId st = Some (lit "s-alice") /\
   let st' := fst (ChatPage.deleteSession (lit "s-alice") true st) in
   ChatPage.messages st' = [] /\ ChatPage.currentSessionId st' = None) /\
  (ChatPage.currentSessionId st <> Some (lit "s-bob") /\
   fst (ChatPage.deleteSession (lit "s-bob") true st) = st).
Proof.
  intros shownMessage st.
  assert (H2 : ChatPage.currentSessionId st <> Some (lit "s-bob")) by discriminate.
  split.
  - split; [reflexivity|].
    destruct (proj1 (page_deleteSession (lit "s-alice") st) eq_refl) as (A & B & _).
    split; assumption.
  - split; [exact H2|]. exact (proj1 (proj2 (page_deleteSession (lit "s-bob") st)) H2).
Defined.
